(** * Verification of the DAOstack client core

    A shallow embedding of the parts of [src/token.ts] that carry the
    governance arithmetic ([Proposal.state]), the write-operation mappers and
    error handlers ([Proposal.vote], [Proposal.stake], [Proposal.execute]),
    the [Token] constructor, the balance multiplexer ([Arc.ethBalance]), the
    contract cache ([Arc.getContract]), [Proposal.create] and
    [Arc.getAccount], and of [Stake.search] of [src/stake.ts], followed by
    the properties established about them.

    Conventions.
    - [typeof BN] values are arbitrary-precision integers: [Z].
    - A JavaScript [number] is modelled by an exact rational ([Q]).  The only
      floating-point operation of the embedded code is the product
      [threshold * PRECISION] with [PRECISION = 2^40]; scaling a double by a
      power of two is exact, so the rational product is the double product.
      [bn.js] builds an integer from a number only below [2^53].
    - A function that may [throw] returns a [Result]. *)

From Stdlib Require Import ZArith QArith Qabs Qround Lia Ascii String DecimalString.
From stdpp Require Import base option list strings.

(** ** JavaScript preliminaries *)

Module Js.

(** [Error(msg)] and [new Error(msg)] build the same object; only the
    message is observed by the code under study. *)
Record Error := mkError { message : string }.

Inductive Result (A : Type) : Type :=
| Returned (a : A)
| Threw (e : Error).
Arguments Returned {A} a.
Arguments Threw {A} e.

Definition bind {A B : Type} (r : Result A) (k : A -> Result B) : Result B :=
  match r with
  | Returned a => k a
  | Threw e => Threw e
  end.

Definition returns {A : Type} (r : Result A) : Prop :=
  exists a, r = Returned a.

(** [String.prototype.toLowerCase] on ASCII text. *)
Definition ascii_toLowerCase (c : ascii) : ascii :=
  let n := nat_of_ascii c in
  if (Nat.leb 65 n && Nat.leb n 90)%bool then ascii_of_nat (n + 32) else c.

Fixpoint toLowerCase (s : string) : string :=
  match s with
  | EmptyString => EmptyString
  | String c s' => String (ascii_toLowerCase c) (toLowerCase s')
  end.

(** Truthiness of a value of TypeScript type [string | null]:
    [None] stands for [null]. *)
Definition truthy (v : option string) : bool :=
  match v with
  | Some s => negb (String.eqb s "")
  | None => false
  end.

(** A run-time value passed where TypeScript declares a [string]. *)
Inductive Value :=
| Undefined
| Null
| Str (s : string).

Definition falsy (v : Value) : bool :=
  match v with
  | Undefined | Null => true
  | Str s => String.eqb s ""
  end.

(** [s.match(/pat/)] for a pattern without metacharacters is truthy exactly
    when [pat] occurs in [s]. *)
Fixpoint includes (pat s : string) : bool :=
  if String.prefix pat s then true
  else match s with
       | EmptyString => false
       | String _ s' => includes pat s'
       end.

(** [Array.prototype.join]. *)
Fixpoint join (sep : string) (l : list string) : string :=
  match l with
  | [] => ""
  | [x] => x
  | x :: l' => x +:+ sep +:+ join sep l'
  end.

(** Decimal rendering of an integer, as [BN.prototype.toString] does. *)
Definition Z_toString (z : Z) : string :=
  NilZero.string_of_int (Z.to_int z).

(** The double-quote character, for messages that quote a name. *)
Definition dquote : string := String (ascii_of_nat 34) EmptyString.

End Js.

#[export] Instance result_bind : MBind Js.Result :=
  fun A B k r => Js.bind r k.
#[export] Instance result_ret : MRet Js.Result := @Js.Returned.

(** ** The [BN] operations used by the source ([bn.js]) *)

Module BN.
Local Open Scope Z_scope.

(** The integer [bn.js] stores for a JavaScript number [x] it accepts: the
    fractional part is discarded (truncation toward zero). *)
Definition of_number (x : Q) : Z := Z.quot (Qnum x) (Zpos (Qden x)).

(** [new BN(x)] for a JavaScript number [x].  The constructor works on the
    absolute value and asserts that it is below [2^53]; the sign is put
    back afterwards. *)
Definition new_BN (x : Q) : Js.Result Z :=
  if Qle_bool (inject_Z (2 ^ 53)) (Qabs x)
  then Js.Threw (Js.mkError "Assertion failed")
  else Js.Returned (of_number x).

(** [a.div(b)]: truncating division; [bn.js] asserts a non-zero divisor. *)
Definition div (a b : Z) : Js.Result Z :=
  if Z.eqb b 0
  then Js.Threw (Js.mkError "Assertion failed")
  else Js.Returned (Z.quot a b).

Definition mul (a b : Z) : Z := a * b.
Definition sub (a b : Z) : Z := a - b.
Definition lt (a b : Z) : bool := Z.ltb a b.

End BN.

(** ** [Proposal.state]: the item mapper and its threshold arithmetic *)

Module ProposalState.
Import Js.
Local Open Scope Z_scope.

Inductive IProposalType :=
| ContributionReward
| GenericScheme
| SchemeRegistrarAdd
| SchemeRegistrarEdit
| SchemeRegistrarRemove.

Inductive IProposalStage :=
| ExpiredInQueue
| Executed
| Queued
| PreBoosted
| Boosted
| QuietEndingPeriod.

(** What the expression [IProposalStage[key]] evaluates to.  A numeric
    TypeScript enum object maps each member name to its number and each
    number (as a property key) back to the member name; any other key gives
    a value that is not a number, collected in [StageUndefined]. *)
Inductive StageValue :=
| StageMember (s : IProposalStage)
| StageName (s : IProposalStage)
| StageUndefined.

Definition IProposalStage_at (key : string) : StageValue :=
  if String.eqb key "ExpiredInQueue" then StageMember ExpiredInQueue
  else if String.eqb key "Executed" then StageMember Executed
  else if String.eqb key "Queued" then StageMember Queued
  else if String.eqb key "PreBoosted" then StageMember PreBoosted
  else if String.eqb key "Boosted" then StageMember Boosted
  else if String.eqb key "QuietEndingPeriod" then StageMember QuietEndingPeriod
  else if String.eqb key "0" then StageName ExpiredInQueue
  else if String.eqb key "1" then StageName Executed
  else if String.eqb key "2" then StageName Queued
  else if String.eqb key "3" then StageName PreBoosted
  else if String.eqb key "4" then StageName Boosted
  else if String.eqb key "5" then StageName QuietEndingPeriod
  else StageUndefined.

Definition IProposalStage_eqb (a b : IProposalStage) : bool :=
  match a, b with
  | ExpiredInQueue, ExpiredInQueue | Executed, Executed | Queued, Queued
  | PreBoosted, PreBoosted | Boosted, Boosted
  | QuietEndingPeriod, QuietEndingPeriod => true
  | _, _ => false
  end.

(** [stage === IProposalStage.X]. *)
Definition stage_is (v : StageValue) (x : IProposalStage) : bool :=
  match v with
  | StageMember s => IProposalStage_eqb s x
  | StageName _ | StageUndefined => false
  end.

Record IContributionReward := {
  cr_beneficiary : string;
  cr_ethReward : Z;
  cr_externalToken : string;
  cr_externalTokenReward : Z;
  cr_nativeTokenReward : Z;
  cr_periodLength : Z;
  cr_periods : Z;
  cr_reputationReward : Z
}.

Record IGenericScheme := {
  gs_callData : string;
  gs_contractToCall : string;
  gs_executed : bool;
  gs_id : string;
  gs_returnValue : string
}.

Record ISchemeRegistrar := {
  sr_decision : Z;
  sr_id : string;
  sr_schemeRegistered : bool;
  sr_schemeRemoved : bool;
  sr_schemeToRegister : option string;
  sr_schemeToRegisterParamsHash : string;
  sr_schemeToRegisterPermission : string;
  sr_schemeToRemove : option string
}.

(** The query result handed to [itemMap], restricted to the fields that
    decide its control flow and the stake deltas.  Numeric strings of the
    index are held by their integer value; a sub-record that the index
    returns as [null] is [None]. *)
Record Item := {
  item_contributionReward : option IContributionReward;
  item_genericScheme : option IGenericScheme;
  item_schemeRegistrar : option ISchemeRegistrar;
  item_dao_schemes : list string;
  item_stage : string;
  item_gpQueue_threshold : Z;
  item_stakesFor : Z;
  item_stakesAgainst : Z;
  item_thresholdConst : Z;
  item_scheme_name : option string;
  item_scheme_address : string
}.

Record IProposalState := {
  contributionReward : option IContributionReward;
  genericScheme : option IGenericScheme;
  schemeRegistrar : option ISchemeRegistrar;
  type : IProposalType;
  stage : StageValue;
  stakesFor : Z;
  stakesAgainst : Z;
  queue_threshold : Q;
  thresholdConst : Q;
  scheme_name : option string;
  upstakeNeededToPreBoost : Z;
  downStakeNeededToQueue : Z
}.

(** [Math.pow(2, 40)]. *)
Definition PRECISION : Q := inject_Z (2 ^ 40).

(** Modelled from the spec: [realMathToNumber] of [utils.ts], which is not
    among the sources.  The spec describes the threshold as a ratio held in
    fixed-point form with precision constant [2^40]; decoding divides the
    raw integer by that constant. *)
Definition realMathToNumber_fixed40 (raw : Z) : Result Q := Returned (Qmake raw (2 ^ 40)).

Section WithContext.

(** [realMathToNumber] and [isAddress] come from [utils.ts]; they are
    parameters of the development, and either may throw.
    [contractAddresses] is the field of the [Arc] context read by
    [getContractName]; it is [None] when the context was built without
    addresses. *)
Variable realMathToNumber : Z -> Result Q.
Variable isAddress : Value -> Result unit.
Variable contractAddresses : option (list (string * string)).

(** [Arc.getContractName]. *)
Definition getContractName (address : string) : Result (option string) :=
  _ ← isAddress (Str address);
  match contractAddresses with
  | None => Threw (mkError "Cannot convert undefined or null to object")
  | Some addresses =>
      Returned
        (fst <$> List.find
           (fun kv => String.eqb (toLowerCase (snd kv)) (toLowerCase address))
           addresses)
  end.

(** The chain of [if]/[else if] that derives the proposal type from the
    sub-record that is present. *)
Definition proposalType (item : Item) : Result IProposalType :=
  match item_contributionReward item with
  | Some _ => Returned ContributionReward
  | None =>
    match item_genericScheme item with
    | Some _ => Returned GenericScheme
    | None =>
      match item_schemeRegistrar item with
      | Some sr =>
        if truthy (sr_schemeToRegister sr) then
          let toRegister := default "" (sr_schemeToRegister sr) in
          if existsb (String.eqb (toLowerCase toRegister))
                     (List.map toLowerCase (item_dao_schemes item))
          then Returned SchemeRegistrarEdit
          else Returned SchemeRegistrarAdd
        else if truthy (sr_schemeToRemove sr)
        then Returned SchemeRegistrarRemove
        else Threw (mkError
          "Unknown proposal type: schemeRegistrar without a scheme to register or to remove")
      | None => Threw (mkError "Unknown proposal type")
      end
    end
  end.

(** [upstakeNeededToPreBoost]: zero unless the stage is [Queued].  The
    operands are built in the order of the method chain. *)
Definition upstake (stage : StageValue) (threshold : Q) (stakesFor stakesAgainst : Z)
  : Result Z :=
  if stage_is stage Queued then
    scaled ← BN.new_BN (threshold * PRECISION)%Q;
    precision ← BN.new_BN PRECISION;
    q ← BN.div (BN.mul scaled stakesAgainst) precision;
    Returned (BN.sub q stakesFor)
  else Returned 0.

(** [downStakeNeededToQueue]: zero unless the stage is [PreBoosted]. *)
Definition downstake (stage : StageValue) (threshold : Q) (stakesFor stakesAgainst : Z)
  : Result Z :=
  if stage_is stage PreBoosted then
    precision ← BN.new_BN PRECISION;
    scaled ← BN.new_BN (threshold * PRECISION)%Q;
    q ← BN.div (BN.mul stakesFor precision) scaled;
    Returned (BN.sub q stakesAgainst)
  else Returned 0.

(** [scheme.name || this.context.getContractName(scheme.address)]. *)
Definition schemeName (item : Item) : Result (option string) :=
  if truthy (item_scheme_name item) then Returned (item_scheme_name item)
  else getContractName (item_scheme_address item).

(** [itemMap] of [Proposal.state]. *)
Definition itemMap (item : option Item) : Result (option IProposalState) :=
  match item with
  | None => Returned None
  | Some item =>
    ty ← proposalType item;
    let stage := IProposalStage_at (item_stage item) in
    threshold ← realMathToNumber (item_gpQueue_threshold item);
    let stakesFor := item_stakesFor item in
    let stakesAgainst := item_stakesAgainst item in
    up ← upstake stage threshold stakesFor stakesAgainst;
    down ← downstake stage threshold stakesFor stakesAgainst;
    thresholdConst ← realMathToNumber (item_thresholdConst item);
    name ← schemeName item;
    Returned (Some {|
      contributionReward := item_contributionReward item;
      genericScheme :=
        match item_contributionReward item with
        | Some _ => None
        | None => item_genericScheme item
        end;
      schemeRegistrar :=
        match item_contributionReward item, item_genericScheme item with
        | None, None => item_schemeRegistrar item
        | _, _ => None
        end;
      type := ty;
      stage := stage;
      stakesFor := stakesFor;
      stakesAgainst := stakesAgainst;
      queue_threshold := threshold;
      thresholdConst := thresholdConst;
      scheme_name := name;
      upstakeNeededToPreBoost := up;
      downStakeNeededToQueue := down
    |})
  end.

(** The inputs on which [itemMap] reaches its [return] statement as far
    as the proposal type and the scheme name are concerned. *)
Definition recognised (item : Item) : Prop :=
  returns (proposalType item) /\ returns (schemeName item).

(** [realMathToNumber] decodes the threshold of [item] to [t] and decodes
    its threshold constant. *)
Definition decoded (item : Item) (t : Q) : Prop :=
  realMathToNumber (item_gpQueue_threshold item) = Returned t
  /\ returns (realMathToNumber (item_thresholdConst item)).

End WithContext.

(** A contribution-reward proposal of a scheme whose name the index knows,
    used to evaluate [itemMap]. *)
Definition sample_item (stage : string) (threshold stakesFor stakesAgainst : Z) : Item := {|
  item_contributionReward := Some {|
    cr_beneficiary := "0xbeneficiary";
    cr_ethReward := 0;
    cr_externalToken := "0xtoken";
    cr_externalTokenReward := 0;
    cr_nativeTokenReward := 0;
    cr_periodLength := 0;
    cr_periods := 1;
    cr_reputationReward := 10
  |};
  item_genericScheme := None;
  item_schemeRegistrar := None;
  item_dao_schemes := [];
  item_stage := stage;
  item_gpQueue_threshold := threshold;
  item_stakesFor := stakesFor;
  item_stakesAgainst := stakesAgainst;
  item_thresholdConst := 2 ^ 41;
  item_scheme_name := Some "ContributionReward"%string;
  item_scheme_address := "0xscheme"
|}.

(** An [isAddress] that accepts every value. *)
Definition isAddress_accept (v : Value) : Result unit := Returned tt.

End ProposalState.

(** ** The [Token] constructor *)

Module TokenClass.
Import Js.

Record Token := { address : Value }.

Section WithUtils.

(** [isAddress] of [utils.ts]: it returns or throws; its result, if any,
    is discarded by the constructor. *)
Variable isAddress : Value -> Result unit.

(** [new Token(address, context)]. *)
Definition new_Token (address : Value) : Result Token :=
  if falsy address
  then Threw (mkError "No address provided - cannot create Token instance")
  else
    _ ← isAddress address;
    Returned {| address := address |}.

End WithUtils.

End TokenClass.

(** ** [Proposal.vote], [Proposal.stake], [Proposal.execute]:
       receipt mappers and error handlers *)

Module ProposalWrite.
Import Js.
Local Open Scope Z_scope.

Inductive IProposalOutcome := OutcomeNone | Pass | Fail.

(** A mined receipt: [receipt.events] maps an event name to the event,
    whose [returnValues] map names to values.  Both objects are kept as
    association lists in property order. *)
Record EventLog := { returnValues : list (string * string) }.
Record Receipt := { events : list (string * EventLog) }.

(** Property read [obj[name]], [None] for [undefined]. *)
Fixpoint prop {A : Type} (name : string) (obj : list (string * A)) : option A :=
  match obj with
  | [] => None
  | (k, v) :: obj' => if String.eqb k name then Some v else prop name obj'
  end.

(** [Object.keys(obj)]. *)
Definition keys {A : Type} (obj : list (string * A)) : list string :=
  List.map fst obj.

(** The class [Stake] of [stake.ts]; its constructor only stores its
    arguments. *)
Record Stake := {
  stake_id : option string;
  stake_staker : option string;
  stake_createdAt : option Z;
  stake_outcome : IProposalOutcome;
  stake_amount : option string;
  stake_proposalId : string
}.

(** What [votingMachine.methods.proposals(id).call()] resolves to. *)
Record ProposalData := {
  proposer : string;
  state : string;
  callbacks : string
}.

Record Proposal := {
  id : string;
  votingMachineAddress : option string
}.

Section WithChain.

(** The constant [NULL_ADDRESS] and [isAddress] of [utils.ts]. *)
Variable NULL_ADDRESS : string.
Variable isAddress : Value -> Result unit.

(** The external reads a handler awaits; a rejected promise is a
    [Threw].  [GEN_address] is the value of
    [this.context.getContract('GEN').options.address]. *)
Variable GEN_address : Result Value.
Variable proposals : string -> Result ProposalData.
Variable getAccount : Result string.
Variable balanceOf : string -> Result Z.
Variable allowance : string -> string -> Result Z.

Variable this : Proposal.

(** [Proposal.votingMachine]: the contract handle is identified with its
    address. *)
Definition votingMachine : Result string :=
  if negb (truthy (votingMachineAddress this))
  then Threw (mkError "No votingmachine address known for this proposal")
  else Returned (default "" (votingMachineAddress this)).

(** [Proposal.stakingToken]. *)
Definition stakingToken : Result TokenClass.Token :=
  a ← GEN_address;
  TokenClass.new_Token isAddress a.

(** [map] of [Proposal.stake]. *)
Definition stake_map (outcome : IProposalOutcome) (receipt : Receipt) : Result Stake :=
  match prop "Stake" (events receipt) with
  | None =>
      Threw (mkError ("Error staking: no " +:+ dquote +:+ "Stake" +:+ dquote
                      +:+ " event was found - "
                      +:+ join "," (keys (events receipt))))
  | Some event =>
      Returned {|
        stake_id := None;
        stake_staker := prop "_staker" (returnValues event);
        stake_createdAt := None;
        stake_outcome := outcome;
        stake_amount := prop "_reputation" (returnValues event);
        stake_proposalId := id this
      |}
  end.

(** [map] of [Proposal.execute]. *)
Definition execute_map (receipt : Receipt) : Result Receipt :=
  if Nat.eqb (length (keys (events receipt))) 0
  then Returned receipt
  else Returned receipt.

Definition newline : string := String (ascii_of_nat 10) EmptyString.

(** [errorHandler] of [Proposal.stake]. *)
Definition stake_errorHandler (amount : Z) (error : Error) : Result Error :=
  if includes "revert" (message error) then
    stakingToken ← stakingToken;
    vm ← votingMachine;
    prop ← proposals (id this);
    if String.eqb (proposer prop) NULL_ADDRESS then
      Returned (mkError ("Unknown proposal with id " +:+ id this))
    else
      defaultAccount ← getAccount;
      balance ← balanceOf defaultAccount;
      let amountBN := amount in
      if BN.lt balance amountBN then
        Returned (mkError
          ("Staker " +:+ defaultAccount +:+ " has insufficient balance to stake "
           +:+ Z_toString amount +:+ newline
           +:+ "            (balance is " +:+ Z_toString balance +:+ ")"))
      else
        vm' ← votingMachine;
        allowance ← allowance defaultAccount vm';
        if BN.lt allowance amountBN then
          Returned (mkError
            ("Staker has insufficient allowance to stake "
             +:+ Z_toString amount +:+ newline
             +:+ "            (allowance is " +:+ Z_toString allowance +:+ ")"))
        else Returned error
  else Returned error.

(** [errorHandler] of [Proposal.vote]; the voting machine was obtained by
    [vote] before the handler was built. *)
Definition vote_errorHandler (error : Error) : Result Error :=
  if includes "revert" (message error) then
    proposalDataFromVotingMachine ← proposals (id this);
    if String.eqb (proposer proposalDataFromVotingMachine) NULL_ADDRESS then
      Returned (mkError ("Error in vote(): unknown proposal with id " +:+ id this))
    else if String.eqb (state proposalDataFromVotingMachine) "2" then
      Returned (mkError ("Error in vote(): proposal " +:+ id this
                         +:+ " already executed"))
    else Returned error
  else Returned error.

End WithChain.

(** A chain on which the proposal is unknown to the voting machine and the
    staker holds and has approved nothing, used to evaluate the handlers. *)
Definition sample_NULL_ADDRESS : string := "0x0000000000000000000000000000000000000000".

Definition sample_proposal : Proposal :=
  {| id := "0xproposal"; votingMachineAddress := Some "0xmachine"%string |}.

Definition sample_unknown (i : string) : Result ProposalData :=
  Returned {| proposer := sample_NULL_ADDRESS; state := "0";
              callbacks := sample_NULL_ADDRESS |}.

Definition sample_revert : Error :=
  mkError "Returned error: VM Exception while processing transaction: revert".

Definition sample_receipt : Receipt :=
  {| events := [("Transfer"%string, {| returnValues := [] |})] |}.

End ProposalWrite.

(** ** [Arc.ethBalance]: the balance multiplexer

    The method is event driven.  Its state is the pair of fields
    [observedAccounts] and [blockHeaderSubscription] of the [Arc] object; the
    closures it creates run when an observable is subscribed to, when a
    [getBalance] promise fulfils, when the block-header feed calls back and
    when a subscription is cancelled.  Each of these is an [Event] of the
    model and [step] runs the corresponding closure to completion, which is
    how a single-threaded JavaScript engine schedules them.

    The entries of [observedAccounts] are objects that closures keep
    references to, so they live in a store ([objects]) and the registry maps
    an address to a location of that store.

    From [rxjs] the model takes what the source relies on:
    - [Observable.create(f)] is cold: every [subscribe] runs [f] with a new
      subscriber and keeps the function [f] returns as its teardown;
    - a subscriber that was unsubscribed or has received an error ignores
      later notifications;
    - [observer.error(e)] delivers [e] and then unsubscribes the subscriber,
      which runs its teardown;
    - an exception thrown by [f] is delivered to the subscriber as an error.
    Listener callbacks are taken not to call back into [Arc]. *)

Module ArcBalance.
Local Open Scope Z_scope.

(** An [Address] is the text of an account address, [0x] followed by
    hexadecimal digits.  No member of [Object.prototype] has such a name, so
    a read [this.observedAccounts[owner]] is decided by the own properties
    of the registry. *)
Abbreviation Address := string.
Abbreviation Loc := nat.
Abbreviation SubscriberId := nat.

(** An entry of [observedAccounts].  [observable] records whether the field
    of that name has been assigned. *)
Record AccInfo := {
  observable : bool;
  observer : option SubscriberId;
  lastBalance : option Z;
  subscriptionsCount : Z
}.

Inductive Notification :=
| Next (balance : Z)
| Error (err : string).

(** A subscriber of the observable built for [sub_owner], with what its
    listener has been handed so far. *)
Record Subscriber := {
  sub_owner : Address;
  sub_closed : bool;
  sub_received : list Notification
}.

(** An outstanding [getBalance] promise with the closure waiting on it: the
    seed read of a subscription looks the entry up by address when it
    fulfils, the read of a tick holds the entry it was issued for. *)
Inductive Read :=
| SeedRead (owner : Address)
| TickRead (addr : Address) (accInfo : option Loc).

(** [liveFeeds] counts the block-header subscriptions obtained from
    [web3.eth.subscribe] and not yet unsubscribed. *)
Record Arc := {
  observedAccounts : list (Address * Loc);
  objects : list AccInfo;
  blockHeaderSubscription : bool;
  liveFeeds : nat;
  subscribers : list Subscriber;
  reads : list Read
}.

Definition init : Arc := {|
  observedAccounts := [];
  objects := [];
  blockHeaderSubscription := false;
  liveFeeds := 0;
  subscribers := [];
  reads := []
|}.

(** [this.observedAccounts[owner]]. *)
Fixpoint account (owner : Address) (reg : list (Address * Loc)) : option Loc :=
  match reg with
  | [] => None
  | (k, l) :: reg' => if String.eqb k owner then Some l else account owner reg'
  end.

(** [delete this.observedAccounts[owner]]. *)
Definition delete_account (owner : Address) (reg : list (Address * Loc))
  : list (Address * Loc) :=
  List.filter (fun kl => negb (String.eqb (fst kl) owner)) reg.

Definition entry (owner : Address) (a : Arc) : option (Loc * AccInfo) :=
  l ← account owner (observedAccounts a);
  info ← objects a !! l;
  Some (l, info).

Definition set_object (l : Loc) (info : AccInfo) (a : Arc) : Arc :=
  {| observedAccounts := observedAccounts a;
     objects := <[l := info]> (objects a);
     blockHeaderSubscription := blockHeaderSubscription a;
     liveFeeds := liveFeeds a;
     subscribers := subscribers a;
     reads := reads a |}.

Definition set_subscribers (subs : list Subscriber) (a : Arc) : Arc :=
  {| observedAccounts := observedAccounts a;
     objects := objects a;
     blockHeaderSubscription := blockHeaderSubscription a;
     liveFeeds := liveFeeds a;
     subscribers := subs;
     reads := reads a |}.

Definition set_reads (rs : list Read) (a : Arc) : Arc :=
  {| observedAccounts := observedAccounts a;
     objects := objects a;
     blockHeaderSubscription := blockHeaderSubscription a;
     liveFeeds := liveFeeds a;
     subscribers := subscribers a;
     reads := rs |}.

(** The synchronous part of [ethBalance(owner)], up to the [return]. *)
Definition ethBalance (owner : Address) (a : Arc) : Arc :=
  let a1 :=
    match account owner (observedAccounts a) with
    | Some _ => a
    | None =>
        {| observedAccounts := observedAccounts a ++ [(owner, length (objects a))];
           objects := objects a ++ [{| observable := false; observer := None;
                                       lastBalance := None;
                                       subscriptionsCount := 1 |}];
           blockHeaderSubscription := blockHeaderSubscription a;
           liveFeeds := liveFeeds a;
           subscribers := subscribers a;
           reads := reads a |}
    end in
  match entry owner a1 with
  | Some (l, info) =>
      if observable info then
        set_object l {| observable := true; observer := observer info;
                        lastBalance := lastBalance info;
                        subscriptionsCount := subscriptionsCount info + 1 |} a1
      else
        set_object l {| observable := true; observer := observer info;
                        lastBalance := lastBalance info;
                        subscriptionsCount := subscriptionsCount info |} a1
  | None => a1
  end.

(** The function passed to [Observable.create], run for a new subscriber.
    When the registry has no entry for [owner] the first assignment throws
    a [TypeError], which [rxjs] hands to the subscriber. *)
Definition subscribe (owner : Address) (a : Arc) : Arc :=
  let s := length (subscribers a) in
  match entry owner a with
  | None =>
      set_subscribers
        (subscribers a ++ [{| sub_owner := owner; sub_closed := true;
                              sub_received := [Error "TypeError"] |}]) a
  | Some (l, info) =>
      {| observedAccounts := observedAccounts a;
         objects := <[l := {| observable := observable info; observer := Some s;
                              lastBalance := lastBalance info;
                              subscriptionsCount := subscriptionsCount info |}]>
                      (objects a);
         blockHeaderSubscription := true;
         liveFeeds := if blockHeaderSubscription a then liveFeeds a
                      else S (liveFeeds a);
         subscribers := subscribers a ++ [{| sub_owner := owner; sub_closed := false;
                                             sub_received := [] |}];
         reads := reads a ++ [SeedRead owner] |}
  end.

(** The teardown returned by that function.  Without an entry for [owner]
    its first statement throws and nothing else runs. *)
Definition teardown (owner : Address) (a : Arc) : Arc :=
  match entry owner a with
  | None => a
  | Some (l, info) =>
      let count := subscriptionsCount info - 1 in
      let objs := <[l := {| observable := observable info; observer := observer info;
                            lastBalance := lastBalance info;
                            subscriptionsCount := count |}]> (objects a) in
      let reg := if Z.leb count 0
                 then delete_account owner (observedAccounts a)
                 else observedAccounts a in
      let stop := (Nat.eqb (length reg) 0 && blockHeaderSubscription a)%bool in
      {| observedAccounts := reg;
         objects := objs;
         blockHeaderSubscription := if stop then false else blockHeaderSubscription a;
         liveFeeds := if stop then Nat.pred (liveFeeds a) else liveFeeds a;
         subscribers := subscribers a;
         reads := reads a |}
  end.

Definition close (s : SubscriberId) (sub : Subscriber) (a : Arc) : Arc :=
  set_subscribers
    (<[s := {| sub_owner := sub_owner sub; sub_closed := true;
               sub_received := sub_received sub |}]> (subscribers a)) a.

Definition hand (s : SubscriberId) (sub : Subscriber) (n : Notification) (a : Arc) : Arc :=
  set_subscribers
    (<[s := {| sub_owner := sub_owner sub; sub_closed := sub_closed sub;
               sub_received := sub_received sub ++ [n] |}]> (subscribers a)) a.

(** [subscription.unsubscribe()]. *)
Definition unsubscribe (s : SubscriberId) (a : Arc) : Arc :=
  match subscribers a !! s with
  | Some sub =>
      if sub_closed sub then a
      else teardown (sub_owner sub) (close s sub a)
  | None => a
  end.

(** [observer.next(balance)]. *)
Definition observer_next (s : SubscriberId) (balance : Z) (a : Arc) : Arc :=
  match subscribers a !! s with
  | Some sub => if sub_closed sub then a else hand s sub (Next balance) a
  | None => a
  end.

(** [observer.error(err)]: the listener is handed the error, the
    subscriber is closed and its teardown runs. *)
Definition observer_error (s : SubscriberId) (err : string) (a : Arc) : Arc :=
  match subscribers a !! s with
  | Some sub =>
      if sub_closed sub then a
      else
        teardown (sub_owner sub)
          (set_subscribers
             (<[s := {| sub_owner := sub_owner sub; sub_closed := true;
                        sub_received := sub_received sub ++ [Error err] |}]>
                (subscribers a)) a)
  | None => a
  end.

Definition set_lastBalance (l : Loc) (balance : Z) (a : Arc) : Arc :=
  match objects a !! l with
  | Some info =>
      set_object l {| observable := observable info; observer := observer info;
                      lastBalance := Some balance;
                      subscriptionsCount := subscriptionsCount info |} a
  | None => a
  end.

(** [balance !== accInfo.lastBalance]; an unset [lastBalance] differs from
    every balance. *)
Definition differs (balance : Z) (last : option Z) : bool :=
  match last with
  | Some b => negb (Z.eqb balance b)
  | None => true
  end.

(** The [then] callback of the seed read.  A missing entry or a missing
    observer makes the callback throw before it changes anything. *)
Definition seed_fulfilled (owner : Address) (currentBalance : Z) (a : Arc) : Arc :=
  match entry owner a with
  | Some (l, info) =>
      match observer info with
      | Some s => set_lastBalance l currentBalance (observer_next s currentBalance a)
      | None => a
      end
  | None => a
  end.

(** The [then] callback of a read issued by a tick. *)
Definition tick_fulfilled (accInfo : option Loc) (balance : Z) (a : Arc) : Arc :=
  match accInfo with
  | Some l =>
      match objects a !! l with
      | Some info =>
          if differs balance (lastBalance info) then
            match observer info with
            | Some s => set_lastBalance l balance (observer_next s balance a)
            | None => a
            end
          else a
      | None => a
      end
  | None => a
  end.

(** The [i]-th outstanding promise fulfils with [balance]. *)
Definition fulfil (i : nat) (balance : Z) (a : Arc) : Arc :=
  match reads a !! i with
  | Some r =>
      let a1 := set_reads (List.firstn i (reads a) ++ List.skipn (S i) (reads a)) a in
      match r with
      | SeedRead owner => seed_fulfilled owner balance a1
      | TickRead _ accInfo => tick_fulfilled accInfo balance a1
      end
  | None => a
  end.

(** The body of the [forEach] in the feed callback when [err] is unset:
    one [getBalance] per key. *)
Fixpoint tick_reads (keys : list Address) (a : Arc) : Arc :=
  match keys with
  | [] => a
  | addr :: keys' =>
      tick_reads keys'
        (set_reads (reads a ++ [TickRead addr (account addr (observedAccounts a))]) a)
  end.

(** The body of the [forEach] when [err] is set.  Reading [observer] of a
    missing entry, or calling [error] on a missing observer, throws and
    ends the iteration. *)
Fixpoint tick_errors (err : string) (keys : list Address) (a : Arc) : Arc :=
  match keys with
  | [] => a
  | addr :: keys' =>
      match entry addr a with
      | Some (_, info) =>
          match observer info with
          | Some s => tick_errors err keys' (observer_error s err a)
          | None => a
          end
      | None => a
      end
  end.

(** The callback given to [web3.eth.subscribe('newBlockHeaders', ...)].
    It can only be called while the feed it belongs to is subscribed. *)
Definition newBlockHeaders (err : option string) (a : Arc) : Arc :=
  if blockHeaderSubscription a then
    let keys := List.map fst (observedAccounts a) in
    match err with
    | Some e => tick_errors e keys a
    | None => tick_reads keys a
    end
  else a.

Inductive Event :=
| CallEthBalance (owner : Address)
| Subscribe (owner : Address)
| Unsubscribe (s : SubscriberId)
| Fulfil (i : nat) (balance : Z)
| NewBlockHeaders (err : option string).

Definition step (a : Arc) (e : Event) : Arc :=
  match e with
  | CallEthBalance owner => ethBalance owner a
  | Subscribe owner => subscribe owner a
  | Unsubscribe s => unsubscribe s a
  | Fulfil i balance => fulfil i balance a
  | NewBlockHeaders err => newBlockHeaders err a
  end.

Definition run (es : list Event) (a : Arc) : Arc := fold_left step es a.

(** [observe(key)] of the specification: obtain the observable and
    subscribe to it.  The handle is the new subscriber. *)
Definition observe (k : Address) (a : Arc) : Arc :=
  subscribe k (ethBalance k a).

Definition received (s : SubscriberId) (a : Arc) : list Notification :=
  match subscribers a !! s with
  | Some sub => sub_received sub
  | None => []
  end.

(** [cancel(handle)] for each handle of a list, in order. *)
Definition cancel_all (handles : list SubscriberId) (a : Arc) : Arc :=
  fold_left (fun a' s => unsubscribe s a') handles a.

(** [n] calls of [observe(k)]. *)
Definition observe_times (n : nat) (k : Address) (a : Arc) : Arc :=
  Nat.iter n (observe k) a.

(** A tick of the feed whose read fulfils with [balance] before anything
    else happens; [ticks] chains such ticks.  The read of the tick is found
    after the [pending] reads that were outstanding before it. *)
Definition tick (pending : nat) (balance : Z) : list Event :=
  [NewBlockHeaders None; Fulfil pending balance].

Definition ticks (pending : nat) (balances : list Z) : list Event :=
  flat_map (tick pending) balances.

(** The balances of a sequence of reads that differ from the balance read
    before them, starting from the stored [last]. *)
Fixpoint changes (last : option Z) (balances : list Z) : list Z :=
  match balances with
  | [] => []
  | b :: balances' =>
      if differs b last then b :: changes (Some b) balances'
      else changes last balances'
  end.

(** The accounting of feeds: the field [blockHeaderSubscription] refers to
    the only live feed, and a feed is only live while some account is
    observed. *)
Definition feed_inv (a : Arc) : Prop :=
  liveFeeds a = (if blockHeaderSubscription a then 1 else 0)%nat
  /\ (blockHeaderSubscription a = true -> observedAccounts a <> []).

(** The entry of [k] lives at [l], has its observable and counts [c]
    subscriptions. *)
Definition tracked (k : Address) (l : Loc) (c : Z) (a : Arc) : Prop :=
  account k (observedAccounts a) = Some l
  /\ exists info, objects a !! l = Some info
               /\ observable info = true
               /\ subscriptionsCount info = c.

(** [s] is a subscriber of the observable of [k] that has not been closed. *)
Definition listening (k : Address) (s : SubscriberId) (a : Arc) : Prop :=
  exists sub, subscribers a !! s = Some sub
              /\ sub_owner sub = k /\ sub_closed sub = false.

(** Every location the registry names holds an object. *)
Definition registry_wf (a : Arc) : Prop :=
  forall k l, account k (observedAccounts a) = Some l -> (l < length (objects a))%nat.

(** No entry object names [s] as its observer. *)
Definition unobserved (s : SubscriberId) (a : Arc) : Prop :=
  forall l info, objects a !! l = Some info -> observer info <> Some s.

(** The listener of [s] has been handed [r], and [s] is closed or is the
    observer of no entry. *)
Definition muted (s : SubscriberId) (r : list Notification) (a : Arc) : Prop :=
  exists sub, subscribers a !! s = Some sub
              /\ sub_received sub = r
              /\ (sub_closed sub = true \/ unobserved s a).

(** The entry [kl] of the registry counts one subscription and hands its
    notifications to the open subscriber [s] of its key, whose state is
    [sub]. *)
Definition one_listener (a : Arc) (kl : Address * Loc) (s : SubscriberId) (sub : Subscriber)
  : Prop :=
  exists info, objects a !! snd kl = Some info
               /\ subscriptionsCount info <= 1
               /\ observer info = Some s
               /\ subscribers a !! s = Some sub
               /\ sub_owner sub = fst kl
               /\ sub_closed sub = false.

(** The subscriber a [subscribe] starts with. *)
Definition fresh_subscriber (k : Address) : Subscriber :=
  {| sub_owner := k; sub_closed := false; sub_received := [] |}.

(** [k] is the only observed key, its entry at [l] holds [last] and hands
    its notifications to the listening subscriber [s]; the feed runs. *)
Definition sole (k : Address) (l : Loc) (s : SubscriberId) (last : option Z) (a : Arc)
  : Prop :=
  observedAccounts a = [(k, l)]
  /\ blockHeaderSubscription a = true
  /\ (exists info, objects a !! l = Some info
                   /\ observer info = Some s /\ lastBalance info = last)
  /\ listening k s a.

(** The balance stored after a sequence of reads. *)
Definition last_read (last : option Z) (balances : list Z) : option Z :=
  fold_left (fun _ b => Some b) balances last.

(** Two listeners of one key: each obtains the observable with [ethBalance],
    subscribes, and has its seed read fulfil with the balance [3]. *)
Definition two_listeners (k : Address) : Arc :=
  run [CallEthBalance k; Subscribe k; Fulfil 0 3;
       CallEthBalance k; Subscribe k; Fulfil 0 3] init.

(** Two keys with one listener each, seeded with [3] and [4]. *)
Definition two_keys (k k' : Address) : Arc :=
  run [CallEthBalance k; Subscribe k; Fulfil 0 3;
       CallEthBalance k'; Subscribe k'; Fulfil 0 4] init.

End ArcBalance.

(** ** [Arc.getContract], [Arc.GENToken] and [Token.approveForStaking] *)

Module ArcContracts.
Import Js.

(** A [web3.eth.Contract]: the build artifact its ABI was read from and the
    address it was created for. *)
Record Contract := { abi : string; options_address : string }.

(** The fields of [Arc] read and written by [getContract].  Both objects are
    kept by their own properties, in property order; [contractAddresses] is
    [None] when the context was built without addresses. *)
Record Arc := {
  contractAddresses : option (list (string * string));
  contracts : list (string * Contract)
}.

(** The properties an object literal inherits from [Object.prototype]: the
    field [contracts] starts as [{}], so a read [this.contracts[name]] that
    finds no own property finds these.  Each of them is a function, or the
    prototype itself for [__proto__], and so is truthy. *)
Definition Object_prototype : list string :=
  ["constructor"; "hasOwnProperty"; "isPrototypeOf"; "propertyIsEnumerable";
   "toLocaleString"; "toString"; "valueOf"; "__defineGetter__"; "__defineSetter__";
   "__lookupGetter__"; "__lookupSetter__"; "__proto__"]%string.

(** What [this.contracts[name]] evaluates to when it is not [undefined]: a
    contract the cache holds, or a member it inherits. *)
Inductive Cached :=
| Held (contract : Contract)
| Inherited (member : string).

(** [this.contracts[name]]. *)
Definition cached (name : string) (contracts : list (string * Contract)) : option Cached :=
  match ProposalWrite.prop name contracts with
  | Some contract => Some (Held contract)
  | None =>
      if existsb (String.eqb name) Object_prototype then Some (Inherited name) else None
  end.

(** [found.methods] and [found.options] of a value [getContract] returned:
    an inherited member has neither property, and reading a property of
    [undefined] throws. *)
Definition as_contract (found : Cached) : Result Contract :=
  match found with
  | Held contract => Returned contract
  | Inherited _ => Threw (mkError "Cannot read property of undefined")
  end.

(** [obj[name] = value]: an existing property keeps its place. *)
Fixpoint set_prop {A : Type} (name : string) (value : A) (obj : list (string * A))
  : list (string * A) :=
  match obj with
  | [] => [(name, value)]
  | (k, v) :: obj' =>
      if String.eqb k name then (k, value) :: obj'
      else (k, v) :: set_prop name value obj'
  end.

(** The artifact required by each [case] of the [switch]; [None] is the
    [default] branch. *)
Definition artifact (name : string) : option string :=
  if String.eqb name "AbsoluteVote" then Some "AbsoluteVote.json"%string
  else if String.eqb name "ContributionReward" then Some "ContributionReward.json"%string
  else if String.eqb name "GEN" then Some "DAOToken.json"%string
  else if String.eqb name "GenericScheme" then Some "GenericScheme.json"%string
  else if String.eqb name "Redeemer" then Some "Redeemer.json"%string
  else if String.eqb name "SchemeRegistrar" then Some "SchemeRegistrar.json"%string
  else None.

(** [Arc.getContract]: the result and the context it leaves. *)
Definition getContract (name : string) (this : Arc) : Result Cached * Arc :=
  match cached name (contracts this) with
  | Some found => (Returned found, this)
  | None =>
      match contractAddresses this with
      | None => (Threw (mkError "Cannot get contract: no contractAddress set"), this)
      | Some addresses =>
          if negb (truthy (ProposalWrite.prop name addresses)) then
            (Threw (mkError ("No contract named " +:+ name
                             +:+ " could be found in the provided contract addresses")),
             this)
          else
            match artifact name with
            | Some json =>
                let contract :=
                  {| abi := json;
                     options_address := default "" (ProposalWrite.prop name addresses) |} in
                (Returned (Held contract),
                 {| contractAddresses := contractAddresses this;
                    contracts := set_prop name contract (contracts this) |})
            | None => (Threw (mkError ("Unknown contract: " +:+ name)), this)
            end
      end
  end.

(** A transaction built from a contract method, before it is sent. *)
Record Transaction := {
  tx_contract : Contract;
  tx_method : string;
  tx_arguments : list string
}.

Section WithUtils.

Variable isAddress : Value -> Result unit.

(** [Arc.GENToken]; a missing [GEN] entry reaches the constructor as
    [undefined]. *)
Definition GENToken (this : Arc) : Result TokenClass.Token :=
  match contractAddresses this with
  | Some addresses =>
      TokenClass.new_Token isAddress
        match ProposalWrite.prop "GEN" addresses with
        | Some a => Str a
        | None => Undefined
        end
  | None =>
      Threw (mkError "Cannot get GEN Token because no contract addresses were provided")
  end.

End WithUtils.

(** [Token.contract]. *)
Definition Token_contract (address : string) : Contract :=
  {| abi := "DAOToken.json"; options_address := address |}.

(** [Token.approveForStaking], up to the transaction it hands to
    [sendTransaction]. *)
Definition approveForStaking (address : string) (amount : Z) (context : Arc)
  : Result Transaction * Arc :=
  let stakingToken := Token_contract address in
  match getContract "GenesisProtocol" context with
  | (Returned found, context') =>
      (genesisProtocol ← as_contract found;
       Returned {| tx_contract := stakingToken;
                   tx_method := "approve";
                   tx_arguments := [options_address genesisProtocol; Z_toString amount] |},
       context')
  | (Threw e, context') => (Threw e, context')
  end.

(** A context with the addresses of a deployment and an empty cache. *)
Definition sample_context : Arc :=
  {| contractAddresses :=
       Some [("GEN"%string, "0xgen"%string);
             ("GenesisProtocol"%string, "0xgenesis"%string);
             ("Redeemer"%string, "0xredeemer"%string)];
     contracts := [] |}.

End ArcContracts.

(** ** Letter case of addresses in [Proposal.state] *)

Module ProposalStateCase.
Import Js ProposalState.

(** The same query result with the addresses that decide between
    [SchemeRegistrarAdd] and [SchemeRegistrarEdit] written in lower case. *)
Definition lowercased (item : Item) : Item := {|
  item_contributionReward := item_contributionReward item;
  item_genericScheme := item_genericScheme item;
  item_schemeRegistrar :=
    match item_schemeRegistrar item with
    | Some sr => Some {|
        sr_decision := sr_decision sr;
        sr_id := sr_id sr;
        sr_schemeRegistered := sr_schemeRegistered sr;
        sr_schemeRemoved := sr_schemeRemoved sr;
        sr_schemeToRegister := toLowerCase <$> sr_schemeToRegister sr;
        sr_schemeToRegisterParamsHash := sr_schemeToRegisterParamsHash sr;
        sr_schemeToRegisterPermission := sr_schemeToRegisterPermission sr;
        sr_schemeToRemove := sr_schemeToRemove sr
      |}
    | None => None
    end;
  item_dao_schemes := List.map toLowerCase (item_dao_schemes item);
  item_stage := item_stage item;
  item_gpQueue_threshold := item_gpQueue_threshold item;
  item_stakesFor := item_stakesFor item;
  item_stakesAgainst := item_stakesAgainst item;
  item_thresholdConst := item_thresholdConst item;
  item_scheme_name := item_scheme_name item;
  item_scheme_address := item_scheme_address item
|}.

(** A scheme-registrar proposal that registers a scheme the DAO already
    has, with the two addresses in different letter case. *)
Definition sample_registrar_item : Item := {|
  item_contributionReward := None;
  item_genericScheme := None;
  item_schemeRegistrar := Some {|
    sr_decision := 0;
    sr_id := "0xregistrar";
    sr_schemeRegistered := false;
    sr_schemeRemoved := false;
    sr_schemeToRegister := Some "0xABCDEF"%string;
    sr_schemeToRegisterParamsHash := "0xparams";
    sr_schemeToRegisterPermission := "0x0000001f";
    sr_schemeToRemove := None
  |};
  item_dao_schemes := ["0x123456"; "0xabcDEF"]%string;
  item_stage := "Queued";
  item_gpQueue_threshold := 2 ^ 40;
  item_stakesFor := 0;
  item_stakesAgainst := 0;
  item_thresholdConst := 2 ^ 41;
  item_scheme_name := Some "SchemeRegistrar"%string;
  item_scheme_address := "0xscheme"
|}.

End ProposalStateCase.

(** ** [Proposal.create] and the error handler of [Proposal.execute] *)

Module ProposalCreate.
Import Js ArcContracts.
Local Open Scope Z_scope.

(** The value of [options.type]: one of the constants of [IProposalType], or
    anything else, kept by the text it prints as. *)
Inductive CreateType :=
| Known (t : ProposalState.IProposalType)
| Other (shown : string).

(** [IProposalCreateOptions]; an absent property is [None]. *)
Record IProposalCreateOptions := {
  beneficiary : option string;
  dao : option string;
  description : option string;
  descriptionHash : option string;
  callData : option string;
  nativeTokenReward : option Z;
  reputationReward : option Z;
  ethReward : option Z;
  externalTokenReward : option Z;
  externalTokenAddress : option string;
  periodLength : option Z;
  periods : option Z;
  parametersHash : option string;
  permissions : option string;
  scheme : option string;
  title : option string;
  type : CreateType;
  url : option string;
  value : option Z
}.

(** [options.descriptionHash = h]. *)
Definition set_descriptionHash (h : option string) (o : IProposalCreateOptions)
  : IProposalCreateOptions := {|
  beneficiary := beneficiary o;
  dao := dao o;
  description := description o;
  descriptionHash := h;
  callData := callData o;
  nativeTokenReward := nativeTokenReward o;
  reputationReward := reputationReward o;
  ethReward := ethReward o;
  externalTokenReward := externalTokenReward o;
  externalTokenAddress := externalTokenAddress o;
  periodLength := periodLength o;
  periods := periods o;
  parametersHash := parametersHash o;
  permissions := permissions o;
  scheme := scheme o;
  title := title o;
  type := type o;
  url := url o;
  value := value o
|}.

(** The object handed to [JSON.stringify] and saved on IPFS: the empty
    object [ipfsDataToSave] starts as, or the three texts. *)
Inductive IpfsData :=
| EmptyObject
| Texts (description title url : option string).

(** The fields of the context read by [create]: [ipfsProvider] by its
    truthiness, and the client [ipfs], whose [add] followed by [pin.add]
    yields the path of the saved file or fails. *)
Record Ipfs := {
  ipfsProvider : bool;
  ipfs : option (IpfsData -> Result string)
}.

Section WithContext.

Variable NULL_ADDRESS : string.
Variable storage : Ipfs.

(** [saveIPFSData].  The test [ipfsDataToSave !== {}] compares with a new
    object and always holds, so something is saved on every call. *)
Definition saveIPFSData (options : IProposalCreateOptions) : Result string :=
  ipfsDataToSave ←
    (if (truthy (title options) || truthy (url options)
         || truthy (description options))%bool
     then
       if negb (ipfsProvider storage)
       then Threw (mkError
              "No ipfsProvider set on Arc instance - cannot save data on IPFS")
       else if truthy (descriptionHash options)
       then Threw (mkError
              "Proposal.create() takes a descriptionHash, or values for title, url and description; not both")
       else Returned (Texts (description options) (title options) (url options))
     else Returned EmptyObject);
  match ipfs storage with
  | Some add => add ipfsDataToSave
  | None => Threw (mkError "Cannot read property 'add' of undefined")
  end.

(** [x && x.toString() || 0] for an optional [BN]. *)
Definition amount_or_zero (x : option Z) : string :=
  match x with
  | Some n => Z_toString n
  | None => "0"
  end.

(** [x || d] for an optional number. *)
Definition number_or (d : Z) (x : option Z) : string :=
  match x with
  | Some n => if Z.eqb n 0 then Z_toString d else Z_toString n
  | None => Z_toString d
  end.

(** [x || d] for an optional text. *)
Definition text_or (d : string) (x : option string) : string :=
  if truthy x then default "" x else d.

(** An argument that is passed as it is; [undefined] is shown by its name. *)
Definition shown (x : option string) : string := default "undefined" x.

Definition shown_number (x : option Z) : string :=
  match x with
  | Some n => Z_toString n
  | None => "undefined"
  end.

(** What [create] hands to [sendTransaction]: the name of the event its
    mapper reads, and the function that builds the transaction when the
    operation runs, from the context as it is then. *)
Record Operation := {
  eventName : string;
  createTransaction : Arc -> Result Transaction * Arc
}.

Definition with_saved (options : IProposalCreateOptions) (context : Arc)
    (build : string -> Result Transaction) : Result Transaction * Arc :=
  match saveIPFSData options with
  | Returned h => (build h, context)
  | Threw e => (Threw e, context)
  end.

(** [Proposal.create]: the context it leaves and the operation, if the
    options pass the checks it makes at once. *)
Definition create (options : IProposalCreateOptions) (context : Arc)
  : Result Operation * Arc :=
  if negb (truthy (dao options)) then
    (Threw (mkError ("Proposal.create(options): options must include an address for "
                     +:+ dquote +:+ "dao" +:+ dquote)), context)
  else
    match type options with
    | Known ProposalState.ContributionReward =>
        match getContract "ContributionReward" context with
        | (Returned found, context1) =>
            (Returned {|
               eventName := "NewContributionProposal";
               createTransaction := fun later =>
                 with_saved options later (fun h =>
                   contributionReward ← as_contract found;
                   Returned {|
                   tx_contract := contributionReward;
                   tx_method := "proposeContributionReward";
                   tx_arguments :=
                     [shown (dao options);
                      text_or "" (Some h);
                      amount_or_zero (reputationReward options);
                      amount_or_zero (nativeTokenReward options);
                      amount_or_zero (ethReward options);
                      amount_or_zero (externalTokenReward options);
                      number_or 0 (periodLength options);
                      number_or 1 (periods options);
                      text_or NULL_ADDRESS (externalTokenAddress options);
                      shown (beneficiary options)] |})
             |}, context1)
        | (Threw e, context1) => (Threw e, context1)
        end
    | Known ProposalState.GenericScheme =>
        if negb (truthy (callData options)) then
          (Threw (mkError ("Missing argument " +:+ dquote +:+ "callData" +:+ dquote
                           +:+ " for GenericScheme in Proposal.create()")), context)
        else
          match value options with
          | None =>
              (Threw (mkError ("Missing argument " +:+ dquote +:+ "value" +:+ dquote
                               +:+ " for GenericScheme in Proposal.create()")), context)
          | Some _ =>
              (Returned {|
                 eventName := "NewCallProposal";
                 createTransaction := fun later =>
                   match saveIPFSData options with
                   | Returned h =>
                       match getContract "GenericScheme" later with
                       | (Returned found, later1) =>
                           (genericScheme ← as_contract found;
                            Returned {|
                              tx_contract := genericScheme;
                              tx_method := "proposeCall";
                              tx_arguments :=
                                [shown (dao options); shown (callData options);
                                 shown_number (value options); h] |}, later1)
                       | (Threw e, later1) => (Threw e, later1)
                       end
                   | Threw e => (Threw e, later)
                   end
               |}, context)
          end
    | Known ProposalState.SchemeRegistrarAdd
    | Known ProposalState.SchemeRegistrarEdit =>
        if negb (truthy (scheme options)) then
          (Threw (mkError ("Missing argument " +:+ dquote +:+ "scheme" +:+ dquote
                           +:+ " for SchemeRegistrar in Proposal.create()")), context)
        else if negb (truthy (parametersHash options)) then
          (Threw (mkError ("Missing argument " +:+ dquote +:+ "parametersHash" +:+ dquote
                           +:+ " for SchemeRegistrar in Proposal.create()")), context)
        else if negb (truthy (permissions options)) then
          (Threw (mkError ("Missing argument " +:+ dquote +:+ "permissions" +:+ dquote
                           +:+ " for SchemeRegistrar in Proposal.create()")), context)
        else
          (Returned {|
             eventName := "NewSchemeProposal";
             createTransaction := fun later =>
               match getContract "SchemeRegistrar" later with
               | (Returned found, later1) =>
                   with_saved options later1 (fun h =>
                     schemeRegistrar ← as_contract found;
                     Returned {|
                     tx_contract := schemeRegistrar;
                     tx_method := "proposeScheme";
                     tx_arguments :=
                       [shown (dao options); shown (scheme options);
                        shown (parametersHash options); shown (permissions options);
                        h] |})
               | (Threw e, later1) => (Threw e, later1)
               end
           |}, context)
    | Known ProposalState.SchemeRegistrarRemove =>
        if negb (truthy (scheme options)) then
          (Threw (mkError ("Missing argument " +:+ dquote +:+ "scheme" +:+ dquote
                           +:+ " for SchemeRegistrar")), context)
        else
          (Returned {|
             eventName := "RemoveSchemeProposal";
             createTransaction := fun later =>
               match getContract "SchemeRegistrar" later with
               | (Returned found, later1) =>
                   with_saved options later1 (fun h =>
                     schemeRegistrar ← as_contract found;
                     Returned {|
                     tx_contract := schemeRegistrar;
                     tx_method := "proposeToRemoveScheme";
                     tx_arguments := [shown (dao options); shown (scheme options); h] |})
               | (Threw e, later1) => (Threw e, later1)
               end
           |}, context)
    | Other text =>
        (Threw (mkError ("Unknown proposal type: " +:+ dquote +:+ text +:+ dquote
                         +:+ " (did you use IProposalType.TypeOfProposal?)")), context)
    end.

(** The transaction that results from [create] when the operation runs on
    the context [create] left. *)
Definition created_transaction (options : IProposalCreateOptions) (context : Arc)
  : Result Transaction :=
  match create options context with
  | (Returned operation, context1) => fst (createTransaction operation context1)
  | (Threw e, _) => Threw e
  end.

End WithContext.

(** Options of a proposal to remove a scheme, with a description hash the
    caller computed. *)
Definition sample_options : IProposalCreateOptions := {|
  beneficiary := None;
  dao := Some "0xdao"%string;
  description := None;
  descriptionHash := Some "QmCaller"%string;
  callData := None;
  nativeTokenReward := None;
  reputationReward := None;
  ethReward := None;
  externalTokenReward := None;
  externalTokenAddress := None;
  periodLength := None;
  periods := None;
  parametersHash := None;
  permissions := None;
  scheme := Some "0xscheme"%string;
  title := None;
  type := Known ProposalState.SchemeRegistrarRemove;
  url := None;
  value := None
|}.

(** An IPFS client that answers with one path for the empty object and
    another for a description. *)
Definition sample_storage : Ipfs := {|
  ipfsProvider := true;
  ipfs := Some (fun data =>
                  match data with
                  | EmptyObject => Returned "QmEmpty"%string
                  | Texts _ _ _ => Returned "QmTexts"%string
                  end)
|}.

Definition sample_deployment : Arc := {|
  contractAddresses := Some [("SchemeRegistrar"%string, "0xregistrar"%string)];
  contracts := []
|}.

End ProposalCreate.

Module ProposalExecute.
Import Js ProposalWrite.

Section WithChain.

Variable NULL_ADDRESS : string.
Variable proposals : string -> Result ProposalData.
Variable this : Proposal.

(** [errorHandler] of [Proposal.execute]. *)
Definition execute_errorHandler (err : Error) : Result Error :=
  votingMachine ← votingMachine this;
  proposalDataFromVotingMachine ← proposals (id this);
  if String.eqb (callbacks proposalDataFromVotingMachine) NULL_ADDRESS then
    Returned (mkError ("Error in proposal.execute(): A proposal with id " +:+ id this
                       +:+ " does not exist"))
  else if String.eqb (state proposalDataFromVotingMachine) "2" then
    Returned (mkError ("Error in proposal.execute(): proposal " +:+ id this
                       +:+ " already executed"))
  else Returned err.

End WithChain.

End ProposalExecute.

(** ** [Stake.search] and [Proposal.stakes] *)

Module StakeSearch.
Import Js ArcContracts.
Local Open Scope Z_scope.

(** [IStakeQueryOptions] as the object it is at run time: its properties in
    order, [None] for a property set to [undefined]; a value is held by the
    text a template literal prints for it. *)
Abbreviation Options := (list (string * option string)).

(** An entity of [proposalStakes] as the index returns it; [amount] is
    [None] when the index gives no amount. *)
Record Item := {
  r_id : string;
  r_staker : string;
  r_createdAt : Z;
  r_outcome : string;
  r_amount : option Z;
  r_proposal_id : string
}.

(** The class [Stake] with the field types [search] fills in. *)
Record Stake := {
  id : string;
  staker : string;
  createdAt : Z;
  outcome : ProposalWrite.IProposalOutcome;
  amount : Z;
  proposalId : string
}.

(** The value [search] prints for a property; the staker is written in
    lower case. *)
Definition printed (key value : string) : string :=
  if String.eqb key "staker" then toLowerCase value else value.

(** The properties the loop writes into [where], with their values. *)
Fixpoint where_lines (options : Options) : list (string * string) :=
  match options with
  | [] => []
  | (key, Some value) :: options' => (key, printed key value) :: where_lines options'
  | (key, None) :: options' => where_lines options'
  end.

Definition line (kv : string * string) : string :=
  fst kv +:+ ": " +:+ dquote +:+ snd kv +:+ dquote +:+ ProposalWrite.newline.

(** The text [where] at the end of the loop. *)
Definition where_clause (options : Options) : string :=
  fold_right (fun kv rest => line kv +:+ rest) "" (where_lines options).

(** The object [options] as the loop leaves it. *)
Definition after_search (options : Options) : Options :=
  List.map (fun kv => (fst kv, printed (fst kv) <$> snd kv)) options.

(** The mapper [search] passes to [getObservableList]. *)
Definition search_map (r : Item) : Result Stake :=
  outcome ←
    (if String.eqb (r_outcome r) "Pass" then Returned ProposalWrite.Pass
     else if String.eqb (r_outcome r) "Fail" then Returned ProposalWrite.Fail
     else Threw (mkError ("Unexpected value for proposalStakes.outcome: "
                          +:+ r_outcome r)));
  Returned {| id := r_id r;
              staker := r_staker r;
              createdAt := r_createdAt r;
              outcome := outcome;
              amount := default 0 (r_amount r);
              proposalId := r_proposal_id r |}.

(** [Proposal.stakes]: the options [Stake.search] is called with. *)
Definition stakes_options (this : ProposalWrite.Proposal) (options : Options) : Options :=
  set_prop "proposal" (Some (ProposalWrite.id this)) options.

End StakeSearch.

(** ** [Arc.getAccount]: the polled account *)

Module ArcAccount.
Import Js.

(** What the observable of [getAccount] keeps between two polls: the
    variables [account] and [prevAccount] of its closure, the field
    [web3.eth.defaultAccount], and the accounts handed to the observer so
    far, oldest first.  [failed] records a subscription that threw. *)
Record Polling := {
  account : option string;
  prevAccount : option string;
  defaultAccount : option string;
  emitted : list string;
  failed : bool
}.

Section WithWallet.

(** [web3.eth.accounts]: [None] when it is not set, otherwise the address of
    its entry [0], if there is one. *)
Variable wallet : option (option string).

(** The function passed to [Observable.create], up to the start of the
    timer, with [web3.eth.defaultAccount] as it is configured then.  Reading
    entry [0] of a wallet that is not set throws. *)
Definition subscribe (configured : option string) : Polling :=
  match wallet with
  | None =>
      {| account := None; prevAccount := None; defaultAccount := configured;
         emitted := []; failed := true |}
  | Some (Some address) =>
      {| account := None; prevAccount := Some address; defaultAccount := configured;
         emitted := [address]; failed := false |}
  | Some None =>
      if truthy configured then
        {| account := None; prevAccount := configured; defaultAccount := configured;
           emitted := [default "" configured]; failed := false |}
      else
        {| account := None; prevAccount := None; defaultAccount := configured;
           emitted := []; failed := false |}
  end.

(** [prevAccount !== account && account]. *)
Definition changed (prev acc : option string) : bool :=
  (negb (bool_decide (prev = acc)) && truthy acc)%bool.

Definition notify (acc : option string) (p : Polling) : Polling :=
  if changed (prevAccount p) acc then
    {| account := acc; prevAccount := acc; defaultAccount := acc;
       emitted := emitted p ++ [default "" acc]; failed := failed p |}
  else
    {| account := acc; prevAccount := prevAccount p; defaultAccount := defaultAccount p;
       emitted := emitted p; failed := failed p |}.

(** The callback of one poll, given what [getAccounts] resolved to ([None]
    for a falsy answer).  Without an answer the wallet is consulted; reading
    the address of an entry that is missing throws and the poll changes
    nothing. *)
Definition poll (accounts : option (list string)) (p : Polling) : Polling :=
  if failed p then p
  else
    match accounts with
    | Some l => notify (l !! 0%nat) p
    | None =>
        match wallet with
        | Some (Some address) => notify (Some address) p
        | Some None => p
        | None => notify (account p) p
        end
    end.

Definition polls (answers : list (option (list string))) (p : Polling) : Polling :=
  fold_left (fun p' a => poll a p') answers p.

End WithWallet.

(** No account follows itself. *)
Fixpoint distinct_neighbours (l : list string) : Prop :=
  match l with
  | x :: (y :: _) as l' => x <> y /\ distinct_neighbours l'
  | _ => True
  end.

(** What the polling keeps true: the observer was last handed [prevAccount],
    and never the same account twice in a row. *)
Definition steady (p : Polling) : Prop :=
  distinct_neighbours (emitted p)
  /\ (forall x, last (emitted p) = Some x -> prevAccount p = Some x)
  /\ (prevAccount p = None -> emitted p = []).

End ArcAccount.

(** * Properties *)

(** ** Threshold arithmetic of [Proposal.state] *)

Module ProposalStateFacts.
Import Js ProposalState.
Local Open Scope Z_scope.


Lemma of_number_PRECISION : BN.of_number PRECISION = 2 ^ 40.
Proof. reflexivity. Qed.


(** The twelve keys of the enum object are told apart by [IProposalStage_at]:
    only the key ["Queued"] yields the member [Queued]. *)
Lemma stage_at_Queued (key : string) :
  IProposalStage_at key = StageMember Queued <-> key = "Queued"%string.
Proof.
  split.
  - unfold IProposalStage_at. intros H.
    repeat match type of H with
    | (if String.eqb key ?s then _ else _) = _ =>
        destruct (String.eqb_spec key s) as [E|_]; [ try discriminate H; exact E | ]
    end.
    discriminate H.
  - intros ->. reflexivity.
Qed.

Lemma stage_at_PreBoosted (key : string) :
  IProposalStage_at key = StageMember PreBoosted <-> key = "PreBoosted"%string.
Proof.
  split.
  - unfold IProposalStage_at. intros H.
    repeat match type of H with
    | (if String.eqb key ?s then _ else _) = _ =>
        destruct (String.eqb_spec key s) as [E|_]; [ try discriminate H; exact E | ]
    end.
    discriminate H.
  - intros ->. reflexivity.
Qed.

Lemma stage_is_true (v : StageValue) (x : IProposalStage) :
  stage_is v x = true <-> v = StageMember x.
Proof.
  destruct v as [s | s |]; simpl; try (split; [discriminate | discriminate]).
  destruct s, x; simpl; split; intros H; try reflexivity; try discriminate;
    inversion H.
Qed.

Lemma stage_is_false (v : StageValue) (x : IProposalStage) :
  stage_is v x = false <-> v <> StageMember x.
Proof.
  rewrite <- stage_is_true. destruct (stage_is v x); split; congruence.
Qed.



(** The integer stored is zero exactly for the numbers strictly between
    [-1] and [1]. *)
Lemma of_number_nonzero (x : Q) : BN.of_number x <> 0 <-> (1 <= Qabs x)%Q.
Proof.
  destruct x as [n d]. unfold Qle, BN.of_number, Qabs. simpl.
  rewrite (Z.quot_small_iff n (Zpos d)) by lia. lia.
Qed.



Lemma new_BN_safe (x : Q) :
  (Qabs x < inject_Z (2 ^ 53))%Q -> BN.new_BN x = Returned (BN.of_number x).
Proof.
  intros H. unfold BN.new_BN.
  destruct (Qle_bool (inject_Z (2 ^ 53)) (Qabs x)) eqn:E; [|reflexivity].
  apply Qle_bool_iff in E. exfalso. exact (Qlt_not_le _ _ H E).
Qed.

Lemma new_BN_unsafe (x : Q) :
  (inject_Z (2 ^ 53) <= Qabs x)%Q -> BN.new_BN x = Threw (mkError "Assertion failed").
Proof. intros H. unfold BN.new_BN. apply Qle_bool_iff in H. rewrite H. reflexivity. Qed.

Lemma new_BN_returns (x : Q) (m : Z) :
  BN.new_BN x = Returned m <-> m = BN.of_number x /\ (Qabs x < inject_Z (2 ^ 53))%Q.
Proof.
  split.
  - unfold BN.new_BN.
    destruct (Qle_bool (inject_Z (2 ^ 53)) (Qabs x)) eqn:E; [discriminate|].
    intros H. inversion H. split; [reflexivity|].
    apply Qnot_le_lt. intros Hle. apply Qle_bool_iff in Hle. congruence.
  - intros [-> H]. apply new_BN_safe. exact H.
Qed.

Lemma new_BN_threw (x : Q) (e : Error) :
  BN.new_BN x = Threw e <-> e = mkError "Assertion failed" /\ (inject_Z (2 ^ 53) <= Qabs x)%Q.
Proof.
  split.
  - unfold BN.new_BN.
    destruct (Qle_bool (inject_Z (2 ^ 53)) (Qabs x)) eqn:E; [|discriminate].
    intros H. inversion H. split; [reflexivity|]. apply Qle_bool_iff. exact E.
  - intros [-> H]. apply new_BN_unsafe. exact H.
Qed.

Lemma new_BN_PRECISION : BN.new_BN PRECISION = Returned (2 ^ 40).
Proof. reflexivity. Qed.

(** The two deltas in terms of what the constructor makes of the scaled
    threshold. *)
Lemma upstake_Queued_scaled (t : Q) (F A m : Z) :
  BN.new_BN (t * PRECISION)%Q = Returned m ->
  upstake (StageMember Queued) t F A = Returned (Z.quot (m * A) (2 ^ 40) - F).
Proof.
  intros E. unfold upstake. cbn [stage_is IProposalStage_eqb].
  rewrite E. cbn [mbind result_bind bind]. rewrite new_BN_PRECISION. reflexivity.
Qed.

Lemma upstake_Queued_threw (t : Q) (F A : Z) (e : Error) :
  BN.new_BN (t * PRECISION)%Q = Threw e ->
  upstake (StageMember Queued) t F A = Threw e.
Proof.
  intros E. unfold upstake. cbn [stage_is IProposalStage_eqb]. rewrite E. reflexivity.
Qed.

Lemma downstake_PreBoosted_scaled (t : Q) (F A m : Z) :
  BN.new_BN (t * PRECISION)%Q = Returned m ->
  downstake (StageMember PreBoosted) t F A
  = if Z.eqb m 0 then Threw (mkError "Assertion failed")
    else Returned (Z.quot (F * 2 ^ 40) m - A).
Proof.
  intros E. unfold downstake. cbn [stage_is IProposalStage_eqb].
  rewrite new_BN_PRECISION. cbn [mbind result_bind bind].
  rewrite E. cbn [mbind result_bind bind]. unfold BN.div.
  destruct (Z.eqb m 0); reflexivity.
Qed.

Lemma downstake_PreBoosted_threw (t : Q) (F A : Z) (e : Error) :
  BN.new_BN (t * PRECISION)%Q = Threw e ->
  downstake (StageMember PreBoosted) t F A = Threw e.
Proof.
  intros E. unfold downstake. cbn [stage_is IProposalStage_eqb].
  rewrite new_BN_PRECISION. cbn [mbind result_bind bind]. rewrite E. reflexivity.
Qed.

Lemma upstake_Queued (t : Q) (F A : Z) :
  (Qabs (t * PRECISION) < inject_Z (2 ^ 53))%Q ->
  upstake (StageMember Queued) t F A
  = Returned (Z.quot (BN.of_number (t * PRECISION)%Q * A) (2 ^ 40) - F).
Proof. intros H. apply upstake_Queued_scaled, new_BN_safe, H. Qed.

Lemma upstake_other (v : StageValue) (t : Q) (F A : Z) :
  v <> StageMember Queued -> upstake v t F A = Returned 0.
Proof.
  intros H. apply stage_is_false in H. unfold upstake. rewrite H. reflexivity.
Qed.

Lemma downstake_PreBoosted (t : Q) (F A : Z) :
  (Qabs (t * PRECISION) < inject_Z (2 ^ 53))%Q ->
  (1 <= Qabs (t * PRECISION))%Q ->
  downstake (StageMember PreBoosted) t F A
  = Returned (Z.quot (F * 2 ^ 40) (BN.of_number (t * PRECISION)%Q) - A).
Proof.
  intros H Hnz. rewrite (downstake_PreBoosted_scaled t F A _ (new_BN_safe _ H)).
  apply of_number_nonzero in Hnz.
  destruct (Z.eqb_spec (BN.of_number (t * PRECISION)%Q) 0); [contradiction | reflexivity].
Qed.

Lemma downstake_other (v : StageValue) (t : Q) (F A : Z) :
  v <> StageMember PreBoosted -> downstake v t F A = Returned 0.
Proof.
  intros H. apply stage_is_false in H. unfold downstake. rewrite H. reflexivity.
Qed.



(** The deltas are returned exactly when the constructor accepts the scaled
    threshold in the two stages that use it and the divisor of the
    [PreBoosted] stage is not zero. *)
Lemma upstake_returns (v : StageValue) (t : Q) (F A : Z) :
  returns (upstake v t F A)
  <-> (v = StageMember Queued -> (Qabs (t * PRECISION) < inject_Z (2 ^ 53))%Q).
Proof.
  destruct (stage_is v Queued) eqn:E.
  - apply stage_is_true in E. subst v. split.
    + intros [up H] _.
      destruct (BN.new_BN (t * PRECISION)%Q) as [m|e] eqn:Em.
      * apply new_BN_returns in Em. apply Em.
      * rewrite (upstake_Queued_threw t F A e Em) in H. discriminate H.
    + intros H. eexists. apply upstake_Queued. apply H. reflexivity.
  - apply stage_is_false in E. split.
    + intros _ Hv. contradiction.
    + intros _. exists 0. apply upstake_other. exact E.
Qed.

Lemma downstake_returns (v : StageValue) (t : Q) (F A : Z) :
  returns (downstake v t F A)
  <-> (v = StageMember PreBoosted ->
       (Qabs (t * PRECISION) < inject_Z (2 ^ 53))%Q /\ (1 <= Qabs (t * PRECISION))%Q).
Proof.
  destruct (stage_is v PreBoosted) eqn:E.
  - apply stage_is_true in E. subst v. split.
    + intros [down H] _.
      destruct (BN.new_BN (t * PRECISION)%Q) as [m|e] eqn:Em.
      * rewrite (downstake_PreBoosted_scaled t F A m Em) in H.
        apply new_BN_returns in Em. destruct Em as [-> Hs]. split; [exact Hs|].
        apply of_number_nonzero. intros Hz. rewrite Hz in H. discriminate H.
      * rewrite (downstake_PreBoosted_threw t F A e Em) in H. discriminate H.
    + intros H. destruct (H eq_refl) as [Hs Hnz]. eexists.
      apply downstake_PreBoosted; assumption.
  - apply stage_is_false in E. split.
    + intros _ Hv. contradiction.
    + intros _. exists 0. apply downstake_other. exact E.
Qed.

Section WithContext.
Variable realMathToNumber : Z -> Result Q.
Variable isAddress : Value -> Result unit.
Variable contractAddresses : option (list (string * string)).

Abbreviation itemMap := (itemMap realMathToNumber isAddress contractAddresses).
Abbreviation recognised := (recognised isAddress contractAddresses).
Abbreviation decoded := (decoded realMathToNumber).

(** [itemMap] returns a state as soon as the proposal type and the scheme
    name are found, the thresholds are decoded and both deltas are
    computed. *)
Lemma itemMap_returns (item : Item) (t : Q) (up down : Z) :
  recognised item ->
  decoded item t ->
  let stage := IProposalStage_at (item_stage item) in
  upstake stage t (item_stakesFor item) (item_stakesAgainst item) = Returned up ->
  downstake stage t (item_stakesFor item) (item_stakesAgainst item) = Returned down ->
  exists st,
    itemMap (Some item) = Returned (Some st)
    /\ ProposalState.stage st = stage
    /\ stakesFor st = item_stakesFor item
    /\ stakesAgainst st = item_stakesAgainst item
    /\ queue_threshold st = t
    /\ upstakeNeededToPreBoost st = up
    /\ downStakeNeededToQueue st = down.
Proof.
  intros [[ty Hty] [nm Hnm]] [Ht [tc Htc]] stage Hup Hdown.
  unfold ProposalState.itemMap. rewrite Hty. cbn [mbind result_bind bind].
  rewrite Ht. cbn [mbind result_bind bind].
  fold stage. rewrite Hup. cbn [mbind result_bind bind].
  rewrite Hdown. cbn [mbind result_bind bind].
  rewrite Htc. cbn [mbind result_bind bind].
  rewrite Hnm. cbn [mbind result_bind bind].
  eexists. split; [reflexivity|]. cbn. repeat split; reflexivity.
Qed.

(** Conversely, a state is only returned when every step has returned, and
    it holds what the steps computed. *)
Lemma itemMap_returned (item : Item) (r : option IProposalState) :
  itemMap (Some item) = Returned r ->
  exists st t,
    r = Some st
    /\ recognised item
    /\ decoded item t
    /\ proposalType item = Returned (type st)
    /\ ProposalState.stage st = IProposalStage_at (item_stage item)
    /\ upstake (ProposalState.stage st) t (item_stakesFor item) (item_stakesAgainst item)
       = Returned (upstakeNeededToPreBoost st)
    /\ downstake (ProposalState.stage st) t (item_stakesFor item) (item_stakesAgainst item)
       = Returned (downStakeNeededToQueue st)
    /\ contributionReward st = item_contributionReward item
    /\ genericScheme st = match item_contributionReward item with
                          | Some _ => None
                          | None => item_genericScheme item
                          end
    /\ schemeRegistrar st = match item_contributionReward item, item_genericScheme item with
                            | None, None => item_schemeRegistrar item
                            | _, _ => None
                            end.
Proof.
  unfold ProposalState.itemMap.
  destruct (proposalType item) as [ty|e] eqn:Hty; cbn [mbind result_bind bind];
    [|discriminate].
  destruct (realMathToNumber (item_gpQueue_threshold item)) as [t|e] eqn:Ht;
    cbn [mbind result_bind bind]; [|discriminate].
  destruct (upstake _ t _ _) as [up|e] eqn:Hup; cbn [mbind result_bind bind];
    [|discriminate].
  destruct (downstake _ t _ _) as [down|e] eqn:Hdown; cbn [mbind result_bind bind];
    [|discriminate].
  destruct (realMathToNumber (item_thresholdConst item)) as [tc|e] eqn:Htc;
    cbn [mbind result_bind bind]; [|discriminate].
  destruct (schemeName isAddress contractAddresses item) as [nm|e] eqn:Hnm;
    cbn [mbind result_bind bind]; [|discriminate].
  intros E. inversion E. eexists. exists t. split; [reflexivity|]. cbn.
  split; [split; eexists; eassumption|].
  split; [split; [exact Ht | eexists; exact Htc]|].
  repeat split; assumption.
Qed.

(** In the two stages that scale the threshold, a scaled threshold of
    [2^53] or more makes the constructor of [bn.js] throw, and [itemMap]
    with it. *)
Lemma itemMap_unsafe_threshold (item : Item) (ty : IProposalType) (t : Q) :
  proposalType item = Returned ty ->
  realMathToNumber (item_gpQueue_threshold item) = Returned t ->
  item_stage item = "Queued"%string \/ item_stage item = "PreBoosted"%string ->
  (inject_Z (2 ^ 53) <= Qabs (t * PRECISION))%Q ->
  itemMap (Some item) = Threw (mkError "Assertion failed").
Proof.
  intros Hty Ht Hstage Hbig. apply new_BN_unsafe in Hbig.
  unfold ProposalState.itemMap. rewrite Hty. cbn [mbind result_bind bind].
  rewrite Ht. cbn [mbind result_bind bind].
  destruct Hstage as [Hs|Hs]; rewrite Hs;
    cbn [IProposalStage_at String.eqb Ascii.eqb Bool.eqb].
  - rewrite (upstake_Queued_threw t _ _ _ Hbig). reflexivity.
  - rewrite (upstake_other (StageMember PreBoosted)) by discriminate.
    cbn [mbind result_bind bind].
    rewrite (downstake_PreBoosted_threw t _ _ _ Hbig). reflexivity.
Qed.

(** A state is reported when every step of [itemMap] returns: for the two
    stages that scale the threshold this needs a scaled threshold the
    constructor accepts and, for [PreBoosted], a divisor that is not zero. *)
Lemma itemMap_reports (item : Item) (t : Q) :
  recognised item ->
  decoded item t ->
  (item_stage item = "Queued"%string \/ item_stage item = "PreBoosted"%string ->
   (Qabs (t * PRECISION) < inject_Z (2 ^ 53))%Q) ->
  (item_stage item = "PreBoosted"%string -> (1 <= Qabs (t * PRECISION))%Q) ->
  exists st, itemMap (Some item) = Returned (Some st).
Proof.
  intros Hrec Hdec Hsafe Hnz.
  set (v := IProposalStage_at (item_stage item)).
  destruct (proj2 (upstake_returns v t (item_stakesFor item) (item_stakesAgainst item)))
    as [up Hup].
  { intros Hv. apply Hsafe. left. apply stage_at_Queued. exact Hv. }
  destruct (proj2 (downstake_returns v t (item_stakesFor item) (item_stakesAgainst item)))
    as [down Hdown].
  { intros Hv. apply stage_at_PreBoosted in Hv. split.
    - apply Hsafe. right. exact Hv.
    - apply Hnz. exact Hv. }
  destruct (itemMap_returns item t up down Hrec Hdec Hup Hdown) as (st & Hst & _).
  exists st. exact Hst.
Qed.




(** With a threshold whose scaled value truncates to zero the division of
    the [PreBoosted] branch has no value: [bn.js] refuses the divisor and
    [itemMap] throws. *)
Remark downstake_zero_divisor (item : Item) (ty : IProposalType) (t : Q) :
  proposalType item = Returned ty ->
  realMathToNumber (item_gpQueue_threshold item) = Returned t ->
  item_stage item = "PreBoosted"%string ->
  BN.of_number (t * PRECISION)%Q = 0 ->
  itemMap (Some item) = Threw (mkError "Assertion failed").
Proof.
  intros Hty Ht Hstage Hz. unfold ProposalState.itemMap.
  rewrite Hty, Hstage. cbn [mbind result_bind bind].
  rewrite Ht. cbn [mbind result_bind bind].
  cbn [IProposalStage_at String.eqb Ascii.eqb Bool.eqb].
  rewrite (upstake_other (StageMember PreBoosted)) by discriminate.
  cbn [mbind result_bind bind].
  destruct (BN.new_BN (t * PRECISION)%Q) as [m|e] eqn:Em.
  - rewrite (downstake_PreBoosted_scaled t _ _ m Em).
    apply new_BN_returns in Em. destruct Em as [-> _]. rewrite Hz. reflexivity.
  - rewrite (downstake_PreBoosted_threw t _ _ e Em).
    apply new_BN_threw in Em. destruct Em as [-> _]. reflexivity.
Qed.

End WithContext.

Lemma sample_recognised (stage : string) (raw F A : Z) :
  recognised isAddress_accept None (sample_item stage raw F A).
Proof. split; eexists; reflexivity. Qed.

Lemma sample_decoded (stage : string) (raw F A : Z) :
  decoded realMathToNumber_fixed40 (sample_item stage raw F A) (Qmake raw (2 ^ 40)).
Proof. split; [reflexivity | eexists; reflexivity]. Qed.







End ProposalStateFacts.

(** ** The [Token] constructor *)

Module TokenFacts.
Import Js TokenClass.

(** C10. For a falsy [address] (among them [undefined], [null] and the
    empty string) the constructor throws and yields no instance.  For a
    truthy [address] it runs [isAddress address] before it returns: what
    [isAddress] throws, the constructor throws, and the instance is only
    returned once [isAddress] has returned. *)
Theorem new_Token_checks_address (isAddress : Value -> Result unit) (address : Value) :
  (falsy address = true ->
     new_Token isAddress address
     = Threw (mkError "No address provided - cannot create Token instance")
     /\ ~ returns (new_Token isAddress address))
  /\ (falsy address = false ->
        (forall e, isAddress address = Threw e -> new_Token isAddress address = Threw e)
        /\ (isAddress address = Returned tt ->
              new_Token isAddress address = Returned {| address := address |})
        /\ (returns (new_Token isAddress address) -> returns (isAddress address)))
  /\ falsy Undefined = true /\ falsy Null = true /\ falsy (Str "") = true.
Proof.
  unfold new_Token. split; [|split].
  - intros ->. split; [reflexivity|]. intros [tok H]. discriminate H.
  - intros ->. split; [|split].
    + intros e ->. reflexivity.
    + intros ->. reflexivity.
    + intros [tok H]. destruct (isAddress address) as [u|e].
      * exists u. reflexivity.
      * discriminate H.
  - repeat split.
Qed.

Lemma new_Token_checks_address_witness :
  new_Token (fun _ => Threw (mkError "Not a valid address")) (Str "")
  = Threw (mkError "No address provided - cannot create Token instance")
  /\ new_Token (fun _ => Threw (mkError "Not a valid address")) (Str "0x12")
     = Threw (mkError "Not a valid address")
  /\ new_Token (fun _ => Returned tt) (Str "0x12") = Returned {| address := Str "0x12" |}.
Proof.
  split; [|split].
  - exact (proj1 (proj1 (new_Token_checks_address
                           (fun _ => Threw (mkError "Not a valid address")) (Str ""))
                    eq_refl)).
  - exact (proj1 (proj1 (proj2 (new_Token_checks_address
                                  (fun _ => Threw (mkError "Not a valid address"))
                                  (Str "0x12")))
                    eq_refl) _ eq_refl).
  - exact (proj1 (proj2 (proj1 (proj2 (new_Token_checks_address
                                         (fun _ => Returned tt) (Str "0x12")))
                           eq_refl)) eq_refl).
Defined.

End TokenFacts.

(** ** Receipt mappers and error handlers of the write operations *)

Module ProposalWriteFacts.
Import Js ProposalWrite.
Local Open Scope Z_scope.

Section WithChain.
Variable NULL_ADDRESS : string.
Variable isAddress : Value -> Result unit.
Variable GEN_address : Result Value.
Variable proposals : string -> Result ProposalData.
Variable getAccount : Result string.
Variable balanceOf : string -> Result Z.
Variable allowance : string -> string -> Result Z.
Variable this : Proposal.

Abbreviation stake_errorHandler :=
  (stake_errorHandler NULL_ADDRESS isAddress GEN_address proposals getAccount
     balanceOf allowance this).
Abbreviation vote_errorHandler := (vote_errorHandler NULL_ADDRESS proposals this).
Abbreviation stakingToken := (stakingToken isAddress GEN_address).

(** The handlers pass on an error that is not a revert without any read. *)
Lemma handlers_pass_on_other_errors (amount : Z) (error : Error) :
  includes "revert" (message error) = false ->
  stake_errorHandler amount error = Returned error
  /\ vote_errorHandler error = Returned error.
Proof.
  intros H. unfold ProposalWrite.stake_errorHandler, ProposalWrite.vote_errorHandler.
  rewrite H. split; reflexivity.
Qed.

(** C6. When a revert is classified, the existence of the proposal is
    settled first: if the voting machine knows no proposer for the id,
    [stake] answers with its unknown-proposal error without reading the
    account, the balance or the allowance (so whatever those reads
    would give), and [vote] answers likewise.  When no cause is found
    (the proposal exists and the balance and the allowance cover the
    amount for [stake]; the proposal exists and is not executed for
    [vote]) the error that was passed in is returned as it is. *)
Theorem revert_classification (amount : Z) (error : Error) (data : ProposalData) :
  includes "revert" (message error) = true ->
  proposals (id this) = Returned data ->
  (proposer data = NULL_ADDRESS ->
     (returns stakingToken -> returns (votingMachine this) ->
        stake_errorHandler amount error
        = Returned (mkError ("Unknown proposal with id " +:+ id this)))
     /\ vote_errorHandler error
        = Returned (mkError ("Error in vote(): unknown proposal with id " +:+ id this)))
  /\ (proposer data <> NULL_ADDRESS ->
        (forall vm account balance allowed,
           returns stakingToken ->
           votingMachine this = Returned vm ->
           getAccount = Returned account ->
           balanceOf account = Returned balance ->
           allowance account vm = Returned allowed ->
           amount <= balance -> amount <= allowed ->
           stake_errorHandler amount error = Returned error)
        /\ (state data <> "2"%string -> vote_errorHandler error = Returned error)).
Proof.
  intros Hrev Hdata.
  unfold ProposalWrite.stake_errorHandler, ProposalWrite.vote_errorHandler.
  rewrite Hrev, Hdata. cbn [mbind result_bind bind]. split.
  - intros Hnull. apply String.eqb_eq in Hnull. rewrite Hnull. split; [|reflexivity].
    intros [tok ->] [vm ->]. reflexivity.
  - intros Hnn. apply String.eqb_neq in Hnn. rewrite Hnn. split.
    + intros vm account balance allowed [tok ->] Hvm Hacc Hbal Hall Hb Ha.
      rewrite Hvm, Hacc. cbn [mbind result_bind bind].
      rewrite Hbal. cbn [mbind result_bind bind]. unfold BN.lt.
      destruct (Z.ltb_spec balance amount) as [?|_]; [lia|].
      rewrite Hall. cbn [mbind result_bind bind].
      destruct (Z.ltb_spec allowed amount) as [?|_]; [lia|]. reflexivity.
    + intros Hst. apply String.eqb_neq in Hst. rewrite Hst. reflexivity.
Qed.

(** C7. A receipt without the expected event is judged by the mapper of
    the operation.  [stake] throws when the receipt has no [Stake] event
    and returns a [Stake] when it has one; [execute] returns the receipt
    whatever its events, also when there are none. *)
Theorem missing_event_is_judged_by_the_mapper
    (outcome : IProposalOutcome) (receipt : Receipt) :
  (prop "Stake" (events receipt) = None ->
     stake_map this outcome receipt
     = Threw (mkError ("Error staking: no " +:+ dquote +:+ "Stake" +:+ dquote
                       +:+ " event was found - "
                       +:+ join "," (keys (events receipt))))
     /\ ~ returns (stake_map this outcome receipt))
  /\ (forall event, prop "Stake" (events receipt) = Some event ->
        returns (stake_map this outcome receipt))
  /\ execute_map receipt = Returned receipt
  /\ execute_map {| events := [] |} = Returned {| events := [] |}.
Proof.
  unfold stake_map, execute_map. split; [|split; [|split]].
  - intros ->. split; [reflexivity|]. intros [s H]. discriminate H.
  - intros event ->. eexists. reflexivity.
  - destruct (Nat.eqb _ _); reflexivity.
  - reflexivity.
Qed.

End WithChain.

Lemma revert_classification_witness :
  stake_errorHandler sample_NULL_ADDRESS (fun _ => Returned tt) (Returned (Str "0xgen"))
    sample_unknown (Returned "0xstaker"%string) (fun _ => Returned 0)
    (fun _ _ => Returned 0) sample_proposal 10 sample_revert
  = Returned (mkError "Unknown proposal with id 0xproposal").
Proof.
  refine (proj1 (proj1 (revert_classification sample_NULL_ADDRESS (fun _ => Returned tt)
                          (Returned (Str "0xgen")) sample_unknown
                          (Returned "0xstaker"%string) (fun _ => Returned 0)
                          (fun _ _ => Returned 0) sample_proposal 10 sample_revert
                          _ eq_refl eq_refl) eq_refl) _ _).
  - eexists. reflexivity.
  - eexists. reflexivity.
Defined.

Lemma missing_event_is_judged_by_the_mapper_witness :
  stake_map sample_proposal Pass sample_receipt
  = Threw (mkError ("Error staking: no " +:+ dquote +:+ "Stake" +:+ dquote
                    +:+ " event was found - Transfer"))
  /\ execute_map sample_receipt = Returned sample_receipt.
Proof.
  split.
  - exact (proj1 (proj1 (missing_event_is_judged_by_the_mapper sample_proposal Pass
                           sample_receipt) eq_refl)).
  - exact (proj1 (proj2 (proj2 (missing_event_is_judged_by_the_mapper sample_proposal Pass
                                  sample_receipt)))).
Defined.

End ProposalWriteFacts.

(** ** The balance multiplexer *)

Module ArcBalanceFacts.
Import ArcBalance.
Local Open Scope Z_scope.

(** *** Registry *)

Lemma account_app (k k' : Address) (l : Loc) (reg : list (Address * Loc)) :
  account k (reg ++ [(k', l)])
  = match account k reg with
    | Some x => Some x
    | None => if String.eqb k' k then Some l else None
    end.
Proof.
  induction reg as [|[k0 l0] reg IH]; simpl.
  - reflexivity.
  - destruct (String.eqb k0 k); [reflexivity | exact IH].
Qed.

Lemma account_delete_same (k : Address) (reg : list (Address * Loc)) :
  account k (delete_account k reg) = None.
Proof.
  induction reg as [|[k0 l0] reg IH]; simpl.
  - reflexivity.
  - destruct (String.eqb k0 k) eqn:E; simpl; [exact IH|].
    rewrite E. exact IH.
Qed.

Lemma account_delete_other (k k' : Address) (reg : list (Address * Loc)) :
  k <> k' -> account k' (delete_account k reg) = account k' reg.
Proof.
  intros Hne. induction reg as [|[k0 l0] reg IH]; simpl.
  - reflexivity.
  - destruct (String.eqb_spec k0 k) as [->|Hk]; simpl.
    + destruct (String.eqb_spec k k') as [E|_]; [contradiction | exact IH].
    + destruct (String.eqb k0 k'); [reflexivity | exact IH].
Qed.

Lemma delete_account_absent (k : Address) (reg : list (Address * Loc)) :
  account k reg = None -> delete_account k reg = reg.
Proof.
  induction reg as [|[k0 l0] reg IH]; simpl.
  - reflexivity.
  - destruct (String.eqb k0 k); simpl; [discriminate|].
    intros H. rewrite (IH H). reflexivity.
Qed.

Lemma delete_account_app (k : Address) (reg reg' : list (Address * Loc)) :
  delete_account k (reg ++ reg') = delete_account k reg ++ delete_account k reg'.
Proof. apply List.filter_app. Qed.

Lemma account_Some_nonempty (k : Address) (l : Loc) (reg : list (Address * Loc)) :
  account k reg = Some l -> reg <> [].
Proof. destruct reg; [discriminate | discriminate]. Qed.

Lemma entry_Some (k : Address) (a : Arc) (l : Loc) (info : AccInfo) :
  entry k a = Some (l, info)
  <-> account k (observedAccounts a) = Some l /\ objects a !! l = Some info.
Proof.
  unfold entry. split.
  - destruct (account k (observedAccounts a)) as [l'|]; simpl; [|discriminate].
    destruct (objects a !! l') as [info'|] eqn:Ho; simpl; [|discriminate].
    intros H. inversion H. subst. split; [reflexivity | exact Ho].
  - intros [-> H]. simpl. rewrite H. reflexivity.
Qed.

(** *** The feed invariant *)

(** Only three fields matter to [feed_inv]. *)
Lemma feed_inv_ext (a b : Arc) :
  observedAccounts b = observedAccounts a ->
  blockHeaderSubscription b = blockHeaderSubscription a ->
  liveFeeds b = liveFeeds a ->
  feed_inv a -> feed_inv b.
Proof. unfold feed_inv. intros -> -> ->. exact id. Qed.

Lemma feed_inv_init : feed_inv init.
Proof. split; [reflexivity | discriminate]. Qed.

Lemma feed_inv_ethBalance (k : Address) (a : Arc) :
  feed_inv a -> feed_inv (ethBalance k a).
Proof.
  intros [Hl Hr]. unfold ethBalance.
  destruct (account k (observedAccounts a)) as [l|] eqn:Hk.
  - destruct (entry k a) as [[l' info]|]; [|split; assumption].
    destruct (observable info); split; simpl; assumption.
  - match goal with |- feed_inv (match entry k ?a1 with _ => _ end) =>
      assert (H1 : feed_inv a1) end.
    { split; simpl; [exact Hl|]. intros _. destruct (observedAccounts a); discriminate. }
    match goal with |- feed_inv (match ?e with _ => _ end) => destruct e as [[l' info]|] end;
      [|exact H1].
    destruct H1 as [H1 H2]. destruct (observable info); split; simpl in *; assumption.
Qed.

Lemma feed_inv_subscribe (k : Address) (a : Arc) :
  feed_inv a -> feed_inv (subscribe k a).
Proof.
  intros [Hl Hr]. unfold subscribe.
  destruct (entry k a) as [[l info]|] eqn:He.
  - apply entry_Some in He. destruct He as [Hk _]. split; simpl.
    + rewrite Hl. destruct (blockHeaderSubscription a); reflexivity.
    + intros _. eapply account_Some_nonempty. exact Hk.
  - split; simpl; assumption.
Qed.

Lemma feed_inv_teardown (k : Address) (a : Arc) :
  feed_inv a -> feed_inv (teardown k a).
Proof.
  intros [Hl Hr]. unfold teardown.
  destruct (entry k a) as [[l info]|]; [|split; assumption].
  set (reg := if Z.leb _ _ then _ else _). unfold feed_inv. simpl.
  revert Hl Hr. destruct (blockHeaderSubscription a);
    destruct (Nat.eqb_spec (length reg) 0) as [E|E]; simpl; intros Hl Hr.
  - rewrite Hl. split; [reflexivity | discriminate].
  - split; [exact Hl|]. intros _ H. apply E. rewrite H. reflexivity.
  - split; [exact Hl | discriminate].
  - split; [exact Hl | discriminate].
Qed.

Lemma feed_inv_set_subscribers (subs : list Subscriber) (a : Arc) :
  feed_inv a -> feed_inv (set_subscribers subs a).
Proof. apply feed_inv_ext; reflexivity. Qed.

Lemma feed_inv_unsubscribe (s : SubscriberId) (a : Arc) :
  feed_inv a -> feed_inv (unsubscribe s a).
Proof.
  intros H. unfold unsubscribe.
  destruct (subscribers a !! s) as [sub|]; [|exact H].
  destruct (sub_closed sub); [exact H|].
  apply feed_inv_teardown, feed_inv_set_subscribers, H.
Qed.

Lemma feed_inv_observer_next (s : SubscriberId) (b : Z) (a : Arc) :
  feed_inv a -> feed_inv (observer_next s b a).
Proof.
  intros H. unfold observer_next.
  destruct (subscribers a !! s) as [sub|]; [|exact H].
  destruct (sub_closed sub); [exact H|].
  apply feed_inv_set_subscribers, H.
Qed.

Lemma feed_inv_observer_error (s : SubscriberId) (e : string) (a : Arc) :
  feed_inv a -> feed_inv (observer_error s e a).
Proof.
  intros H. unfold observer_error.
  destruct (subscribers a !! s) as [sub|]; [|exact H].
  destruct (sub_closed sub); [exact H|].
  apply feed_inv_teardown, feed_inv_set_subscribers, H.
Qed.

Lemma feed_inv_set_lastBalance (l : Loc) (b : Z) (a : Arc) :
  feed_inv a -> feed_inv (set_lastBalance l b a).
Proof.
  unfold set_lastBalance. destruct (objects a !! l); [|exact id].
  apply feed_inv_ext; reflexivity.
Qed.

Lemma feed_inv_fulfil (i : nat) (b : Z) (a : Arc) :
  feed_inv a -> feed_inv (fulfil i b a).
Proof.
  intros H. unfold fulfil.
  destruct (reads a !! i) as [r|]; [|exact H].
  set (a1 := set_reads _ a).
  assert (H1 : feed_inv a1) by (revert H; apply feed_inv_ext; reflexivity).
  destruct r as [owner | addr [l|]]; simpl.
  - unfold seed_fulfilled. destruct (entry owner a1) as [[l info]|]; [|exact H1].
    destruct (observer info); [|exact H1].
    apply feed_inv_set_lastBalance, feed_inv_observer_next, H1.
  - repeat case_match; try exact H1.
    apply feed_inv_set_lastBalance, feed_inv_observer_next, H1.
  - exact H1.
Qed.

Lemma tick_reads_eq (keys : list Address) (a : Arc) :
  tick_reads keys a
  = set_reads (reads a ++ List.map (fun k => TickRead k (account k (observedAccounts a))) keys) a.
Proof.
  revert a. induction keys as [|k keys IH]; intros a; simpl.
  - rewrite app_nil_r. destruct a; reflexivity.
  - rewrite IH. unfold set_reads. simpl. rewrite <- app_assoc. reflexivity.
Qed.

Lemma feed_inv_tick_errors (e : string) (keys : list Address) (a : Arc) :
  feed_inv a -> feed_inv (tick_errors e keys a).
Proof.
  revert a. induction keys as [|k keys IH]; intros a H; simpl; [exact H|].
  destruct (entry k a) as [[l info]|]; [|exact H].
  destruct (observer info); [|exact H].
  apply IH, feed_inv_observer_error, H.
Qed.

Lemma feed_inv_newBlockHeaders (err : option string) (a : Arc) :
  feed_inv a -> feed_inv (newBlockHeaders err a).
Proof.
  intros H. unfold newBlockHeaders.
  destruct (blockHeaderSubscription a); [|exact H].
  destruct err as [e|].
  - apply feed_inv_tick_errors, H.
  - rewrite tick_reads_eq. revert H. apply feed_inv_ext; reflexivity.
Qed.

Lemma feed_inv_step (a : Arc) (e : Event) : feed_inv a -> feed_inv (step a e).
Proof.
  destruct e; simpl.
  - apply feed_inv_ethBalance.
  - apply feed_inv_subscribe.
  - apply feed_inv_unsubscribe.
  - apply feed_inv_fulfil.
  - apply feed_inv_newBlockHeaders.
Qed.

Lemma feed_inv_run (es : list Event) (a : Arc) : feed_inv a -> feed_inv (run es a).
Proof.
  revert a. induction es as [|e es IH]; intros a H; simpl; [exact H|].
  apply IH, feed_inv_step, H.
Qed.

Lemma feed_inv_observe (k : Address) (a : Arc) : feed_inv a -> feed_inv (observe k a).
Proof. intros H. apply feed_inv_subscribe, feed_inv_ethBalance, H. Qed.

(** *** Counting observers of a key *)

Lemma tracked_entry (k : Address) (l : Loc) (c : Z) (a : Arc) :
  tracked k l c a ->
  exists info, entry k a = Some (l, info)
               /\ observable info = true /\ subscriptionsCount info = c.
Proof.
  intros [Hk (info & Ho & Hb & Hc)]. exists info. split; [|split; assumption].
  apply entry_Some. split; assumption.
Qed.

Lemma ethBalance_fresh (k : Address) (a : Arc) :
  account k (observedAccounts a) = None ->
  ethBalance k a
  = {| observedAccounts := observedAccounts a ++ [(k, length (objects a))];
       objects := objects a ++ [{| observable := true; observer := None;
                                   lastBalance := None; subscriptionsCount := 1 |}];
       blockHeaderSubscription := blockHeaderSubscription a;
       liveFeeds := liveFeeds a;
       subscribers := subscribers a;
       reads := reads a |}.
Proof.
  intros Hk. unfold ethBalance. rewrite Hk.
  match goal with |- context [entry k ?a1] =>
    assert (He : entry k a1
                 = Some (length (objects a),
                         {| observable := false; observer := None;
                            lastBalance := None; subscriptionsCount := 1 |}))
  end.
  { apply entry_Some. cbn [observedAccounts objects].
    rewrite account_app, Hk, String.eqb_refl. split; [reflexivity|].
    apply list_lookup_middle. reflexivity. }
  rewrite He. cbn [observable]. unfold set_object. cbn.
  rewrite insert_app_r_alt by lia. rewrite Nat.sub_diag. reflexivity.
Qed.

Lemma ethBalance_tracked (k : Address) (l : Loc) (info : AccInfo) (a : Arc) :
  entry k a = Some (l, info) -> observable info = true ->
  ethBalance k a
  = set_object l {| observable := true; observer := observer info;
                    lastBalance := lastBalance info;
                    subscriptionsCount := subscriptionsCount info + 1 |} a.
Proof.
  intros He Hb. pose proof (proj1 (entry_Some _ _ _ _) He) as [Hk _].
  unfold ethBalance. rewrite Hk, He, Hb. reflexivity.
Qed.

Lemma subscribe_entry (k : Address) (l : Loc) (info : AccInfo) (a : Arc) :
  entry k a = Some (l, info) ->
  subscribe k a
  = {| observedAccounts := observedAccounts a;
       objects := <[l := {| observable := observable info;
                            observer := Some (length (subscribers a));
                            lastBalance := lastBalance info;
                            subscriptionsCount := subscriptionsCount info |}]>
                    (objects a);
       blockHeaderSubscription := true;
       liveFeeds := if blockHeaderSubscription a then liveFeeds a else S (liveFeeds a);
       subscribers := subscribers a ++ [fresh_subscriber k];
       reads := reads a ++ [SeedRead k] |}.
Proof. intros He. unfold subscribe. rewrite He. reflexivity. Qed.

Lemma entry_set_object (k : Address) (l : Loc) (info info' : AccInfo) (a : Arc) :
  entry k a = Some (l, info) -> entry k (set_object l info' a) = Some (l, info').
Proof.
  intros He. apply entry_Some in He. destruct He as [Hk Ho]. apply entry_Some.
  split; [exact Hk|]. apply list_lookup_insert_eq. eapply lookup_lt_Some. exact Ho.
Qed.

Lemma observe_fresh (k : Address) (a : Arc) :
  account k (observedAccounts a) = None ->
  tracked k (length (objects a)) 1 (observe k a)
  /\ observedAccounts (observe k a) = observedAccounts a ++ [(k, length (objects a))]
  /\ subscribers (observe k a) = subscribers a ++ [fresh_subscriber k]
  /\ blockHeaderSubscription (observe k a) = true.
Proof.
  intros Hk. unfold observe. rewrite (ethBalance_fresh k a Hk).
  erewrite subscribe_entry.
  2:{ apply entry_Some. cbn [observedAccounts objects].
      rewrite account_app, Hk, String.eqb_refl. split; [reflexivity|].
      apply list_lookup_middle. reflexivity. }
  unfold tracked. cbn.
  rewrite account_app, Hk, String.eqb_refl.
  split; [|repeat split]. split; [reflexivity|].
  eexists. split.
  - rewrite insert_app_r_alt by lia. rewrite Nat.sub_diag. apply list_lookup_middle.
    reflexivity.
  - split; reflexivity.
Qed.

Lemma observe_tracked (k : Address) (l : Loc) (c : Z) (a : Arc) :
  tracked k l c a ->
  tracked k l (c + 1) (observe k a)
  /\ observedAccounts (observe k a) = observedAccounts a
  /\ subscribers (observe k a) = subscribers a ++ [fresh_subscriber k]
  /\ blockHeaderSubscription (observe k a) = true.
Proof.
  intros Ht. destruct (tracked_entry _ _ _ _ Ht) as (info & He & Hb & Hc).
  pose proof (proj1 (entry_Some _ _ _ _) He) as [Hk Ho].
  assert (Hlt : (l < length (objects a))%nat) by (eapply lookup_lt_Some; exact Ho).
  unfold observe. rewrite (ethBalance_tracked k l info a He Hb).
  erewrite subscribe_entry by (eapply entry_set_object; exact He).
  unfold tracked. cbn. rewrite Hk.
  split; [|repeat split]. split; [reflexivity|].
  eexists. split.
  - apply list_lookup_insert_eq. rewrite length_insert. exact Hlt.
  - split; [reflexivity|]. cbn. rewrite Hc. reflexivity.
Qed.

Lemma observe_times_fresh (k : Address) (a : Arc) (n : nat) :
  account k (observedAccounts a) = None ->
  let a' := observe_times (S n) k a in
  tracked k (length (objects a)) (Z.of_nat (S n)) a'
  /\ observedAccounts a' = observedAccounts a ++ [(k, length (objects a))]
  /\ subscribers a' = subscribers a ++ replicate (S n) (fresh_subscriber k)
  /\ blockHeaderSubscription a' = true.
Proof.
  intros Hk. induction n as [|n IH].
  - apply observe_fresh. exact Hk.
  - destruct IH as (Ht & Hr & Hs & Hb).
    change (observe_times (S (S n)) k a) with (observe k (observe_times (S n) k a)).
    cbv zeta.
    destruct (observe_tracked _ _ _ _ Ht) as (Ht' & Hr' & Hs' & Hb').
    split; [|split; [|split]].
    + replace (Z.of_nat (S (S n))) with (Z.of_nat (S n) + 1) by lia. exact Ht'.
    + rewrite Hr'. exact Hr.
    + rewrite Hs', Hs, <- app_assoc. f_equal.
      change [fresh_subscriber k] with (replicate 1 (fresh_subscriber k)).
      rewrite <- replicate_add. f_equal. lia.
    + exact Hb'.
Qed.

Lemma unsubscribe_tracked (k : Address) (l : Loc) (c : Z) (s : SubscriberId) (a : Arc) :
  tracked k l c a -> listening k s a ->
  let a' := unsubscribe s a in
  (forall s', s' <> s -> subscribers a' !! s' = subscribers a !! s')
  /\ (1 < c -> tracked k l (c - 1) a' /\ observedAccounts a' = observedAccounts a)
  /\ (c <= 1 -> observedAccounts a' = delete_account k (observedAccounts a)).
Proof.
  intros Ht (sub & Hs & Hown & Hopen).
  destruct (tracked_entry _ _ _ _ Ht) as (info & He & Hb & Hc).
  pose proof (proj1 (entry_Some _ _ _ _) He) as [Hk Ho].
  assert (Hlt : (l < length (objects a))%nat) by (eapply lookup_lt_Some; exact Ho).
  unfold unsubscribe. rewrite Hs, Hopen, Hown. cbv zeta.
  unfold teardown, close, entry, set_subscribers. cbn [observedAccounts objects].
  rewrite Hk. cbn [mbind option_bind]. rewrite Ho. cbn [mbind option_bind].
  rewrite Hc. split; [|split].
  - intros s' Hne. cbn. apply list_lookup_insert_ne. congruence.
  - intros H1. destruct (Z.leb_spec (c - 1) 0) as [?|_]; [lia|]. cbn.
    split; [|reflexivity]. split; [exact Hk|].
    eexists. split; [apply list_lookup_insert_eq; exact Hlt|].
    split; [exact Hb | reflexivity].
  - intros H1. destruct (Z.leb_spec (c - 1) 0) as [_|?]; [|lia]. reflexivity.
Qed.

Lemma cancel_all_tracked (k : Address) (l : Loc) (handles : list SubscriberId) :
  forall a : Arc,
    NoDup handles -> handles <> [] ->
    tracked k l (Z.of_nat (length handles)) a ->
    (forall s, s ∈ handles -> listening k s a) ->
    observedAccounts (cancel_all handles a) = delete_account k (observedAccounts a).
Proof.
  induction handles as [|s rest IH]; intros a Hnd Hne Ht Hl; [contradiction|].
  apply NoDup_cons in Hnd. destruct Hnd as [Hnotin Hnd].
  destruct (unsubscribe_tracked k l _ s a Ht (Hl s (list_elem_of_here _ _)))
    as (Hsubs & Hmany & Hlast).
  change (cancel_all (s :: rest) a) with (cancel_all rest (unsubscribe s a)).
  destruct rest as [|s1 rest].
  - simpl. apply Hlast. simpl. lia.
  - destruct Hmany as [Ht' Hr']; [simpl length; lia|].
    rewrite IH.
    + rewrite Hr'. reflexivity.
    + exact Hnd.
    + discriminate.
    + replace (Z.of_nat (length (s1 :: rest)))
        with (Z.of_nat (length (s :: s1 :: rest)) - 1) by (simpl length; lia).
      exact Ht'.
    + intros s' Hin. destruct (Hl s' (list_elem_of_further _ _ _ Hin)) as (sub & H1 & H2 & H3).
      exists sub. split; [|split; assumption].
      rewrite Hsubs; [exact H1|]. intros ->. contradiction.
Qed.

Lemma feed_inv_cancel_all (handles : list SubscriberId) (a : Arc) :
  feed_inv a -> feed_inv (cancel_all handles a).
Proof.
  revert a. induction handles as [|s rest IH]; intros a H; [exact H|].
  apply IH, feed_inv_unsubscribe, H.
Qed.

Lemma feed_inv_observe_times (n : nat) (k : Address) (a : Arc) :
  feed_inv a -> feed_inv (observe_times n k a).
Proof.
  intros H. induction n as [|n IH]; [exact H|].
  apply feed_inv_observe, IH.
Qed.

Lemma feed_inv_empty (a : Arc) :
  feed_inv a -> observedAccounts a = [] ->
  blockHeaderSubscription a = false /\ liveFeeds a = 0%nat.
Proof.
  intros [Hl Hr] He. destruct (blockHeaderSubscription a).
  - exfalso. apply Hr; [reflexivity | exact He].
  - split; [reflexivity | exact Hl].
Qed.

(** *** Every registered key has its entry object *)

Lemma registry_wf_ext (a b : Arc) :
  observedAccounts b = observedAccounts a ->
  length (objects b) = length (objects a) ->
  registry_wf a -> registry_wf b.
Proof. unfold registry_wf. intros -> ->. exact id. Qed.

Lemma registry_wf_set_object (l : Loc) (info : AccInfo) (a : Arc) :
  registry_wf a -> registry_wf (set_object l info a).
Proof. apply registry_wf_ext; [reflexivity|]. apply length_insert. Qed.

Lemma registry_wf_ethBalance (k : Address) (a : Arc) :
  registry_wf a -> registry_wf (ethBalance k a).
Proof.
  intros H. unfold ethBalance.
  destruct (account k (observedAccounts a)) as [l|] eqn:Hk.
  - destruct (entry k a) as [[l' info]|]; [|exact H].
    destruct (observable info); apply registry_wf_set_object, H.
  - match goal with |- registry_wf (match entry k ?a1 with _ => _ end) =>
      assert (H1 : registry_wf a1) end.
    { intros k' l'. cbn [observedAccounts objects]. rewrite account_app, length_app.
      destruct (account k' (observedAccounts a)) as [x|] eqn:Hk'.
      - intros E. inversion E. subst. specialize (H _ _ Hk'). lia.
      - destruct (String.eqb k k'); [|discriminate].
        intros E. inversion E. simpl. lia. }
    match goal with |- registry_wf (match ?e with _ => _ end) =>
      destruct e as [[l' info]|] end; [|exact H1].
    destruct (observable info); apply registry_wf_set_object, H1.
Qed.

Lemma registry_wf_subscribe (k : Address) (a : Arc) :
  registry_wf a -> registry_wf (subscribe k a).
Proof.
  unfold subscribe. destruct (entry k a) as [[l info]|].
  - apply registry_wf_ext; [reflexivity|]. apply length_insert.
  - apply registry_wf_ext; reflexivity.
Qed.

Lemma account_delete_Some (k k' : Address) (l : Loc) (reg : list (Address * Loc)) :
  account k' (delete_account k reg) = Some l -> account k' reg = Some l.
Proof.
  destruct (String.eqb_spec k k') as [->|Hne].
  - rewrite account_delete_same. discriminate.
  - rewrite (account_delete_other k k' reg Hne). exact id.
Qed.

Lemma registry_wf_teardown (k : Address) (a : Arc) :
  registry_wf a -> registry_wf (teardown k a).
Proof.
  intros H. unfold teardown. destruct (entry k a) as [[l info]|]; [|exact H].
  intros k' l'. cbn [observedAccounts objects]. rewrite length_insert.
  destruct (Z.leb _ _); intros E; [apply account_delete_Some in E|]; eapply H; exact E.
Qed.

Lemma registry_wf_set_subscribers (subs : list Subscriber) (a : Arc) :
  registry_wf a -> registry_wf (set_subscribers subs a).
Proof. apply registry_wf_ext; reflexivity. Qed.

Lemma registry_wf_unsubscribe (s : SubscriberId) (a : Arc) :
  registry_wf a -> registry_wf (unsubscribe s a).
Proof.
  intros H. unfold unsubscribe.
  destruct (subscribers a !! s) as [sub|]; [|exact H].
  destruct (sub_closed sub); [exact H|].
  apply registry_wf_teardown, registry_wf_set_subscribers, H.
Qed.

Lemma registry_wf_observer_next (s : SubscriberId) (b : Z) (a : Arc) :
  registry_wf a -> registry_wf (observer_next s b a).
Proof.
  intros H. unfold observer_next.
  destruct (subscribers a !! s) as [sub|]; [|exact H].
  destruct (sub_closed sub); [exact H|].
  apply registry_wf_set_subscribers, H.
Qed.

Lemma registry_wf_observer_error (s : SubscriberId) (e : string) (a : Arc) :
  registry_wf a -> registry_wf (observer_error s e a).
Proof.
  intros H. unfold observer_error.
  destruct (subscribers a !! s) as [sub|]; [|exact H].
  destruct (sub_closed sub); [exact H|].
  apply registry_wf_teardown, registry_wf_set_subscribers, H.
Qed.

Lemma registry_wf_set_lastBalance (l : Loc) (b : Z) (a : Arc) :
  registry_wf a -> registry_wf (set_lastBalance l b a).
Proof.
  unfold set_lastBalance. destruct (objects a !! l); [|exact id].
  apply registry_wf_set_object.
Qed.

Lemma registry_wf_fulfil (i : nat) (b : Z) (a : Arc) :
  registry_wf a -> registry_wf (fulfil i b a).
Proof.
  intros H. unfold fulfil.
  destruct (reads a !! i) as [r|]; [|exact H].
  set (a1 := set_reads _ a).
  assert (H1 : registry_wf a1) by (revert H; apply registry_wf_ext; reflexivity).
  destruct r as [owner | addr [l|]]; simpl.
  - unfold seed_fulfilled. destruct (entry owner a1) as [[l info]|]; [|exact H1].
    destruct (observer info); [|exact H1].
    apply registry_wf_set_lastBalance, registry_wf_observer_next, H1.
  - repeat case_match; try exact H1.
    apply registry_wf_set_lastBalance, registry_wf_observer_next, H1.
  - exact H1.
Qed.

Lemma registry_wf_tick_errors (e : string) (keys : list Address) (a : Arc) :
  registry_wf a -> registry_wf (tick_errors e keys a).
Proof.
  revert a. induction keys as [|k keys IH]; intros a H; simpl; [exact H|].
  destruct (entry k a) as [[l info]|]; [|exact H].
  destruct (observer info); [|exact H].
  apply IH, registry_wf_observer_error, H.
Qed.

Lemma registry_wf_newBlockHeaders (err : option string) (a : Arc) :
  registry_wf a -> registry_wf (newBlockHeaders err a).
Proof.
  intros H. unfold newBlockHeaders.
  destruct (blockHeaderSubscription a); [|exact H].
  destruct err as [e|].
  - apply registry_wf_tick_errors, H.
  - rewrite tick_reads_eq. revert H. apply registry_wf_ext; reflexivity.
Qed.

Lemma registry_wf_step (a : Arc) (e : Event) : registry_wf a -> registry_wf (step a e).
Proof.
  destruct e; simpl.
  - apply registry_wf_ethBalance.
  - apply registry_wf_subscribe.
  - apply registry_wf_unsubscribe.
  - apply registry_wf_fulfil.
  - apply registry_wf_newBlockHeaders.
Qed.

Lemma registry_wf_run (es : list Event) (a : Arc) :
  registry_wf a -> registry_wf (run es a).
Proof.
  revert a. induction es as [|e es IH]; intros a H; simpl; [exact H|].
  apply IH, registry_wf_step, H.
Qed.

Lemma registry_bound (es : list Event) (k : Address) (l : Loc) :
  account k (observedAccounts (run es init)) = Some l ->
  (l < length (objects (run es init)))%nat.
Proof. apply registry_wf_run. intros k' l' H. discriminate H. Qed.

(** X1. In every state the multiplexer can reach, at most one block-header
    feed is live, it is the one the field [blockHeaderSubscription] holds,
    and it is only live while some account is observed.  The feed is started
    lazily: a call of [ethBalance] never starts one, the subscription to the
    observable of a registered key does. *)
Theorem feed_is_unique_and_lazy (es : list Event) (k : Address) :
  let a := run es init in
  (liveFeeds a <= 1)%nat
  /\ (blockHeaderSubscription a = true <-> liveFeeds a = 1%nat)
  /\ (blockHeaderSubscription a = true -> observedAccounts a <> [])
  /\ liveFeeds (ethBalance k a) = liveFeeds a
  /\ liveFeeds (observe k a) = 1%nat.
Proof.
  intros a.
  assert (Hinv : feed_inv a) by apply feed_inv_run, feed_inv_init.
  split; [|split; [|split; [|split]]].
  - destruct Hinv as [-> _]. destruct (blockHeaderSubscription a); lia.
  - destruct Hinv as [-> _]. destruct (blockHeaderSubscription a); split; congruence.
  - apply Hinv.
  - unfold ethBalance. repeat case_match; reflexivity.
  - destruct (feed_inv_observe k a Hinv) as [Hl _].
    assert (Hb : blockHeaderSubscription (observe k a) = true).
    { destruct (account k (observedAccounts a)) as [l|] eqn:Hk.
      - unfold observe, subscribe.
        destruct (entry k (ethBalance k a)) as [[l' info]|] eqn:He; [reflexivity|].
        exfalso. revert He. unfold ethBalance. rewrite Hk.
        destruct (entry k a) as [[l1 info1]|] eqn:He1.
        + destruct (observable info1);
            erewrite entry_set_object by exact He1; discriminate.
        + (* the registry names a location that holds no object *)
          intros _. unfold entry in He1. rewrite Hk in He1. cbn in He1.
          destruct (objects a !! l) eqn:Ho; [discriminate|].
          pose proof (registry_bound es k l) as Hlt.
          apply lookup_ge_None in Ho. specialize (Hlt Hk). fold a in Hlt. lia.
      - apply (observe_fresh k a Hk). }
    rewrite Hb in Hl. exact Hl.
Qed.

(** X2. Reference counting: after [n > 0] calls of [observe] on a key that
    was not observed, followed by the cancels of the [n] handles they
    returned, in any order, the registry has no entry for the key; every
    other key keeps its entry, and if there was no other key the feed is
    stopped and discarded. *)
Theorem observes_then_cancels
    (es : list Event) (k : Address) (n : nat) (handles : list SubscriberId) :
  let a := run es init in
  account k (observedAccounts a) = None ->
  (0 < n)%nat ->
  handles ≡ₚ seq (length (subscribers a)) n ->
  let a' := cancel_all handles (observe_times n k a) in
  observedAccounts a' = observedAccounts a
  /\ (liveFeeds a' <= 1)%nat
  /\ (observedAccounts a = [] ->
        blockHeaderSubscription a' = false /\ liveFeeds a' = 0%nat).
Proof.
  intros a Hk Hn Hperm a'.
  assert (Hinv : feed_inv a) by apply feed_inv_run, feed_inv_init.
  destruct n as [|m]; [lia|].
  destruct (observe_times_fresh k a m Hk) as (Ht & Hr & Hs & _).
  assert (Hinv' : feed_inv a')
    by apply feed_inv_cancel_all, feed_inv_observe_times, Hinv.
  assert (Hreg : observedAccounts a' = observedAccounts a).
  { unfold a'. rewrite (cancel_all_tracked k (length (objects a))).
    - rewrite Hr, delete_account_app, (delete_account_absent k _ Hk).
      unfold delete_account. simpl. rewrite String.eqb_refl. simpl.
      apply app_nil_r.
    - rewrite Hperm. apply NoDup_seq.
    - intros E. rewrite E in Hperm. apply Permutation_nil_l in Hperm. discriminate.
    - rewrite Hperm, length_seq. exact Ht.
    - intros s Hin. rewrite Hperm in Hin. apply elem_of_seq in Hin.
      exists (fresh_subscriber k). split; [|split; reflexivity].
      rewrite Hs, lookup_app_r by lia.
      apply lookup_replicate_2. lia. }
  split; [exact Hreg|]. split.
  - destruct Hinv' as [-> _]. destruct (blockHeaderSubscription a'); lia.
  - intros He. rewrite He in Hreg. apply feed_inv_empty; assumption.
Qed.

Lemma observes_then_cancels_witness :
  let a' := cancel_all [1%nat; 0%nat] (observe_times 2 "0xa11ce" init) in
  observedAccounts a' = []
  /\ blockHeaderSubscription a' = false
  /\ liveFeeds a' = 0%nat.
Proof.
  destruct (observes_then_cancels [] "0xa11ce" 2 [1%nat; 0%nat]) as (Hr & _ & He).
  - reflexivity.
  - lia.
  - apply perm_swap.
  - split; [exact Hr|]. apply He. reflexivity.
Defined.

(** *** Joining an existing entry *)

Lemma observe_existing (k : Address) (l : Loc) (info : AccInfo) (a : Arc) :
  entry k a = Some (l, info) -> observable info = true ->
  observe k a
  = {| observedAccounts := observedAccounts a;
       objects := <[l := {| observable := true;
                            observer := Some (length (subscribers a));
                            lastBalance := lastBalance info;
                            subscriptionsCount := subscriptionsCount info + 1 |}]>
                    (objects a);
       blockHeaderSubscription := true;
       liveFeeds := if blockHeaderSubscription a then liveFeeds a else S (liveFeeds a);
       subscribers := subscribers a ++ [fresh_subscriber k];
       reads := reads a ++ [SeedRead k] |}.
Proof.
  intros He Hb. unfold observe. rewrite (ethBalance_tracked k l info a He Hb).
  erewrite subscribe_entry by (eapply entry_set_object; exact He).
  unfold set_object. cbn. rewrite list_insert_insert_eq. reflexivity.
Qed.

Lemma fulfil_last (r : Read) (b : Z) (a : Arc) (rs : list Read) :
  reads a = rs ++ [r] ->
  fulfil (length rs) b a
  = match r with
    | SeedRead owner => seed_fulfilled owner b (set_reads rs a)
    | TickRead _ accInfo => tick_fulfilled accInfo b (set_reads rs a)
    end.
Proof.
  intros Hr. unfold fulfil. rewrite Hr.
  rewrite list_lookup_middle by reflexivity.
  rewrite take_app_length, drop_ge, app_nil_r by (rewrite length_app; simpl; lia).
  reflexivity.
Qed.

Lemma received_hand (s : SubscriberId) (sub : Subscriber) (n : Notification) (a : Arc) :
  subscribers a !! s = Some sub ->
  received s (hand s sub n a) = sub_received sub ++ [n].
Proof.
  intros Hs. unfold received, hand. cbn.
  rewrite list_lookup_insert_eq by (eapply lookup_lt_Some; exact Hs). reflexivity.
Qed.

Lemma received_set_lastBalance (s : SubscriberId) (l : Loc) (b : Z) (a : Arc) :
  received s (set_lastBalance l b a) = received s a.
Proof. unfold set_lastBalance. destruct (objects a !! l); reflexivity. Qed.

Lemma entry_set_reads (k : Address) (rs : list Read) (a : Arc) :
  entry k (set_reads rs a) = entry k a.
Proof. reflexivity. Qed.

(** When the seed read of [k] fulfils, the subscriber that is the observer
    of the entry of [k] at that moment, if it is open, is handed the
    balance, whatever balance the entry held, and the entry holds it
    afterwards. *)
Lemma seed_read_fulfils
    (b : Arc) (k : Address) (i : nat) (l : Loc) (info : AccInfo)
    (s : SubscriberId) (sub : Subscriber) (current : Z) :
  reads b !! i = Some (SeedRead k) ->
  entry k b = Some (l, info) ->
  observer info = Some s ->
  subscribers b !! s = Some sub ->
  sub_closed sub = false ->
  let b' := run [Fulfil i current] b in
  received s b' = sub_received sub ++ [Next current]
  /\ entry k b' = Some (l, {| observable := observable info; observer := Some s;
                              lastBalance := Some current;
                              subscriptionsCount := subscriptionsCount info |}).
Proof.
  intros Hr He Hobs Hs Hopen b'.
  pose proof (proj1 (entry_Some _ _ _ _) He) as [Hk Ho].
  assert (Hlt : (l < length (objects b))%nat) by (eapply lookup_lt_Some; exact Ho).
  set (b1 := set_reads (List.firstn i (reads b) ++ List.skipn (S i) (reads b)) b).
  assert (Hb' : b' = set_lastBalance l current (hand s sub (Next current) b1)).
  { unfold b', run. cbn [fold_left step]. unfold fulfil. rewrite Hr. fold b1.
    unfold seed_fulfilled, b1. rewrite entry_set_reads, He, Hobs. fold b1.
    unfold observer_next.
    change (subscribers b1) with (subscribers b). rewrite Hs, Hopen. reflexivity. }
  clearbody b'. subst b'. split.
  - rewrite received_set_lastBalance. apply (received_hand s sub). exact Hs.
  - apply entry_Some. unfold set_lastBalance, hand.
    cbn [set_subscribers objects observedAccounts b1 set_reads].
    rewrite Ho. unfold set_object. cbn [objects observedAccounts].
    split; [exact Hk|]. rewrite Hobs. apply list_lookup_insert_eq. exact Hlt.
Qed.

(** X3. A subscriber that joins a key whose entry already holds a balance
    becomes the observer of the entry and issues a seed read of its own.
    Whenever a seed read of the key fulfils, the subscriber that is the
    observer of the entry at that moment (the one that joined last), if it
    is open, is handed the balance read, without any tick of the feed and
    also when the balance equals the stored one, and the entry then holds
    that balance.  In particular a late subscriber whose read fulfils before
    anything else happens is handed exactly that balance. *)
Theorem late_subscriber_is_seeded
    (a : Arc) (k : Address) (l : Loc) (info : AccInfo) (stored current : Z) :
  entry k a = Some (l, info) ->
  observable info = true ->
  lastBalance info = Some stored ->
  let s := length (subscribers a) in
  let joined := run [CallEthBalance k; Subscribe k] a in
  let seeded := run [Fulfil (length (reads a)) current] joined in
  listening k s joined
  /\ received s seeded = [Next current]
  /\ (current = stored -> received s seeded = [Next stored])
  /\ entry k seeded
     = Some (l, {| observable := true; observer := Some s;
                   lastBalance := Some current;
                   subscriptionsCount := subscriptionsCount info + 1 |})
  /\ reads joined = reads a ++ [SeedRead k]
  /\ entry k joined
     = Some (l, {| observable := true; observer := Some s;
                   lastBalance := Some stored;
                   subscriptionsCount := subscriptionsCount info + 1 |})
  /\ (forall (b : Arc) (i : nat) (l' : Loc) (info' : AccInfo)
             (s' : SubscriberId) (sub : Subscriber),
        reads b !! i = Some (SeedRead k) ->
        entry k b = Some (l', info') ->
        observer info' = Some s' ->
        subscribers b !! s' = Some sub ->
        sub_closed sub = false ->
        let b' := run [Fulfil i current] b in
        received s' b' = sub_received sub ++ [Next current]
        /\ entry k b' = Some (l', {| observable := observable info'; observer := Some s';
                                     lastBalance := Some current;
                                     subscriptionsCount := subscriptionsCount info' |})).
Proof.
  intros He Hb Hlast s joined seeded.
  pose proof (proj1 (entry_Some _ _ _ _) He) as [Hk Ho].
  assert (Hlt : (l < length (objects a))%nat) by (eapply lookup_lt_Some; exact Ho).
  assert (Hj : joined = observe k a) by reflexivity.
  rewrite (observe_existing k l info a He Hb) in Hj.
  clearbody joined.
  assert (Hsub : subscribers joined !! s = Some (fresh_subscriber k)).
  { rewrite Hj. cbn. apply list_lookup_middle. reflexivity. }
  assert (Hej : entry k joined
                = Some (l, {| observable := true; observer := Some s;
                              lastBalance := Some stored;
                              subscriptionsCount := subscriptionsCount info + 1 |})).
  { apply entry_Some. rewrite Hj. cbn. split; [exact Hk|]. rewrite Hlast.
    apply list_lookup_insert_eq. exact Hlt. }
  assert (Hrd : reads joined = reads a ++ [SeedRead k]) by (rewrite Hj; reflexivity).
  assert (Hri : reads joined !! length (reads a) = Some (SeedRead k)).
  { rewrite Hrd. apply list_lookup_middle. reflexivity. }
  destruct (seed_read_fulfils joined k (length (reads a)) l _ s (fresh_subscriber k)
              current Hri Hej eq_refl Hsub eq_refl) as [Hrecv Hes].
  fold seeded in Hrecv, Hes. clearbody seeded.
  split; [|split; [|split; [|split; [|split; [|split]]]]].
  - exists (fresh_subscriber k). split; [exact Hsub | split; reflexivity].
  - exact Hrecv.
  - intros <-. exact Hrecv.
  - exact Hes.
  - exact Hrd.
  - exact Hej.
  - intros b i l' info' s' sub. apply seed_read_fulfils.
Qed.

Lemma late_subscriber_is_seeded_witness :
  let a := run [CallEthBalance "0xa11ce"; Subscribe "0xa11ce"; Fulfil 0 7] init in
  received 1 (run [CallEthBalance "0xa11ce"; Subscribe "0xa11ce"; Fulfil 0 7] a)
  = [Next 7].
Proof.
  intros a.
  exact (proj1 (proj2 (late_subscriber_is_seeded a "0xa11ce" 0
                         {| observable := true; observer := Some 0%nat;
                            lastBalance := Some 7; subscriptionsCount := 1 |}
                         7 7 eq_refl eq_refl eq_refl))).
Defined.

(** *** Ticks of the feed *)

(** A tick without error issues one read per key of the registry, in the
    order of the keys, each bound to the entry of its key. *)
Lemma newBlockHeaders_reads (a : Arc) :
  blockHeaderSubscription a = true ->
  newBlockHeaders None a
  = set_reads (reads a ++ List.map (fun k => TickRead k (account k (observedAccounts a)))
                            (List.map fst (observedAccounts a))) a.
Proof. intros Hb. unfold newBlockHeaders. rewrite Hb. apply tick_reads_eq. Qed.

Lemma account_registered (k : Address) (reg : list (Address * Loc)) :
  k ∈ List.map fst reg -> is_Some (account k reg).
Proof.
  induction reg as [|[k0 l0] reg IH]; simpl; intros Hin.
  - inversion Hin.
  - destruct (String.eqb_spec k0 k) as [->|Hne]; [eexists; reflexivity|].
    apply IH. inversion Hin; subst; [contradiction | assumption].
Qed.

(** When the read of a tick fulfils, the observer of the entry is handed the
    balance exactly when it differs from the stored one, which is then
    replaced; otherwise nothing changes. *)
Lemma tick_fulfilled_emits
    (l : Loc) (info : AccInfo) (s : SubscriberId) (sub : Subscriber) (b : Z) (a : Arc) :
  objects a !! l = Some info ->
  observer info = Some s ->
  subscribers a !! s = Some sub ->
  sub_closed sub = false ->
  let a' := tick_fulfilled (Some l) b a in
  (differs b (lastBalance info) = true ->
     received s a' = sub_received sub ++ [Next b]
     /\ objects a' !! l = Some {| observable := observable info; observer := Some s;
                                  lastBalance := Some b;
                                  subscriptionsCount := subscriptionsCount info |}
     /\ subscribers a' = <[s := {| sub_owner := sub_owner sub; sub_closed := false;
                                   sub_received := sub_received sub ++ [Next b] |}]>
                            (subscribers a)
     /\ observedAccounts a' = observedAccounts a
     /\ blockHeaderSubscription a' = blockHeaderSubscription a
     /\ reads a' = reads a)
  /\ (differs b (lastBalance info) = false -> a' = a).
Proof.
  intros Ho Hobs Hs Hopen a'. unfold a', tick_fulfilled. rewrite Ho, Hobs.
  assert (Hlt : (l < length (objects a))%nat) by (eapply lookup_lt_Some; exact Ho).
  split; intros Hd; rewrite Hd; [|reflexivity].
  unfold observer_next. rewrite Hs, Hopen.
  rewrite received_set_lastBalance, (received_hand s sub _ a Hs).
  unfold set_lastBalance, hand. cbn [set_subscribers objects]. rewrite Ho.
  unfold set_object. cbn. rewrite Hopen.
  repeat split. rewrite Hobs. apply list_lookup_insert_eq. exact Hlt.
Qed.

(** A subscriber other than the observer of the entry is handed nothing. *)
Lemma tick_fulfilled_others
    (l : Loc) (info : AccInfo) (s : SubscriberId) (b : Z) (a : Arc) :
  objects a !! l = Some info ->
  observer info <> Some s ->
  received s (tick_fulfilled (Some l) b a) = received s a.
Proof.
  intros Ho Hne. unfold tick_fulfilled. rewrite Ho.
  destruct (differs b (lastBalance info)); [|reflexivity].
  destruct (observer info) as [s'|]; [|reflexivity].
  rewrite received_set_lastBalance. unfold observer_next.
  destruct (subscribers a !! s') as [sub|]; [|reflexivity].
  destruct (sub_closed sub); [reflexivity|].
  unfold received, hand. cbn.
  rewrite list_lookup_insert_ne by congruence. reflexivity.
Qed.

Lemma set_reads_same (a : Arc) : set_reads (reads a) a = a.
Proof. destruct a; reflexivity. Qed.

Lemma tick_sole (k : Address) (l : Loc) (s : SubscriberId) (last : option Z) (b : Z) (a : Arc) :
  sole k l s last a ->
  let a' := run (tick (length (reads a)) b) a in
  sole k l s (if differs b last then Some b else last) a'
  /\ reads a' = reads a
  /\ received s a' = received s a ++ (if differs b last then [Next b] else []).
Proof.
  intros (Hreg & Hb & (info & Ho & Hobs & Hlast) & (sub & Hs & Hown & Hopen)) a'.
  assert (Ha' : a' = tick_fulfilled (Some l) b a).
  { unfold a', tick, run. cbn [fold_left step].
    rewrite (newBlockHeaders_reads a Hb), Hreg. cbn [List.map fst account].
    rewrite String.eqb_refl.
    rewrite (fulfil_last (TickRead k (Some l)) b _ (reads a)) by reflexivity.
    unfold set_reads at 1. cbn. fold (set_reads (reads a) a).
    rewrite set_reads_same. reflexivity. }
  clearbody a'. subst a'.
  destruct (tick_fulfilled_emits l info s sub b a Ho Hobs Hs Hopen) as [Hyes Hno].
  rewrite <- Hlast. destruct (differs b (lastBalance info)) eqn:Hd.
  - destruct (Hyes eq_refl) as (Hr & Ho' & Hs' & Hreg' & Hb' & Hrd').
    split; [|split; [exact Hrd'|]].
    + split; [rewrite Hreg'; exact Hreg|]. split; [rewrite Hb'; exact Hb|]. split.
      * eexists. split; [exact Ho'|]. split; reflexivity.
      * eexists. split; [|split].
        -- rewrite Hs'. apply list_lookup_insert_eq. eapply lookup_lt_Some. exact Hs.
        -- exact Hown.
        -- reflexivity.
    + rewrite Hr. unfold received. rewrite Hs. reflexivity.
  - rewrite (Hno eq_refl). split; [|split; [reflexivity|]].
    + split; [exact Hreg|]. split; [exact Hb|]. split.
      * exists info. split; [exact Ho|]. split; [exact Hobs | reflexivity].
      * exists sub. split; [exact Hs|]. split; assumption.
    + rewrite app_nil_r. reflexivity.
Qed.

(** Dedup on change: over any sequence of ticks, the only listener of the
    only key is handed the balances that differ from their predecessor, in
    order, and nothing else. *)
Lemma ticks_sole (k : Address) (l : Loc) (s : SubscriberId) (balances : list Z) :
  forall (last : option Z) (a : Arc),
    sole k l s last a ->
    let a' := run (ticks (length (reads a)) balances) a in
    sole k l s (last_read last balances) a'
    /\ reads a' = reads a
    /\ received s a' = received s a ++ List.map Next (changes last balances).
Proof.
  induction balances as [|b balances IH]; intros last a Hsole.
  - cbn. rewrite app_nil_r. split; [exact Hsole|]. split; reflexivity.
  - destruct (tick_sole k l s last b a Hsole) as (Hsole1 & Hr1 & Hrecv1).
    set (a1 := run (tick (length (reads a)) b) a) in *.
    destruct (IH _ a1 Hsole1) as (Hsole2 & Hr2 & Hrecv2).
    rewrite Hr1 in Hsole2, Hr2, Hrecv2.
    assert (Hrun : run (ticks (length (reads a)) (b :: balances)) a
                   = run (ticks (length (reads a)) balances) a1).
    { unfold ticks, run. cbn [flat_map]. rewrite fold_left_app. reflexivity. }
    cbv zeta. rewrite Hrun. cbn [changes last_read fold_left].
    destruct (differs b last) eqn:Hd.
    + split; [exact Hsole2|]. split; [exact Hr2|].
      rewrite Hrecv2, Hrecv1, <- app_assoc. reflexivity.
    + assert (Hl : Some b = last).
      { destruct last as [x|]; [|discriminate]. simpl in Hd.
        apply negb_false_iff, Z.eqb_eq in Hd. congruence. }
      rewrite Hl. split; [exact Hsole2|]. split; [exact Hr2|].
      rewrite Hrecv2, Hrecv1, app_nil_r. reflexivity.
Qed.

(** No balance is handed over twice in a row. *)
Lemma changes_differ (balances : list Z) :
  forall (last : option Z) (i : nat) (x y : Z),
    (changes last balances !! 0%nat = Some x -> last <> Some x)
    /\ (changes last balances !! i = Some x ->
        changes last balances !! S i = Some y -> x <> y).
Proof.
  induction balances as [|b balances IH]; intros last i x y; cbn [changes].
  - split; intros H; inversion H.
  - destruct (differs b last) eqn:Hd.
    + split.
      * cbn. intros H. inversion H. subst. intros E. rewrite E in Hd.
        simpl in Hd. rewrite Z.eqb_refl in Hd. discriminate.
      * destruct i as [|i]; cbn.
        -- intros H1 H2. inversion H1. subst.
           intros E. subst. apply (proj1 (IH (Some y) 0%nat y y) H2). reflexivity.
        -- apply (IH (Some b) i x y).
    + apply IH.
Qed.

Lemma seeded_sole (seed : Z) :
  let a := run [CallEthBalance "0xa11ce"; Subscribe "0xa11ce"; Fulfil 0 seed] init in
  sole "0xa11ce" 0 0 (Some seed) a /\ reads a = [] /\ received 0 a = [Next seed].
Proof.
  cbv zeta. split; [|split; reflexivity].
  split; [reflexivity|]. split; [reflexivity|]. split.
  - eexists. split; [reflexivity|]. split; reflexivity.
  - eexists. split; [reflexivity|]. split; reflexivity.
Qed.

(** *** Who can be handed a notification *)

Lemma unobserved_insert (s : SubscriberId) (l : Loc) (info' : AccInfo) (a b : Arc) :
  objects b = <[l := info']> (objects a) ->
  observer info' <> Some s ->
  unobserved s a -> unobserved s b.
Proof.
  intros Hb Hne H l' info0. rewrite Hb. intros Hl.
  apply list_lookup_insert_Some in Hl.
  destruct Hl as [(_ & <- & _) | (_ & Hl)]; [exact Hne | eapply H; exact Hl].
Qed.

Lemma unobserved_same_objects (s : SubscriberId) (a b : Arc) :
  objects b = objects a -> unobserved s a -> unobserved s b.
Proof. unfold unobserved. intros ->. exact id. Qed.

Lemma unobserved_entry (s : SubscriberId) (k : Address) (l : Loc) (info : AccInfo) (a : Arc) :
  unobserved s a -> entry k a = Some (l, info) -> observer info <> Some s.
Proof. intros H He. apply entry_Some in He. destruct He as [_ Ho]. eapply H. exact Ho. Qed.

Lemma unobserved_ethBalance (s : SubscriberId) (k : Address) (a : Arc) :
  unobserved s a -> unobserved s (ethBalance k a).
Proof.
  intros H. unfold ethBalance.
  destruct (account k (observedAccounts a)) as [l|] eqn:Hk.
  - destruct (entry k a) as [[l' info]|] eqn:He; [|exact H].
    pose proof (unobserved_entry s k l' info a H He) as Hne.
    destruct (observable info); (eapply unobserved_insert; [reflexivity | exact Hne | exact H]).
  - match goal with |- unobserved s (match entry k ?a1 with _ => _ end) =>
      assert (H1 : unobserved s a1) end.
    { intros l' info'. cbn [objects]. intros Hl. apply lookup_app_Some in Hl.
      destruct Hl as [Hl | [_ Hl]]; [eapply H; exact Hl|].
      apply list_lookup_singleton_Some in Hl. destruct Hl as [_ <-]. discriminate. }
    match goal with |- unobserved s (match ?e with _ => _ end) =>
      destruct e as [[l' info]|] eqn:He end; [|exact H1].
    match type of He with entry k ?a1 = _ =>
      pose proof (unobserved_entry s k l' info a1 H1 He) as Hne end.
    destruct (observable info); (eapply unobserved_insert; [reflexivity | exact Hne | exact H1]).
Qed.

Lemma subscribers_ethBalance (k : Address) (a : Arc) :
  subscribers (ethBalance k a) = subscribers a.
Proof. unfold ethBalance. repeat case_match; reflexivity. Qed.

Lemma unobserved_subscribe (s : SubscriberId) (k : Address) (a : Arc) :
  (s < length (subscribers a))%nat ->
  unobserved s a -> unobserved s (subscribe k a).
Proof.
  intros Hlt H. unfold subscribe. destruct (entry k a) as [[l info]|]; [|exact H].
  eapply unobserved_insert; [reflexivity | | exact H].
  cbn. intros E. inversion E. lia.
Qed.

Lemma subscribers_subscribe (s : SubscriberId) (k : Address) (a : Arc) :
  (s < length (subscribers a))%nat ->
  subscribers (subscribe k a) !! s = subscribers a !! s.
Proof.
  intros Hlt. unfold subscribe. destruct (entry k a) as [[l info]|]; cbn;
    apply lookup_app_l; exact Hlt.
Qed.

Lemma unobserved_teardown (s : SubscriberId) (k : Address) (a : Arc) :
  unobserved s a -> unobserved s (teardown k a).
Proof.
  intros H. unfold teardown. destruct (entry k a) as [[l info]|] eqn:He; [|exact H].
  eapply unobserved_insert; [reflexivity | | exact H].
  cbn. eapply unobserved_entry; [exact H | exact He].
Qed.

Lemma subscribers_teardown (k : Address) (a : Arc) :
  subscribers (teardown k a) = subscribers a.
Proof. unfold teardown. destruct (entry k a) as [[l info]|]; reflexivity. Qed.

Lemma unobserved_set_lastBalance (s : SubscriberId) (l : Loc) (b : Z) (a : Arc) :
  unobserved s a -> unobserved s (set_lastBalance l b a).
Proof.
  intros H. unfold set_lastBalance. destruct (objects a !! l) as [info|] eqn:Ho; [|exact H].
  eapply unobserved_insert; [reflexivity | | exact H]. cbn. eapply H. exact Ho.
Qed.

Lemma subscribers_set_lastBalance (l : Loc) (b : Z) (a : Arc) :
  subscribers (set_lastBalance l b a) = subscribers a.
Proof. unfold set_lastBalance. destruct (objects a !! l); reflexivity. Qed.

(** A subscriber is untouched by a notification unless it is open and the
    notification is addressed to it. *)
Lemma subscribers_observer_next (s s' : SubscriberId) (sub : Subscriber) (b : Z) (a : Arc) :
  subscribers a !! s = Some sub ->
  sub_closed sub = true \/ s' <> s ->
  subscribers (observer_next s' b a) !! s = Some sub.
Proof.
  intros Hs Hq. unfold observer_next.
  destruct (subscribers a !! s') as [sub'|] eqn:Hs'; [|exact Hs].
  destruct (sub_closed sub') eqn:Hc; [exact Hs|].
  assert (Hne : s' <> s).
  { destruct Hq as [Hq|Hq]; [|exact Hq]. intros ->. congruence. }
  unfold hand. cbn. rewrite list_lookup_insert_ne by exact Hne. exact Hs.
Qed.

Lemma subscribers_observer_error (s s' : SubscriberId) (sub : Subscriber) (e : string) (a : Arc) :
  subscribers a !! s = Some sub ->
  sub_closed sub = true \/ s' <> s ->
  subscribers (observer_error s' e a) !! s = Some sub.
Proof.
  intros Hs Hq. unfold observer_error.
  destruct (subscribers a !! s') as [sub'|] eqn:Hs'; [|exact Hs].
  destruct (sub_closed sub') eqn:Hc; [exact Hs|].
  assert (Hne : s' <> s).
  { destruct Hq as [Hq|Hq]; [|exact Hq]. intros ->. congruence. }
  rewrite subscribers_teardown. cbn.
  rewrite list_lookup_insert_ne by exact Hne. exact Hs.
Qed.

Lemma unobserved_observer_next (s s' : SubscriberId) (b : Z) (a : Arc) :
  unobserved s a -> unobserved s (observer_next s' b a).
Proof.
  unfold observer_next. destruct (subscribers a !! s') as [sub'|]; [|exact id].
  destruct (sub_closed sub'); [exact id|]. apply unobserved_same_objects. reflexivity.
Qed.

Lemma unobserved_observer_error (s s' : SubscriberId) (e : string) (a : Arc) :
  unobserved s a -> unobserved s (observer_error s' e a).
Proof.
  unfold observer_error. destruct (subscribers a !! s') as [sub'|]; [|exact id].
  destruct (sub_closed sub'); [exact id|]. intros H.
  apply unobserved_teardown. revert H. apply unobserved_same_objects. reflexivity.
Qed.

Lemma unobserved_unsubscribe (s s' : SubscriberId) (a : Arc) :
  unobserved s a -> unobserved s (unsubscribe s' a).
Proof.
  unfold unsubscribe. destruct (subscribers a !! s') as [sub'|]; [|exact id].
  destruct (sub_closed sub'); [exact id|]. intros H.
  apply unobserved_teardown. revert H. apply unobserved_same_objects. reflexivity.
Qed.

Lemma subscribers_unsubscribe_other (s s' : SubscriberId) (a : Arc) :
  s' <> s -> subscribers (unsubscribe s' a) !! s = subscribers a !! s.
Proof.
  intros Hne. unfold unsubscribe.
  destruct (subscribers a !! s') as [sub'|]; [|reflexivity].
  destruct (sub_closed sub'); [reflexivity|].
  rewrite subscribers_teardown. cbn. apply list_lookup_insert_ne. exact Hne.
Qed.

Lemma unsubscribe_closed (s : SubscriberId) (sub : Subscriber) (a : Arc) :
  subscribers a !! s = Some sub -> sub_closed sub = true -> unsubscribe s a = a.
Proof. intros Hs Hc. unfold unsubscribe. rewrite Hs, Hc. reflexivity. Qed.

Lemma unsubscribe_open (s : SubscriberId) (sub : Subscriber) (a : Arc) :
  subscribers a !! s = Some sub -> sub_closed sub = false ->
  subscribers (unsubscribe s a) !! s
  = Some {| sub_owner := sub_owner sub; sub_closed := true;
            sub_received := sub_received sub |}.
Proof.
  intros Hs Hc. unfold unsubscribe. rewrite Hs, Hc, subscribers_teardown. cbn.
  apply list_lookup_insert_eq. eapply lookup_lt_Some. exact Hs.
Qed.

(** The state of a subscriber that is closed, or that no entry names as its
    observer, survives every fulfilled read and every tick. *)
Lemma subscribers_fulfil (s : SubscriberId) (sub : Subscriber) (i : nat) (b : Z) (a : Arc) :
  subscribers a !! s = Some sub ->
  sub_closed sub = true \/ unobserved s a ->
  subscribers (fulfil i b a) !! s = Some sub.
Proof.
  intros Hs Hq. unfold fulfil.
  destruct (reads a !! i) as [r|]; [|exact Hs].
  set (a1 := set_reads _ a).
  assert (Hs1 : subscribers a1 !! s = Some sub) by exact Hs.
  assert (Hq1 : sub_closed sub = true \/ unobserved s a1) by exact Hq.
  clearbody a1.
  assert (Hobs : forall l info s',
             objects a1 !! l = Some info -> observer info = Some s' ->
             sub_closed sub = true \/ s' <> s).
  { intros l info s' Ho Hobs. destruct Hq1 as [Hc|Hu]; [left; exact Hc|].
    right. intros ->. eapply Hu; eassumption. }
  destruct r as [owner | addr [l|]]; cbn [fulfil].
  - unfold seed_fulfilled. destruct (entry owner a1) as [[l info]|] eqn:He; [|exact Hs1].
    destruct (observer info) as [s'|] eqn:Ho; [|exact Hs1].
    rewrite subscribers_set_lastBalance. apply subscribers_observer_next; [exact Hs1|].
    apply entry_Some in He. destruct He as [_ He]. eapply Hobs; eassumption.
  - unfold tick_fulfilled. destruct (objects a1 !! l) as [info|] eqn:He; [|exact Hs1].
    destruct (differs b (lastBalance info)); [|exact Hs1].
    destruct (observer info) as [s'|] eqn:Ho; [|exact Hs1].
    rewrite subscribers_set_lastBalance. apply subscribers_observer_next; [exact Hs1|].
    eapply Hobs; eassumption.
  - exact Hs1.
Qed.

Lemma unobserved_fulfil (s : SubscriberId) (i : nat) (b : Z) (a : Arc) :
  unobserved s a -> unobserved s (fulfil i b a).
Proof.
  intros H. unfold fulfil.
  destruct (reads a !! i) as [r|]; [|exact H].
  set (a1 := set_reads _ a).
  assert (H1 : unobserved s a1) by exact H. clearbody a1.
  destruct r as [owner | addr [l|]].
  - unfold seed_fulfilled. destruct (entry owner a1) as [[l info]|]; [|exact H1].
    destruct (observer info); [|exact H1].
    apply unobserved_set_lastBalance, unobserved_observer_next, H1.
  - unfold tick_fulfilled. repeat case_match; try exact H1.
    apply unobserved_set_lastBalance, unobserved_observer_next, H1.
  - exact H1.
Qed.

Lemma subscribers_tick_errors (s : SubscriberId) (sub : Subscriber) (e : string)
    (keys : list Address) :
  forall a : Arc,
    subscribers a !! s = Some sub ->
    sub_closed sub = true \/ unobserved s a ->
    subscribers (tick_errors e keys a) !! s = Some sub.
Proof.
  induction keys as [|k keys IH]; intros a Hs Hq; cbn [tick_errors]; [exact Hs|].
  destruct (entry k a) as [[l info]|] eqn:He; [|exact Hs].
  destruct (observer info) as [s'|] eqn:Ho; [|exact Hs].
  apply IH.
  - apply subscribers_observer_error; [exact Hs|].
    destruct Hq as [Hc|Hu]; [left; exact Hc|]. right. intros ->.
    eapply unobserved_entry; eassumption.
  - destruct Hq as [Hc|Hu]; [left; exact Hc|]. right.
    apply unobserved_observer_error, Hu.
Qed.

Lemma unobserved_tick_errors (s : SubscriberId) (e : string) (keys : list Address) :
  forall a : Arc, unobserved s a -> unobserved s (tick_errors e keys a).
Proof.
  induction keys as [|k keys IH]; intros a H; cbn [tick_errors]; [exact H|].
  destruct (entry k a) as [[l info]|]; [|exact H].
  destruct (observer info); [|exact H].
  apply IH, unobserved_observer_error, H.
Qed.

Lemma subscribers_newBlockHeaders (s : SubscriberId) (sub : Subscriber)
    (err : option string) (a : Arc) :
  subscribers a !! s = Some sub ->
  sub_closed sub = true \/ unobserved s a ->
  subscribers (newBlockHeaders err a) !! s = Some sub.
Proof.
  intros Hs Hq. unfold newBlockHeaders.
  destruct (blockHeaderSubscription a); [|exact Hs].
  destruct err as [e|].
  - apply subscribers_tick_errors; assumption.
  - rewrite tick_reads_eq. exact Hs.
Qed.

Lemma unobserved_newBlockHeaders (s : SubscriberId) (err : option string) (a : Arc) :
  unobserved s a -> unobserved s (newBlockHeaders err a).
Proof.
  intros H. unfold newBlockHeaders.
  destruct (blockHeaderSubscription a); [|exact H].
  destruct err as [e|].
  - apply unobserved_tick_errors, H.
  - rewrite tick_reads_eq. exact H.
Qed.

(** X6. Once a subscriber is closed, by a cancel or by an error, nothing that
    happens afterwards changes what its listener has been handed: reads that
    fulfil late, ticks, failures of the feed and further subscriptions leave
    it as it is. *)
Theorem closed_subscriber_is_left_alone
    (a : Arc) (s : SubscriberId) (sub : Subscriber) (es : list Event) :
  subscribers a !! s = Some sub ->
  sub_closed sub = true ->
  subscribers (run es a) !! s = Some sub.
Proof.
  intros Hs Hc. revert a Hs. induction es as [|e es IH]; intros a Hs; [exact Hs|].
  apply IH. destruct e as [k | k | s' | i b | err]; cbn [step].
  - rewrite subscribers_ethBalance. exact Hs.
  - rewrite subscribers_subscribe by (eapply lookup_lt_Some; exact Hs). exact Hs.
  - destruct (Nat.eq_dec s' s) as [->|Hne].
    + rewrite (unsubscribe_closed s sub a Hs Hc). exact Hs.
    + rewrite subscribers_unsubscribe_other by exact Hne. exact Hs.
  - apply subscribers_fulfil; [exact Hs | left; exact Hc].
  - apply subscribers_newBlockHeaders; [exact Hs | left; exact Hc].
Qed.

Lemma closed_subscriber_is_left_alone_witness :
  received 0 (run [NewBlockHeaders None; Fulfil 0 9; CallEthBalance "0xa11ce";
                   Subscribe "0xa11ce"; Fulfil 0 9]
                (run [CallEthBalance "0xa11ce"; Subscribe "0xa11ce"; Fulfil 0 3;
                      Unsubscribe 0] init))
  = [Next 3].
Proof.
  unfold received.
  rewrite (closed_subscriber_is_left_alone
             (run [CallEthBalance "0xa11ce"; Subscribe "0xa11ce"; Fulfil 0 3;
                   Unsubscribe 0] init)
             0 {| sub_owner := "0xa11ce"; sub_closed := true;
                  sub_received := [Next 3] |}
             [NewBlockHeaders None; Fulfil 0 9; CallEthBalance "0xa11ce";
              Subscribe "0xa11ce"; Fulfil 0 9] eq_refl eq_refl).
  reflexivity.
Defined.

Lemma muted_step (s : SubscriberId) (r : list Notification) (a : Arc) (e : Event) :
  muted s r a -> muted s r (step a e).
Proof.
  intros (sub & Hs & Hr & Hq).
  assert (Hlt : (s < length (subscribers a))%nat) by (eapply lookup_lt_Some; exact Hs).
  destruct e as [k | k | s' | i b | err]; cbn [step].
  - exists sub. rewrite subscribers_ethBalance. split; [exact Hs|]. split; [exact Hr|].
    destruct Hq as [Hc|Hu]; [left; exact Hc | right; apply unobserved_ethBalance, Hu].
  - exists sub. rewrite subscribers_subscribe by exact Hlt.
    split; [exact Hs|]. split; [exact Hr|].
    destruct Hq as [Hc|Hu]; [left; exact Hc | right; apply unobserved_subscribe; assumption].
  - destruct (Nat.eq_dec s' s) as [->|Hne].
    + destruct (sub_closed sub) eqn:Hc.
      * exists sub. rewrite (unsubscribe_closed s sub a Hs Hc).
        split; [exact Hs|]. split; [exact Hr|]. left. exact Hc.
      * eexists. split; [apply (unsubscribe_open s sub a Hs Hc)|].
        split; [exact Hr|]. left. reflexivity.
    + exists sub. rewrite subscribers_unsubscribe_other by exact Hne.
      split; [exact Hs|]. split; [exact Hr|].
      destruct Hq as [Hc|Hu]; [left; exact Hc | right; apply unobserved_unsubscribe, Hu].
  - exists sub. split; [apply subscribers_fulfil; assumption|]. split; [exact Hr|].
    destruct Hq as [Hc|Hu]; [left; exact Hc | right; apply unobserved_fulfil, Hu].
  - exists sub. split; [apply subscribers_newBlockHeaders; assumption|]. split; [exact Hr|].
    destruct Hq as [Hc|Hu]; [left; exact Hc | right; apply unobserved_newBlockHeaders, Hu].
Qed.

Lemma muted_run (s : SubscriberId) (r : list Notification) (es : list Event) :
  forall a : Arc, muted s r a -> muted s r (run es a).
Proof.
  induction es as [|e es IH]; intros a H; [exact H|].
  apply IH, muted_step, H.
Qed.

(** X7. The entry of a key hands its notifications to the subscriber that
    joined last.  When a subscriber joins a key that is already observed,
    a subscriber that was there before is handed nothing from then on,
    whatever happens next: no change of the balance, no failure of the
    feed. *)
Theorem earlier_listener_is_cut_off
    (a : Arc) (k : Address) (l : Loc) (info : AccInfo)
    (s0 : SubscriberId) (sub0 : Subscriber) (es : list Event) :
  entry k a = Some (l, info) ->
  observable info = true ->
  subscribers a !! s0 = Some sub0 ->
  (forall l' info', l' <> l -> objects a !! l' = Some info' -> observer info' <> Some s0) ->
  received s0 (run es (observe k a)) = sub_received sub0.
Proof.
  intros He Hb Hs Hothers.
  assert (Hlt : (s0 < length (subscribers a))%nat) by (eapply lookup_lt_Some; exact Hs).
  assert (Hm : muted s0 (sub_received sub0) (observe k a)).
  { exists sub0. split; [|split; [reflexivity|right]].
    - unfold observe. rewrite subscribers_subscribe, subscribers_ethBalance;
        [exact Hs | rewrite subscribers_ethBalance; exact Hlt].
    - rewrite (observe_existing k l info a He Hb). intros l' info'. cbn [objects].
      intros Hl. apply list_lookup_insert_Some in Hl.
      destruct Hl as [(_ & <- & _) | (Hne & Hl)].
      + cbn. intros E. inversion E. lia.
      + apply (Hothers l' info'); [congruence | exact Hl]. }
  destruct (muted_run s0 _ es _ Hm) as (sub & Hs' & Hr & _).
  unfold received. rewrite Hs'. exact Hr.
Qed.

Lemma earlier_listener_is_cut_off_witness :
  let a := run [CallEthBalance "0xa11ce"; Subscribe "0xa11ce"; Fulfil 0 3] init in
  received 0 (run ([Fulfil 0 3] ++ ticks 0 [5; 5; 7; 7; 7; 9]
                   ++ [NewBlockHeaders (Some "boom"%string)])
                (observe "0xa11ce" a))
  = [Next 3].
Proof.
  intros a.
  refine (earlier_listener_is_cut_off a "0xa11ce" 0
            {| observable := true; observer := Some 0%nat;
               lastBalance := Some 3; subscriptionsCount := 1 |}
            0 {| sub_owner := "0xa11ce"; sub_closed := false;
                 sub_received := [Next 3] |}
            _ eq_refl eq_refl eq_refl _).
  intros [|l'] info' Hne Hl; [congruence | discriminate Hl].
Defined.

(** *** Failure of the feed *)

Lemma account_notin (k : Address) (reg : list (Address * Loc)) :
  k ∉ List.map fst reg -> account k reg = None.
Proof.
  induction reg as [|[k0 l0] reg IH]; cbn; intros Hn; [reflexivity|].
  destruct (String.eqb_spec k0 k) as [->|Hne].
  - exfalso. apply Hn. apply list_elem_of_here.
  - apply IH. intros Hin. apply Hn. apply list_elem_of_further. exact Hin.
Qed.

Lemma elem_of_map_fst (k : Address) (l : Loc) (reg : list (Address * Loc)) :
  (k, l) ∈ reg -> k ∈ List.map fst reg.
Proof.
  induction reg as [|[k0 l0] reg IH]; intros Hin.
  - inversion Hin.
  - apply elem_of_cons in Hin. cbn. destruct Hin as [E|Hin].
    + inversion E. apply list_elem_of_here.
    + apply list_elem_of_further, IH, Hin.
Qed.

Lemma elem_of_map_snd (k : Address) (l : Loc) (reg : list (Address * Loc)) :
  (k, l) ∈ reg -> l ∈ List.map snd reg.
Proof.
  induction reg as [|[k0 l0] reg IH]; intros Hin.
  - inversion Hin.
  - apply elem_of_cons in Hin. cbn. destruct Hin as [E|Hin].
    + inversion E. apply list_elem_of_here.
    + apply list_elem_of_further, IH, Hin.
Qed.

Lemma one_listener_functional (a : Arc) (kl : Address * Loc)
    (s s' : SubscriberId) (sub sub' : Subscriber) :
  one_listener a kl s sub -> one_listener a kl s' sub' -> s = s' /\ sub = sub'.
Proof.
  intros (info & Ho & _ & Hobs & Hs & _) (info' & Ho' & _ & Hobs' & Hs' & _).
  assert (info' = info) by congruence. subst info'.
  assert (s' = s) by congruence. subst s'.
  split; [reflexivity | congruence].
Qed.

(** The effect of [observer.error] on the only listener of an entry that
    counts one subscription: the listener is told, the subscriber is closed
    and the entry leaves the registry. *)
Lemma observer_error_one_listener
    (a : Arc) (k : Address) (l : Loc) (s : SubscriberId) (sub : Subscriber)
    (e : string) (rest : list (Address * Loc)) :
  observedAccounts a = (k, l) :: rest ->
  k ∉ List.map fst rest ->
  one_listener a (k, l) s sub ->
  let a1 := observer_error s e a in
  observedAccounts a1 = rest
  /\ subscribers a1 = <[s := {| sub_owner := k; sub_closed := true;
                               sub_received := sub_received sub ++ [Error e] |}]>
                        (subscribers a)
  /\ (forall l', l' <> l -> objects a1 !! l' = objects a !! l').
Proof.
  intros Hreg Hk (info & Ho & Hc & Hobs & Hs & Hown & Hopen) a1.
  cbn [fst snd] in *.
  unfold a1, observer_error. rewrite Hs, Hopen, Hown.
  unfold teardown.
  assert (He : entry k (set_subscribers
                 (<[s := {| sub_owner := k; sub_closed := true;
                            sub_received := sub_received sub ++ [Error e] |}]>
                    (subscribers a)) a) = Some (l, info)).
  { apply entry_Some. cbn. rewrite Hreg. cbn. rewrite String.eqb_refl.
    split; [reflexivity | exact Ho]. }
  rewrite He. cbn [set_subscribers observedAccounts objects subscribers].
  destruct (Z.leb_spec (subscriptionsCount info - 1) 0) as [_|?]; [|lia].
  rewrite Hreg. unfold delete_account. cbn. rewrite String.eqb_refl. cbn.
  fold (delete_account k rest). rewrite (delete_account_absent k rest (account_notin k rest Hk)).
  split; [reflexivity|]. split; [reflexivity|].
  intros l' Hne. apply list_lookup_insert_ne. congruence.
Qed.

Lemma tick_errors_broadcast (e : string) (reg : list (Address * Loc)) :
  forall a : Arc,
    observedAccounts a = reg ->
    NoDup (List.map fst reg) -> NoDup (List.map snd reg) ->
    (forall k l, (k, l) ∈ reg -> exists s sub, one_listener a (k, l) s sub) ->
    let a' := tick_errors e (List.map fst reg) a in
    observedAccounts a' = []
    /\ (forall k l s sub,
          (k, l) ∈ reg -> one_listener a (k, l) s sub ->
          subscribers a' !! s
          = Some {| sub_owner := k; sub_closed := true;
                    sub_received := sub_received sub ++ [Error e] |}).
Proof.
  induction reg as [|[k l] rest IH]; intros a Hreg Hnk Hnl Hall a'.
  - split; [exact Hreg|]. intros k l s sub Hin. inversion Hin.
  - cbn [List.map fst snd] in Hnk, Hnl.
    apply NoDup_cons in Hnk. destruct Hnk as [Hk Hnk].
    apply NoDup_cons in Hnl. destruct Hnl as [Hl Hnl].
    destruct (Hall k l (list_elem_of_here _ _)) as (s & sub & Hone).
    pose proof Hone as (info & Ho & Hc & Hobs & Hs & Hown & Hopen).
    cbn [fst snd] in Ho, Hown.
    destruct (observer_error_one_listener a k l s sub e rest Hreg Hk Hone)
      as (Hreg1 & Hsubs1 & Hobj1).
    set (a1 := observer_error s e a) in *.
    assert (Ha' : a' = tick_errors e (List.map fst rest) a1).
    { unfold a'. cbn [List.map fst tick_errors].
      erewrite (proj2 (entry_Some k a l info)).
      - rewrite Hobs. reflexivity.
      - rewrite Hreg. cbn. rewrite String.eqb_refl. split; [reflexivity | exact Ho]. }
    clearbody a' a1. subst a'.
    assert (Hkeep : forall k' l' s' sub',
               (k', l') ∈ rest -> one_listener a (k', l') s' sub' ->
               one_listener a1 (k', l') s' sub').
    { intros k' l' s' sub' Hin (info' & Ho' & Hc' & Hobs' & Hs' & Hown' & Hopen').
      cbn [fst snd] in *.
      exists info'. cbn [fst snd].
      assert (Hl' : l' <> l).
      { intros ->. apply Hl. eapply elem_of_map_snd. exact Hin. }
      assert (Hs'' : s' <> s).
      { intros ->. assert (sub' = sub) by congruence. subst sub'.
        apply Hk. rewrite <- Hown, Hown'. eapply elem_of_map_fst. exact Hin. }
      split; [rewrite Hobj1 by exact Hl'; exact Ho'|].
      split; [exact Hc'|]. split; [exact Hobs'|].
      split; [rewrite Hsubs1, list_lookup_insert_ne by congruence; exact Hs'|].
      split; assumption. }
    destruct (IH a1 Hreg1 Hnk Hnl) as [Hempty Heach].
    { intros k' l' Hin. destruct (Hall k' l' (list_elem_of_further _ _ _ Hin))
        as (s' & sub' & Hone'). exists s', sub'. apply Hkeep; assumption. }
    split; [exact Hempty|].
    intros k0 l0 s0 sub0 Hin Hone0. apply elem_of_cons in Hin.
    destruct Hin as [E|Hin].
    + inversion E. subst k0 l0.
      destruct (one_listener_functional a (k, l) s s0 sub sub0 Hone Hone0) as [<- <-].
      apply subscribers_tick_errors; [|left; reflexivity].
      rewrite Hsubs1. apply list_lookup_insert_eq. eapply lookup_lt_Some. exact Hs.
    + apply (Heach k0 l0 s0 sub0 Hin). apply Hkeep; assumption.
Qed.

(** X8. When every observed key has one listener and counts one
    subscription, a failure of the feed is handed to the listener of every
    key, every subscriber is closed, the registry is emptied and the feed is
    stopped and discarded. *)
Theorem feed_error_is_broadcast (a : Arc) (e : string) :
  feed_inv a ->
  blockHeaderSubscription a = true ->
  NoDup (List.map fst (observedAccounts a)) ->
  NoDup (List.map snd (observedAccounts a)) ->
  (forall k l, (k, l) ∈ observedAccounts a -> exists s sub, one_listener a (k, l) s sub) ->
  let a' := newBlockHeaders (Some e) a in
  observedAccounts a' = []
  /\ blockHeaderSubscription a' = false
  /\ liveFeeds a' = 0%nat
  /\ (forall k l s sub,
        (k, l) ∈ observedAccounts a -> one_listener a (k, l) s sub ->
        subscribers a' !! s
        = Some {| sub_owner := k; sub_closed := true;
                  sub_received := sub_received sub ++ [Error e] |}).
Proof.
  intros Hinv Hb Hnk Hnl Hall a'.
  assert (Hinv' : feed_inv a') by apply feed_inv_newBlockHeaders, Hinv.
  assert (Ha' : a' = tick_errors e (List.map fst (observedAccounts a)) a).
  { unfold a', newBlockHeaders. rewrite Hb. reflexivity. }
  clearbody a'. subst a'.
  destruct (tick_errors_broadcast e (observedAccounts a) a eq_refl Hnk Hnl Hall)
    as [Hempty Heach].
  split; [exact Hempty|].
  destruct (feed_inv_empty _ Hinv' Hempty) as [Hb' Hl'].
  split; [exact Hb'|]. split; [exact Hl'|]. exact Heach.
Qed.

Lemma two_keys_one_listener (k : Address) (l : Loc) :
  (k, l) ∈ observedAccounts (two_keys "0xa11ce" "0xb0b") ->
  exists s sub, one_listener (two_keys "0xa11ce" "0xb0b") (k, l) s sub.
Proof.
  intros Hin. apply elem_of_cons in Hin. destruct Hin as [E|Hin].
  - inversion E. exists 0%nat. eexists. eexists.
    split; [reflexivity|]. split; [cbn; lia|]. split; [reflexivity|].
    split; [reflexivity|]. split; reflexivity.
  - apply elem_of_cons in Hin. destruct Hin as [E|Hin]; [|inversion Hin].
    inversion E. exists 1%nat. eexists. eexists.
    split; [reflexivity|]. split; [cbn; lia|]. split; [reflexivity|].
    split; [reflexivity|]. split; reflexivity.
Qed.

Lemma feed_error_is_broadcast_witness :
  let a' := newBlockHeaders (Some "boom"%string) (two_keys "0xa11ce" "0xb0b") in
  observedAccounts a' = []
  /\ blockHeaderSubscription a' = false
  /\ liveFeeds a' = 0%nat.
Proof.
  destruct (feed_error_is_broadcast (two_keys "0xa11ce" "0xb0b") "boom")
    as (H1 & H2 & H3 & _).
  - split; [reflexivity | discriminate].
  - reflexivity.
  - refine (bool_decide_unpack _ _). vm_compute. exact I.
  - refine (bool_decide_unpack _ _). vm_compute. exact I.
  - exact two_keys_one_listener.
  - split; [exact H1|]. split; [exact H2 | exact H3].
Defined.

(** *** Reads of a tick *)

(** X4. A tick of the feed without error issues exactly one read for every
    key of the registry, in the order of the keys and bound to the entry of
    its key; it hands nothing to any listener and changes nothing else. *)
Theorem tick_reads_every_key (a : Arc) :
  blockHeaderSubscription a = true ->
  let a' := newBlockHeaders None a in
  reads a' = reads a
             ++ List.map (fun k => TickRead k (account k (observedAccounts a)))
                  (List.map fst (observedAccounts a))
  /\ (forall k, k ∈ List.map fst (observedAccounts a) ->
               is_Some (account k (observedAccounts a)))
  /\ observedAccounts a' = observedAccounts a
  /\ objects a' = objects a
  /\ subscribers a' = subscribers a
  /\ blockHeaderSubscription a' = true.
Proof.
  intros Hb a'. unfold a'. rewrite (newBlockHeaders_reads a Hb). cbn.
  split; [reflexivity|]. split; [intros k; apply account_registered|].
  split; [reflexivity|]. split; [reflexivity|]. split; [reflexivity | exact Hb].
Qed.

Lemma tick_reads_every_key_witness :
  reads (newBlockHeaders None (two_keys "0xa11ce" "0xb0b"))
  = [TickRead "0xa11ce" (Some 0%nat); TickRead "0xb0b" (Some 1%nat)].
Proof.
  exact (proj1 (tick_reads_every_key (two_keys "0xa11ce" "0xb0b") eq_refl)).
Defined.

(** When a read issued by a tick fulfils, the open observer of the entry
    it was issued for is handed the balance exactly when it differs from the
    balance the entry holds at that moment. *)
Lemma tick_read_fulfils
    (b : Arc) (i : nat) (addr : Address) (l : Loc) (info : AccInfo)
    (s : SubscriberId) (sub : Subscriber) (balance : Z) :
  reads b !! i = Some (TickRead addr (Some l)) ->
  objects b !! l = Some info ->
  observer info = Some s ->
  subscribers b !! s = Some sub ->
  sub_closed sub = false ->
  received s (run [Fulfil i balance] b)
  = sub_received sub ++ (if differs balance (lastBalance info) then [Next balance] else []).
Proof.
  intros Hr Ho Hobs Hs Hopen. unfold run. cbn [fold_left step]. unfold fulfil. rewrite Hr.
  set (b1 := set_reads _ b).
  destruct (tick_fulfilled_emits l info s sub balance b1 Ho Hobs Hs Hopen) as [Hyes Hno].
  destruct (differs balance (lastBalance info)) eqn:Hd.
  - apply (Hyes eq_refl).
  - rewrite (Hno eq_refl), app_nil_r. unfold received.
    change (subscribers b1) with (subscribers b). rewrite Hs. reflexivity.
Qed.

(** X5. Dedup on change.  When a read issued by a tick fulfils, the open
    observer of the entry it was issued for is handed the balance exactly
    when it differs from the balance the entry holds at that moment.  For a
    lone key this gives the sequence: when [k] is the only observed key, its
    entry hands its notifications to the open subscriber [s], and the read
    of every tick fulfils before the next tick while the reads that were
    outstanding before stay outstanding, any sequence of ticks hands [s] the
    balances that differ from the one read before them, in order, and
    nothing else; no balance is handed over twice in a row, and the entry
    ends up holding the balance read last. *)
Theorem dedup_on_change
    (k : Address) (l : Loc) (s : SubscriberId) (last : option Z)
    (balances : list Z) (a : Arc) :
  sole k l s last a ->
  let a' := run (ticks (length (reads a)) balances) a in
  received s a' = received s a ++ List.map Next (changes last balances)
  /\ sole k l s (last_read last balances) a'
  /\ (forall i x y, changes last balances !! i = Some x ->
                    changes last balances !! S i = Some y -> x <> y)
  /\ (forall x, changes last balances !! 0%nat = Some x -> last <> Some x)
  /\ (forall (b : Arc) (i : nat) (addr : Address) (l' : Loc) (info : AccInfo)
             (s' : SubscriberId) (sub : Subscriber) (balance : Z),
        reads b !! i = Some (TickRead addr (Some l')) ->
        objects b !! l' = Some info ->
        observer info = Some s' ->
        subscribers b !! s' = Some sub ->
        sub_closed sub = false ->
        received s' (run [Fulfil i balance] b)
        = sub_received sub
          ++ (if differs balance (lastBalance info) then [Next balance] else [])).
Proof.
  intros Hsole a'. destruct (ticks_sole k l s balances last a Hsole) as (H1 & _ & H2).
  split; [exact H2|]. split; [exact H1|]. split; [|split].
  - intros i x y. apply (changes_differ balances last i x y).
  - intros x. apply (changes_differ balances last 0%nat x x).
  - intros b i addr l' info s' sub balance. apply tick_read_fulfils.
Qed.

Lemma dedup_on_change_witness :
  received 0 (run (ticks 0 [5; 5; 7; 7; 7; 9])
                (run [CallEthBalance "0xa11ce"; Subscribe "0xa11ce"; Fulfil 0 3] init))
  = [Next 3; Next 5; Next 7; Next 9].
Proof.
  exact (proj1 (dedup_on_change "0xa11ce" 0 0 (Some 3) [5; 5; 7; 7; 7; 9]
                  (run [CallEthBalance "0xa11ce"; Subscribe "0xa11ce"; Fulfil 0 3] init)
                  (proj1 (seeded_sole 3)))).
Defined.

(** *** Cancelling *)

(** X9. Cancelling is idempotent and local: a second cancel of the same
    handle changes nothing, and a cancel leaves every other subscriber and
    the registry entry of every key other than its own as they are. *)
Theorem cancel_is_idempotent_and_local (s : SubscriberId) (a : Arc) :
  unsubscribe s (unsubscribe s a) = unsubscribe s a
  /\ (forall s', s' <> s -> subscribers (unsubscribe s a) !! s' = subscribers a !! s')
  /\ (forall sub k', subscribers a !! s = Some sub -> k' <> sub_owner sub ->
        account k' (observedAccounts (unsubscribe s a)) = account k' (observedAccounts a)).
Proof.
  split; [|split].
  - destruct (subscribers a !! s) as [sub|] eqn:Hs.
    + destruct (sub_closed sub) eqn:Hc.
      * rewrite (unsubscribe_closed s sub a Hs Hc). apply (unsubscribe_closed s sub a Hs Hc).
      * eapply unsubscribe_closed; [apply (unsubscribe_open s sub a Hs Hc) | reflexivity].
    + assert (E : unsubscribe s a = a) by (unfold unsubscribe; rewrite Hs; reflexivity).
      rewrite E. exact E.
  - intros s' Hne. apply subscribers_unsubscribe_other. congruence.
  - intros sub k' Hs Hne. unfold unsubscribe. rewrite Hs.
    destruct (sub_closed sub); [reflexivity|].
    unfold teardown. destruct (entry (sub_owner sub) _) as [[l info]|]; [|reflexivity].
    cbn [observedAccounts]. destruct (Z.leb _ _); [|reflexivity].
    apply account_delete_other. congruence.
Qed.

Lemma cancel_is_idempotent_and_local_witness :
  unsubscribe 1 (unsubscribe 1 (two_keys "0xa11ce" "0xb0b"))
  = unsubscribe 1 (two_keys "0xa11ce" "0xb0b")
  /\ account "0xa11ce" (observedAccounts (unsubscribe 1 (two_keys "0xa11ce" "0xb0b")))
     = Some 0%nat.
Proof.
  destruct (cancel_is_idempotent_and_local 1 (two_keys "0xa11ce" "0xb0b"))
    as (H1 & _ & H3).
  split; [exact H1|].
  rewrite (H3 {| sub_owner := "0xb0b"; sub_closed := false; sub_received := [Next 4] |}
              "0xa11ce" eq_refl); [reflexivity | discriminate].
Defined.

(** *** The claims about the feed *)

(** An [observe] leaves exactly one live feed. *)
Lemma observe_starts_feed (es : list Event) (k : Address) :
  let a := run es init in
  blockHeaderSubscription (observe k a) = true /\ liveFeeds (observe k a) = 1%nat.
Proof.
  intros a.
  assert (Hinv : feed_inv a) by apply feed_inv_run, feed_inv_init.
  destruct (feed_inv_observe k a Hinv) as [Hl _].
  assert (Hb : blockHeaderSubscription (observe k a) = true).
  { destruct (account k (observedAccounts a)) as [l|] eqn:Hk.
    - unfold observe, subscribe.
      destruct (entry k (ethBalance k a)) as [[l' info]|] eqn:He; [reflexivity|].
      exfalso. revert He. unfold ethBalance. rewrite Hk.
      destruct (entry k a) as [[l1 info1]|] eqn:He1.
      + destruct (observable info1);
          erewrite entry_set_object by exact He1; discriminate.
      + intros _. unfold entry in He1. rewrite Hk in He1. cbn in He1.
        destruct (objects a !! l) eqn:Ho; [discriminate|].
        pose proof (registry_bound es k l) as Hlt.
        apply lookup_ge_None in Ho. specialize (Hlt Hk). fold a in Hlt. lia.
    - apply (observe_fresh k a Hk). }
  split; [exact Hb|]. rewrite Hb in Hl. exact Hl.
Qed.

(** The registry after [n] observes of a key that had no record and the
    cancels of their handles. *)
Lemma observes_cancelled
    (a : Arc) (k : Address) (n : nat) (handles : list SubscriberId) :
  account k (observedAccounts a) = None ->
  (0 < n)%nat ->
  handles ≡ₚ seq (length (subscribers a)) n ->
  observedAccounts (cancel_all handles (observe_times n k a)) = observedAccounts a.
Proof.
  intros Hk Hn Hperm. destruct n as [|m]; [lia|].
  destruct (observe_times_fresh k a m Hk) as (Ht & Hr & Hs & _).
  rewrite (cancel_all_tracked k (length (objects a))).
  - rewrite Hr, delete_account_app, (delete_account_absent k _ Hk).
    unfold delete_account. simpl. rewrite String.eqb_refl. simpl.
    apply app_nil_r.
  - rewrite Hperm. apply NoDup_seq.
  - intros E. rewrite E in Hperm. apply Permutation_nil_l in Hperm. discriminate.
  - rewrite Hperm, length_seq. exact Ht.
  - intros s Hin. rewrite Hperm in Hin. apply elem_of_seq in Hin.
    exists (fresh_subscriber k). split; [|split; reflexivity].
    rewrite Hs, lookup_app_r by lia.
    apply lookup_replicate_2. lia.
Qed.

(** C5. At most one feed exists at any time, and none while no account is
    observed.  It is created lazily: the [observe] that makes the registry
    non-empty starts it, and an [observe] never leaves more than one.  After
    [n > 0] observes of a key that had no record, followed by the cancels
    of the [n] handles, the registry has no record for the key, and if it
    was the only key the feed is stopped and discarded. *)
Theorem single_lazy_feed
    (es : list Event) (k : Address) (n : nat) (handles : list SubscriberId) :
  let a := run es init in
  (liveFeeds a <= 1)%nat
  /\ (blockHeaderSubscription a = true <-> liveFeeds a = 1%nat)
  /\ (observedAccounts a = [] ->
      blockHeaderSubscription a = false
      /\ liveFeeds a = 0%nat
      /\ observedAccounts (observe k a) <> []
      /\ blockHeaderSubscription (observe k a) = true)
  /\ liveFeeds (observe k a) = 1%nat
  /\ (account k (observedAccounts a) = None ->
      (0 < n)%nat ->
      handles ≡ₚ seq (length (subscribers a)) n ->
      let a' := cancel_all handles (observe_times n k a) in
      account k (observedAccounts a') = None
      /\ (liveFeeds a' <= 1)%nat
      /\ (observedAccounts a = [] ->
          observedAccounts a' = []
          /\ blockHeaderSubscription a' = false
          /\ liveFeeds a' = 0%nat)).
Proof.
  intros a.
  assert (Hinv : feed_inv a) by apply feed_inv_run, feed_inv_init.
  destruct (observe_starts_feed es k) as [Hb Hl]. fold a in Hb, Hl.
  split; [|split; [|split; [|split]]].
  - destruct Hinv as [-> _]. destruct (blockHeaderSubscription a); lia.
  - destruct Hinv as [-> _]. destruct (blockHeaderSubscription a); split; congruence.
  - intros He. destruct (feed_inv_empty a Hinv He) as [H1 H2].
    split; [exact H1|]. split; [exact H2|]. split; [|exact Hb].
    apply (feed_inv_observe k a Hinv). exact Hb.
  - exact Hl.
  - intros Hk Hn Hperm a'.
    assert (Hinv' : feed_inv a')
      by apply feed_inv_cancel_all, feed_inv_observe_times, Hinv.
    assert (Hreg : observedAccounts a' = observedAccounts a)
      by (apply observes_cancelled; assumption).
    split; [rewrite Hreg; exact Hk|]. split.
    + destruct Hinv' as [-> _]. destruct (blockHeaderSubscription a'); lia.
    + intros He. rewrite He in Hreg. split; [exact Hreg|].
      apply feed_inv_empty; assumption.
Qed.

Lemma single_lazy_feed_witness :
  let a' := cancel_all [2%nat; 0%nat; 1%nat] (observe_times 3 "0xa11ce" init) in
  account "0xa11ce" (observedAccounts a') = None
  /\ blockHeaderSubscription a' = false
  /\ liveFeeds a' = 0%nat.
Proof.
  destruct (proj2 (proj2 (proj2 (proj2
              (single_lazy_feed [] "0xa11ce" 3 [2%nat; 0%nat; 1%nat])))))
    as (Hk & _ & He).
  - reflexivity.
  - lia.
  - apply (Permutation_cons_append [0%nat; 1%nat] 2%nat).
  - split; [exact Hk|]. apply He. reflexivity.
Defined.

(** C4.  With one listener the ticks [5, 5, 7, 7, 7, 9] after a seed of [3]
    hand over [5, 7, 9].  With two listeners of the key the entry still has
    the single [observer] slot that the second subscription overwrote: the
    second listener is handed [5, 7, 9], the first, although it is still
    subscribed, is handed nothing beyond its seed. *)
Theorem ticks_reach_the_last_listener_only :
  let one := run [CallEthBalance "0xa11ce"; Subscribe "0xa11ce"; Fulfil 0 3] init in
  let two := two_listeners "0xa11ce" in
  received 0 (run (ticks 0 [5; 5; 7; 7; 7; 9]) one) = [Next 3; Next 5; Next 7; Next 9]
  /\ listening "0xa11ce" 0 (run (ticks 0 [5; 5; 7; 7; 7; 9]) two)
  /\ listening "0xa11ce" 1 (run (ticks 0 [5; 5; 7; 7; 7; 9]) two)
  /\ received 1 (run (ticks 0 [5; 5; 7; 7; 7; 9]) two)
     = [Next 3; Next 5; Next 7; Next 9]
  /\ received 0 (run (ticks 0 [5; 5; 7; 7; 7; 9]) two) = [Next 3].
Proof.
  cbv zeta. split; [vm_compute; reflexivity|].
  split; [eexists; vm_compute; split; [reflexivity | split; reflexivity]|].
  split; [eexists; vm_compute; split; [reflexivity | split; reflexivity]|].
  split; vm_compute; reflexivity.
Qed.

(** C8.  With one listener per key a failure of the feed reaches the
    listener of every key and the feed is stopped.  With two listeners of a
    key only the second, which holds the [observer] slot, is handed the
    failure; the first is handed nothing and stays subscribed, the entry
    stays in the registry and the feed is neither stopped nor discarded. *)
Theorem feed_error_reaches_the_last_listener_only :
  let keys := run [NewBlockHeaders (Some "boom")] (two_keys "0xa11ce" "0xb0b") in
  let two := run [NewBlockHeaders (Some "boom")] (two_listeners "0xa11ce") in
  (received 0 keys = [Next 3; Error "boom"]
   /\ received 1 keys = [Next 4; Error "boom"]
   /\ observedAccounts keys = []
   /\ blockHeaderSubscription keys = false
   /\ liveFeeds keys = 0%nat)
  /\ received 1 two = [Next 3; Error "boom"]
  /\ received 0 two = [Next 3]
  /\ listening "0xa11ce" 0 two
  /\ is_Some (account "0xa11ce" (observedAccounts two))
  /\ blockHeaderSubscription two = true
  /\ liveFeeds two = 1%nat.
Proof.
  cbv zeta. split; [vm_compute; repeat split; reflexivity|].
  split; [vm_compute; reflexivity|]. split; [vm_compute; reflexivity|].
  split; [eexists; vm_compute; split; [reflexivity | split; reflexivity]|].
  split; [eexists; vm_compute; reflexivity|].
  split; vm_compute; reflexivity.
Qed.

(** C9.  A subscriber that joins a key whose record holds [7] is handed the
    current balance when its read fulfils, without a tick.  When two
    subscribers join before the read of the first fulfils, the second has
    overwritten the [observer] slot: both reads hand their balance to the
    second, and the first, although it is subscribed, is handed nothing,
    neither then nor by later ticks. *)
Theorem late_subscriber_can_be_starved :
  let held := run [CallEthBalance "0xa11ce"; Subscribe "0xa11ce"; Fulfil 0 7] init in
  let alone := run [CallEthBalance "0xa11ce"; Subscribe "0xa11ce"; Fulfil 0 7] held in
  let both := run [CallEthBalance "0xa11ce"; Subscribe "0xa11ce";
                   CallEthBalance "0xa11ce"; Subscribe "0xa11ce";
                   Fulfil 0 7; Fulfil 0 7] held in
  (exists l info, entry "0xa11ce" held = Some (l, info) /\ lastBalance info = Some 7)
  /\ received 1 alone = [Next 7]
  /\ listening "0xa11ce" 1 both
  /\ received 1 both = []
  /\ received 2 both = [Next 7; Next 7]
  /\ received 1 (run (ticks 0 [8; 9]) both) = [].
Proof.
  cbv zeta. split; [eexists; eexists; vm_compute; split; reflexivity|].
  split; [vm_compute; reflexivity|].
  split; [eexists; vm_compute; split; [reflexivity | split; reflexivity]|].
  split; [vm_compute; reflexivity|]. split; vm_compute; reflexivity.
Qed.

Lemma feed_is_unique_and_lazy_witness :
  liveFeeds (run [CallEthBalance "0xa11ce"] init) = 0%nat
  /\ liveFeeds (observe "0xb0b" (two_keys "0xa11ce" "0xb0b")) = 1%nat.
Proof.
  split.
  - exact (proj1 (proj2 (proj2 (proj2 (feed_is_unique_and_lazy [] "0xa11ce"))))).
  - exact (proj2 (proj2 (proj2 (proj2
             (feed_is_unique_and_lazy
                [CallEthBalance "0xa11ce"; Subscribe "0xa11ce"; Fulfil 0 3;
                 CallEthBalance "0xb0b"; Subscribe "0xb0b"; Fulfil 0 4] "0xb0b"))))).
Defined.

End ArcBalanceFacts.

(** ** Contracts of the context *)

Module ArcContractsFacts.
Import Js ArcContracts.

Lemma prop_set_prop_same {A : Type} (name : string) (value : A) (obj : list (string * A)) :
  ProposalWrite.prop name (set_prop name value obj) = Some value.
Proof.
  induction obj as [|[k v] obj IH]; cbn.
  - rewrite String.eqb_refl. reflexivity.
  - destruct (String.eqb k name) eqn:E; cbn; rewrite E; [reflexivity | exact IH].
Qed.

Lemma prop_set_prop_other {A : Type} (name name' : string) (value : A)
    (obj : list (string * A)) :
  name <> name' ->
  ProposalWrite.prop name' (set_prop name value obj) = ProposalWrite.prop name' obj.
Proof.
  intros Hne. induction obj as [|[k v] obj IH]; cbn.
  - destruct (String.eqb_spec name name'); [contradiction | reflexivity].
  - destruct (String.eqb_spec k name) as [->|Hk]; cbn.
    + destruct (String.eqb_spec name name'); [contradiction | reflexivity].
    + destruct (String.eqb k name'); [reflexivity | exact IH].
Qed.

Lemma artifact_known (name json : string) :
  artifact name = Some json ->
  In name ["AbsoluteVote"; "ContributionReward"; "GEN"; "GenericScheme"; "Redeemer";
           "SchemeRegistrar"]%string.
Proof.
  unfold artifact.
  repeat match goal with
  | |- context [String.eqb name ?s] =>
      destruct (String.eqb_spec name s) as [->|_]; [intros _; cbn; tauto|]
  end.
  discriminate.
Qed.

Lemma inherited_spec (name : string) :
  existsb (String.eqb name) Object_prototype = true <-> In name Object_prototype.
Proof.
  rewrite existsb_exists. split.
  - intros (x & Hin & E). apply String.eqb_eq in E. subst x. exact Hin.
  - intros Hin. exists name. split; [exact Hin | apply String.eqb_refl].
Qed.

Lemma cached_held (name : string) (contract : Contract) (contracts : list (string * Contract)) :
  ProposalWrite.prop name contracts = Some contract ->
  cached name contracts = Some (Held contract).
Proof. intros H. unfold cached. rewrite H. reflexivity. Qed.

(** X10. [getContract] caches.  A contract it creates is stored under its
    name; whatever it returns, the same value is returned from then on and
    the context is left as it is, whatever the addresses of the context have
    become; the cache entries of other names are not touched.  When it
    throws, the context is unchanged. *)
Theorem getContract_caches (name : string) (this : Arc) (found : Cached) (this' : Arc) :
  getContract name this = (Returned found, this') ->
  (forall addresses,
     getContract name {| contractAddresses := addresses; contracts := contracts this' |}
     = (Returned found,
        {| contractAddresses := addresses; contracts := contracts this' |}))
  /\ (forall name', name' <> name ->
        ProposalWrite.prop name' (contracts this')
        = ProposalWrite.prop name' (contracts this))
  /\ (forall name' e that, getContract name' this = (Threw e, that) -> that = this)
  /\ (forall contract, found = Held contract ->
        ProposalWrite.prop name (contracts this') = Some contract).
Proof.
  intros H.
  assert (Hc : cached name (contracts this') = Some found
               /\ (forall name', name' <> name ->
                     ProposalWrite.prop name' (contracts this')
                     = ProposalWrite.prop name' (contracts this))
               /\ (forall contract, found = Held contract ->
                     ProposalWrite.prop name (contracts this') = Some contract)).
  { revert H. unfold getContract.
    destruct (cached name (contracts this)) as [v|] eqn:Hc.
    - intros E. inversion E. subst. split; [exact Hc|]. split; [reflexivity|].
      intros contract ->. revert Hc. unfold cached.
      destruct (ProposalWrite.prop name (contracts this')) as [c|].
      + intros E'. inversion E'. reflexivity.
      + destruct (existsb _ _); discriminate.
    - destruct (contractAddresses this) as [addresses|]; [|discriminate].
      destruct (negb _); [discriminate|].
      destruct (artifact name) as [json|]; [|discriminate].
      intros E. inversion E. subst. cbn. split; [|split].
      + apply cached_held, prop_set_prop_same.
      + intros name' Hne. apply prop_set_prop_other. congruence.
      + intros contract E'. inversion E'. apply prop_set_prop_same. }
  destruct Hc as (Hc & Ho & Hheld). split; [|split; [|split]].
  - intros addresses. unfold getContract. cbn. rewrite Hc. reflexivity.
  - exact Ho.
  - intros name' e that. unfold getContract.
    repeat case_match; intros E; inversion E; reflexivity.
  - exact Hheld.
Qed.

Lemma getContract_caches_witness :
  let this' := snd (getContract "GEN" sample_context) in
  getContract "GEN" {| contractAddresses := None; contracts := contracts this' |}
  = (Returned (Held {| abi := "DAOToken.json"; options_address := "0xgen" |}),
     {| contractAddresses := None; contracts := contracts this' |}).
Proof.
  intros this'.
  exact (proj1 (getContract_caches "GEN" sample_context
                  (Held {| abi := "DAOToken.json"; options_address := "0xgen" |})
                  this' eq_refl) None).
Defined.

(** X11. What [getContract] answers for a name the cache holds no contract
    for.  A name that [Object.prototype] defines is answered with the
    inherited member, which is not a contract, whatever the addresses are.
    For any other name a contract is only created for the six names of the
    [switch], at the address configured for the name; in particular
    ['GenesisProtocol'] is never created, so [Token.approveForStaking]
    throws and builds no transaction unless a contract of that name was put
    into the cache from outside. *)
Theorem getContract_known_names (name : string) (this : Arc) :
  ProposalWrite.prop name (contracts this) = None ->
  (In name Object_prototype ->
     getContract name this = (Returned (Inherited name), this))
  /\ (~ In name Object_prototype ->
      forall found this', getContract name this = (Returned found, this') ->
        In name ["AbsoluteVote"; "ContributionReward"; "GEN"; "GenericScheme"; "Redeemer";
                 "SchemeRegistrar"]%string
        /\ exists addresses a contract,
             contractAddresses this = Some addresses
             /\ ProposalWrite.prop name addresses = Some a
             /\ found = Held contract
             /\ options_address contract = a
             /\ ProposalWrite.prop name (contracts this') = Some contract)
  /\ (name = "GenesisProtocol"%string ->
      forall address amount,
        exists e, approveForStaking address amount this = (Threw e, this)).
Proof.
  intros Hc. split; [|split].
  - intros Hin. apply inherited_spec in Hin. unfold getContract, cached.
    rewrite Hc, Hin. reflexivity.
  - intros Hout found this'. unfold getContract, cached. rewrite Hc.
    destruct (existsb (String.eqb name) Object_prototype) eqn:Hi.
    { apply inherited_spec in Hi. contradiction. }
    destruct (contractAddresses this) as [addresses|]; [|discriminate].
    destruct (ProposalWrite.prop name addresses) as [a|] eqn:Ha; cbn [truthy negb];
      [|discriminate].
    destruct (negb (negb (String.eqb a ""))); [discriminate|].
    destruct (artifact name) as [json|] eqn:Hj; [|discriminate].
    intros E. inversion E. subst. split; [eapply artifact_known; exact Hj|].
    exists addresses, a. eexists. split; [reflexivity|]. split; [exact Ha|].
    split; [reflexivity|]. split; [reflexivity|]. cbn. apply prop_set_prop_same.
  - intros -> address amount. unfold approveForStaking, getContract, cached. rewrite Hc.
    cbn [existsb Object_prototype String.eqb Ascii.eqb Bool.eqb orb].
    destruct (contractAddresses this) as [addresses|]; [|eexists; reflexivity].
    destruct (negb _); [eexists; reflexivity|].
    cbn [artifact String.eqb Ascii.eqb Bool.eqb]. eexists. reflexivity.
Qed.

Lemma getContract_known_names_witness :
  approveForStaking "0xgen" 100 sample_context
  = (Threw (mkError "Unknown contract: GenesisProtocol"), sample_context)
  /\ getContract "constructor" sample_context
     = (Returned (Inherited "constructor"), sample_context).
Proof.
  split.
  - destruct (proj2 (proj2 (getContract_known_names "GenesisProtocol" sample_context
                              eq_refl))
                eq_refl "0xgen"%string 100%Z) as [e He].
    rewrite He. vm_compute in He. inversion He. reflexivity.
  - apply (proj1 (getContract_known_names "constructor" sample_context eq_refl)).
    cbn. tauto.
Defined.

End ArcContractsFacts.

(** ** Proposal types, contract names and stake deltas *)

Module ProposalStateMoreFacts.
Import Js ProposalState ProposalStateCase.
Local Open Scope Z_scope.

Lemma ascii_toLowerCase_idem (c : ascii) :
  ascii_toLowerCase (ascii_toLowerCase c) = ascii_toLowerCase c.
Proof. destruct c as [[] [] [] [] [] [] [] []]; reflexivity. Qed.

Lemma toLowerCase_idem (s : string) : toLowerCase (toLowerCase s) = toLowerCase s.
Proof.
  induction s as [|c s IH]; cbn; [reflexivity|].
  rewrite ascii_toLowerCase_idem, IH. reflexivity.
Qed.

Lemma toLowerCase_truthy (s : string) :
  truthy (Some (toLowerCase s)) = truthy (Some s).
Proof. destruct s; reflexivity. Qed.

Lemma map_toLowerCase_idem (l : list string) :
  List.map toLowerCase (List.map toLowerCase l) = List.map toLowerCase l.
Proof.
  induction l as [|s l IH]; cbn; [reflexivity|].
  rewrite toLowerCase_idem, IH. reflexivity.
Qed.

(** X12. The proposal type is read off the first sub-record that is present
    (contribution reward, then generic scheme, then scheme registrar), so
    [itemMap] finds a type exactly when one of them is present, a scheme
    registrar record also needing a scheme to register or to remove.  The
    choice between adding and editing a scheme does not depend on the letter
    case of the addresses compared. *)
Theorem proposalType_decided_by_presence (item : Item) :
  (is_Some (item_contributionReward item) ->
     proposalType item = Returned ContributionReward)
  /\ (item_contributionReward item = None -> is_Some (item_genericScheme item) ->
        proposalType item = Returned GenericScheme)
  /\ (returns (proposalType item) <->
        is_Some (item_contributionReward item) \/ is_Some (item_genericScheme item)
        \/ exists sr, item_schemeRegistrar item = Some sr
                      /\ (truthy (sr_schemeToRegister sr) = true
                          \/ truthy (sr_schemeToRemove sr) = true))
  /\ proposalType (lowercased item) = proposalType item.
Proof.
  unfold proposalType. split; [|split; [|split]].
  - intros [cr ->]. reflexivity.
  - intros -> [gs ->]. reflexivity.
  - destruct (item_contributionReward item) as [cr|].
    { split; [intros _; left; eexists; reflexivity | intros _; eexists; reflexivity]. }
    destruct (item_genericScheme item) as [gs|].
    { split; [intros _; right; left; eexists; reflexivity | intros _; eexists; reflexivity]. }
    destruct (item_schemeRegistrar item) as [sr|].
    + destruct (truthy (sr_schemeToRegister sr)) eqn:H1.
      { split.
        - intros _. right. right. exists sr. split; [reflexivity | left; exact H1].
        - intros _. destruct (existsb _ _); eexists; reflexivity. }
      destruct (truthy (sr_schemeToRemove sr)) eqn:H2.
      { split.
        - intros _. right. right. exists sr. split; [reflexivity | right; exact H2].
        - intros _. eexists. reflexivity. }
      split.
      * intros [ty H]. discriminate H.
      * intros [[x H]|[[x H]|(sr' & E & [H|H])]]; try discriminate H;
          inversion E; subst; congruence.
    + split.
      * intros [ty H]. discriminate H.
      * intros [[x H]|[[x H]|(sr' & E & _)]]; discriminate.
  - cbn [lowercased item_contributionReward item_genericScheme item_schemeRegistrar
         item_dao_schemes].
    destruct (item_contributionReward item) as [cr|]; [reflexivity|].
    destruct (item_genericScheme item) as [gs|]; [reflexivity|].
    destruct (item_schemeRegistrar item) as [sr|]; [|reflexivity].
    cbn [sr_schemeToRegister sr_schemeToRemove].
    destruct (sr_schemeToRegister sr) as [s|];
      cbn [fmap option_fmap option_map default from_option id]; [|reflexivity].
    rewrite toLowerCase_truthy, toLowerCase_idem, map_toLowerCase_idem. reflexivity.
Qed.

Lemma proposalType_decided_by_presence_witness :
  proposalType sample_registrar_item = Returned SchemeRegistrarEdit
  /\ proposalType (lowercased sample_registrar_item) = Returned SchemeRegistrarEdit
  /\ proposalType (sample_item "Queued" 0 0 0) = Returned ContributionReward.
Proof.
  split; [reflexivity|]. split.
  - rewrite (proj2 (proj2 (proj2 (proposalType_decided_by_presence sample_registrar_item)))).
    reflexivity.
  - apply (proj1 (proposalType_decided_by_presence (sample_item "Queued" 0 0 0))).
    eexists. reflexivity.
Defined.

Section WithContext.
Variable isAddress : Value -> Result unit.
Variable contractAddresses : option (list (string * string)).

Abbreviation getContractName := (getContractName isAddress contractAddresses).

Lemma find_first {A : Type} (f : A -> bool) (l : list A) :
  match List.find f l with
  | Some x => exists before after,
      l = before ++ x :: after /\ f x = true /\ forall y, In y before -> f y = false
  | None => forall y, In y l -> f y = false
  end.
Proof.
  induction l as [|x l IH]; cbn; [intros x []|].
  destruct (f x) eqn:Hx.
  - exists [], l. split; [reflexivity|]. split; [exact Hx | intros y []].
  - destruct (List.find f l) as [z|].
    + destruct IH as (before & after & -> & Hz & Hb).
      exists (x :: before), after. split; [reflexivity|]. split; [exact Hz|].
      intros y [<-|Hy]; [exact Hx | apply Hb, Hy].
    + intros y [<-|Hy]; [exact Hx | apply IH, Hy].
Qed.

(** X13. [getContractName] compares addresses without regard to letter
    case.  Once [isAddress] has accepted the address and when the context
    has contract addresses, the name returned is the first key of
    [contractAddresses] whose address equals the given one up to letter
    case, the result is [undefined] exactly when no key has such an
    address, and the call does not throw.  When the context has no contract
    addresses the call throws, and when [isAddress] throws the call throws
    the same error. *)
Theorem getContractName_ignores_case (address : string) :
  (isAddress (Str address) = Returned tt ->
   forall addresses,
     contractAddresses = Some addresses ->
     (forall name,
        getContractName address = Returned (Some name) ->
        exists a before after,
          addresses = before ++ (name, a) :: after
          /\ toLowerCase a = toLowerCase address
          /\ forall kv, In kv before -> toLowerCase (snd kv) <> toLowerCase address)
     /\ (getContractName address = Returned None <->
         forall kv, In kv addresses -> toLowerCase (snd kv) <> toLowerCase address)
     /\ returns (getContractName address))
  /\ (isAddress (Str address) = Returned tt ->
      contractAddresses = None ->
      getContractName address
      = Threw (mkError "Cannot convert undefined or null to object"))
  /\ (forall e, isAddress (Str address) = Threw e -> getContractName address = Threw e).
Proof.
  unfold ProposalState.getContractName. split; [|split].
  - intros Hok addresses Hc. rewrite Hok, Hc. cbn [mbind result_bind bind].
    set (f := fun kv : string * string =>
                String.eqb (toLowerCase (snd kv)) (toLowerCase address)).
    pose proof (find_first f addresses) as Hfind. split; [|split].
    + intros name E. destruct (List.find f addresses) as [[k a]|]; [|discriminate E].
      cbn in E. inversion E. subst k.
      destruct Hfind as (before & after & Hl & Hkv & Hb).
      exists a, before, after. split; [exact Hl|]. split.
      * apply String.eqb_eq. exact Hkv.
      * intros kv Hin. apply String.eqb_neq. apply Hb, Hin.
    + destruct (List.find f addresses) as [[k a]|]; cbn.
      * split; [discriminate|]. intros Hnone.
        destruct Hfind as (before & after & Hl & Hkv & _).
        exfalso. apply (Hnone (k, a)).
        -- rewrite Hl. apply in_or_app. right. left. reflexivity.
        -- apply String.eqb_eq. exact Hkv.
      * split; [|reflexivity]. intros _ kv Hin. apply String.eqb_neq. apply Hfind, Hin.
    + eexists. reflexivity.
  - intros Hok Hc. rewrite Hok, Hc. reflexivity.
  - intros e He. rewrite He. reflexivity.
Qed.

End WithContext.

Lemma getContractName_ignores_case_witness :
  ProposalState.getContractName isAddress_accept
    (Some [("GEN"%string, "0xAbCd"%string); ("Redeemer"%string, "0xABCD"%string)])
    "0xabcd"
  = Returned (Some "GEN"%string)
  /\ ProposalState.getContractName isAddress_accept None "0xabcd"
     = Threw (mkError "Cannot convert undefined or null to object").
Proof.
  split.
  - destruct (proj1 (getContractName_ignores_case isAddress_accept
                       (Some [("GEN"%string, "0xAbCd"%string);
                              ("Redeemer"%string, "0xABCD"%string)])
                       "0xabcd") eq_refl _ eq_refl) as (_ & _ & [r Hr]).
    rewrite Hr. vm_compute in Hr. inversion Hr. reflexivity.
  - exact (proj1 (proj2 (getContractName_ignores_case isAddress_accept None "0xabcd"))
             eq_refl eq_refl).
Defined.

(** X14. The deltas are exact and follow the stakes.  For a queued proposal,
    raising [stakesFor] by the reported [upstakeNeededToPreBoost] brings the
    report to zero, and with a threshold that is not negative the report
    does not decrease when [stakesAgainst] grows.  For a pre-boosted
    proposal, raising [stakesAgainst] by the reported
    [downStakeNeededToQueue] brings that report to zero. *)
Theorem deltas_are_exact (t : Q) (F A : Z) :
  (forall u, upstake (StageMember Queued) t F A = Returned u ->
     upstake (StageMember Queued) t (F + u) A = Returned 0)
  /\ (forall d, downstake (StageMember PreBoosted) t F A = Returned d ->
        downstake (StageMember PreBoosted) t F (A + d) = Returned 0)
  /\ (forall A' u u',
        0 <= BN.of_number (t * PRECISION)%Q -> A <= A' ->
        upstake (StageMember Queued) t F A = Returned u ->
        upstake (StageMember Queued) t F A' = Returned u' ->
        u <= u').
Proof.
  destruct (BN.new_BN (t * PRECISION)%Q) as [m|e] eqn:Em.
  - split; [|split].
    + intros u. rewrite !(ProposalStateFacts.upstake_Queued_scaled t _ A m Em).
      intros E. inversion E. f_equal. lia.
    + intros d. rewrite !(ProposalStateFacts.downstake_PreBoosted_scaled t F _ m Em).
      destruct (Z.eqb m 0); [discriminate|].
      intros E. inversion E. f_equal. lia.
    + intros A' u u' Ht HA.
      rewrite !(ProposalStateFacts.upstake_Queued_scaled t F _ m Em).
      intros E E'. inversion E. inversion E'.
      apply ProposalStateFacts.new_BN_returns in Em. destruct Em as [-> _].
      assert (H : Z.quot (BN.of_number (t * PRECISION)%Q * A) (2 ^ 40)
                  <= Z.quot (BN.of_number (t * PRECISION)%Q * A') (2 ^ 40)).
      { apply Z.quot_le_mono; [lia|]. apply Z.mul_le_mono_nonneg_l; assumption. }
      lia.
  - split; [|split].
    + intros u. rewrite (ProposalStateFacts.upstake_Queued_threw t F A e Em). discriminate.
    + intros d. rewrite (ProposalStateFacts.downstake_PreBoosted_threw t F A e Em).
      discriminate.
    + intros A' u u' _ _.
      rewrite (ProposalStateFacts.upstake_Queued_threw t F A e Em). discriminate.
Qed.

Lemma deltas_are_exact_witness :
  upstake (StageMember Queued) (1 # 2) (100 + 50) 300 = Returned 0
  /\ downstake (StageMember PreBoosted) (1 # 2) 100 (300 + -100) = Returned 0.
Proof.
  split.
  - exact (proj1 (deltas_are_exact (1 # 2) 100 300) 50 eq_refl).
  - exact (proj1 (proj2 (deltas_are_exact (1 # 2) 100 300)) (-100) eq_refl).
Defined.

Section ItemMap.
Variable realMathToNumber : Z -> Result Q.
Variable isAddress : Value -> Result unit.
Variable contractAddresses : option (list (string * string)).

Abbreviation itemMap := (itemMap realMathToNumber isAddress contractAddresses).
Abbreviation recognised := (recognised isAddress contractAddresses).
Abbreviation decoded := (decoded realMathToNumber).

(** X20. The mapper of [Proposal.state] returns [null] for [null].  For an
    entity it returns a state exactly when the proposal type and the scheme
    name are found, both thresholds are decoded and, in the stages that
    scale the threshold, [bn.js] accepts the operands: the scaled threshold
    is below [2^53] in absolute value for a queued or pre-boosted proposal
    and at least [1] for a pre-boosted one; in every other case it throws.
    The state it returns carries at most one of the three sub-records, the
    one its type was read from. *)
Theorem itemMap_returns_iff (item : Item) :
  itemMap None = Returned None
  /\ ((exists st, itemMap (Some item) = Returned (Some st)) <->
        recognised item
        /\ exists t,
             decoded item t
             /\ (item_stage item = "Queued"%string \/ item_stage item = "PreBoosted"%string ->
                 (Qabs (t * PRECISION) < inject_Z (2 ^ 53))%Q)
             /\ (item_stage item = "PreBoosted"%string -> (1 <= Qabs (t * PRECISION))%Q))
  /\ (forall r, itemMap (Some item) = Returned r -> r <> None)
  /\ (forall st, itemMap (Some item) = Returned (Some st) ->
        proposalType item = Returned (type st)
        /\ (is_Some (contributionReward st) ->
            genericScheme st = None /\ schemeRegistrar st = None)
        /\ (is_Some (genericScheme st) -> schemeRegistrar st = None)).
Proof.
  split; [reflexivity|]. split; [|split].
  - split.
    + intros [st H].
      destruct (ProposalStateFacts.itemMap_returned _ _ _ item _ H)
        as (st' & t & E & Hrec & Hdec & _ & Hsg & Hup & Hdown & _).
      inversion E. subst st'. clear E. split; [exact Hrec|]. exists t.
      split; [exact Hdec|].
      pose proof (proj1 (ProposalStateFacts.upstake_returns _ _ _ _)
                    (ex_intro _ _ Hup)) as Hu.
      pose proof (proj1 (ProposalStateFacts.downstake_returns _ _ _ _)
                    (ex_intro _ _ Hdown)) as Hd.
      rewrite Hsg in Hu, Hd. split.
      * intros [Hs|Hs].
        -- apply Hu. apply ProposalStateFacts.stage_at_Queued. exact Hs.
        -- apply Hd. apply ProposalStateFacts.stage_at_PreBoosted. exact Hs.
      * intros Hs. apply Hd. apply ProposalStateFacts.stage_at_PreBoosted. exact Hs.
    + intros (Hrec & t & Hdec & Hsafe & Hnz).
      exact (ProposalStateFacts.itemMap_reports _ _ _ item t Hrec Hdec Hsafe Hnz).
  - intros r H.
    destruct (ProposalStateFacts.itemMap_returned _ _ _ item _ H) as (st & t & -> & _).
    discriminate.
  - intros st H.
    destruct (ProposalStateFacts.itemMap_returned _ _ _ item _ H)
      as (st' & t & E & _ & _ & Hty & _ & _ & _ & Hcr & Hgs & Hsr).
    inversion E. subst st'. clear E. split; [exact Hty|].
    rewrite Hcr, Hgs, Hsr. split.
    + intros [cr ->]. split; reflexivity.
    + destruct (item_contributionReward item); [intros [x Hx]; discriminate Hx|].
      intros [gs ->]. reflexivity.
Qed.

End ItemMap.

Lemma itemMap_returns_iff_witness :
  exists st,
    ProposalState.itemMap realMathToNumber_fixed40 isAddress_accept None
      (Some (sample_item "PreBoosted" (2 ^ 40) 100 300)) = Returned (Some st).
Proof.
  apply (proj2 (proj1 (proj2 (itemMap_returns_iff realMathToNumber_fixed40
                                isAddress_accept None
                                (sample_item "PreBoosted" (2 ^ 40) 100 300))))).
  split.
  - apply ProposalStateFacts.sample_recognised.
  - exists (Qmake (2 ^ 40) (2 ^ 40)). split; [apply ProposalStateFacts.sample_decoded|].
    split.
    + intros _. vm_compute. reflexivity.
    + intros _. vm_compute. discriminate.
Defined.

End ProposalStateMoreFacts.

(** ** Creating and executing proposals *)

Module ProposalCreateFacts.
Import Js ArcContracts ProposalCreate.
Local Open Scope Z_scope.

Section WithContext.
Variable NULL_ADDRESS : string.
Variable storage : Ipfs.

Abbreviation create := (create NULL_ADDRESS storage).
Abbreviation created_transaction := (created_transaction NULL_ADDRESS storage).
Abbreviation saveIPFSData := (saveIPFSData storage).

(** X15. [Proposal.create] checks its options at once.  It hands out an
    operation exactly when [dao] is set and the arguments of the proposal
    type are there: the contract of the scheme for a contribution reward,
    [callData] and [value] for a generic scheme, [scheme], [parametersHash]
    and [permissions] to add or edit a scheme, [scheme] to remove one; a
    type it does not know is refused.  The event its mapper reads follows
    from the type. *)
Theorem create_checks_options (options : IProposalCreateOptions) (context : Arc) :
  (returns (fst (create options context)) <->
     truthy (dao options) = true
     /\ match type options with
        | Known ProposalState.ContributionReward =>
            returns (fst (getContract "ContributionReward" context))
        | Known ProposalState.GenericScheme =>
            truthy (callData options) = true /\ is_Some (value options)
        | Known ProposalState.SchemeRegistrarAdd
        | Known ProposalState.SchemeRegistrarEdit =>
            truthy (scheme options) = true
            /\ truthy (parametersHash options) = true
            /\ truthy (permissions options) = true
        | Known ProposalState.SchemeRegistrarRemove => truthy (scheme options) = true
        | Other _ => False
        end)
  /\ (forall operation context',
        create options context = (Returned operation, context') ->
        eventName operation
        = match type options with
          | Known ProposalState.ContributionReward => "NewContributionProposal"
          | Known ProposalState.GenericScheme => "NewCallProposal"
          | Known ProposalState.SchemeRegistrarAdd
          | Known ProposalState.SchemeRegistrarEdit => "NewSchemeProposal"
          | Known ProposalState.SchemeRegistrarRemove => "RemoveSchemeProposal"
          | Other _ => ""
          end)%string.
Proof.
  unfold ProposalCreate.create. split.
  - destruct (truthy (dao options)); cbn [negb fst].
    2:{ split; [intros [x H]; discriminate H | intros [H _]; discriminate H]. }
    destruct (type options) as [[]|text].
    + destruct (getContract "ContributionReward" context) as [[c|e] context1]; cbn [fst].
      * split; [intros _; split; [reflexivity | eexists; reflexivity]
               | intros _; eexists; reflexivity].
      * split; [intros [x H]; discriminate H | intros [_ [x H]]; discriminate H].
    + destruct (truthy (callData options)); cbn [negb fst].
      2:{ split; [intros [x H]; discriminate H | intros [_ [H _]]; discriminate H]. }
      destruct (value options) as [v|]; cbn [fst].
      * split; [intros _; repeat split; eexists; reflexivity
               | intros _; eexists; reflexivity].
      * split; [intros [x H]; discriminate H | intros [_ [_ [x H]]]; discriminate H].
    + destruct (truthy (scheme options)); cbn [negb fst].
      2:{ split; [intros [x H]; discriminate H | intros [_ [H _]]; discriminate H]. }
      destruct (truthy (parametersHash options)); cbn [negb fst].
      2:{ split; [intros [x H]; discriminate H | intros [_ [_ [H _]]]; discriminate H]. }
      destruct (truthy (permissions options)); cbn [negb fst].
      2:{ split; [intros [x H]; discriminate H | intros [_ [_ [_ H]]]; discriminate H]. }
      split; [intros _; repeat split | intros _; eexists; reflexivity].
    + destruct (truthy (scheme options)); cbn [negb fst].
      2:{ split; [intros [x H]; discriminate H | intros [_ [H _]]; discriminate H]. }
      destruct (truthy (parametersHash options)); cbn [negb fst].
      2:{ split; [intros [x H]; discriminate H | intros [_ [_ [H _]]]; discriminate H]. }
      destruct (truthy (permissions options)); cbn [negb fst].
      2:{ split; [intros [x H]; discriminate H | intros [_ [_ [_ H]]]; discriminate H]. }
      split; [intros _; repeat split | intros _; eexists; reflexivity].
    + destruct (truthy (scheme options)); cbn [negb fst].
      2:{ split; [intros [x H]; discriminate H | intros [_ H]; discriminate H]. }
      split; [intros _; repeat split | intros _; eexists; reflexivity].
    + cbn [fst]. split; [intros [x H]; discriminate H | intros [_ []]].
  - intros operation context'.
    destruct (truthy (dao options)); cbn [negb]; [|discriminate].
    destruct (type options) as [[]|text].
    + destruct (getContract "ContributionReward" context) as [[c|e] context1];
        intros E; inversion E; reflexivity.
    + destruct (truthy (callData options)); cbn [negb]; [|discriminate].
      destruct (value options); intros E; inversion E; reflexivity.
    + repeat (match goal with |- context [truthy ?x] => destruct (truthy x) end;
              cbn [negb]; [|discriminate]).
      intros E; inversion E; reflexivity.
    + repeat (match goal with |- context [truthy ?x] => destruct (truthy x) end;
              cbn [negb]; [|discriminate]).
      intros E; inversion E; reflexivity.
    + destruct (truthy (scheme options)); cbn [negb]; [|discriminate].
      intros E; inversion E; reflexivity.
    + discriminate.
Qed.

Lemma saveIPFSData_without_texts (options : IProposalCreateOptions) :
  (truthy (title options) || truthy (url options) || truthy (description options))%bool
  = false ->
  saveIPFSData options
  = match ipfs storage with
    | Some add => add EmptyObject
    | None => Threw (mkError "Cannot read property 'add' of undefined")
    end.
Proof. intros H. unfold ProposalCreate.saveIPFSData. rewrite H. reflexivity. Qed.

Lemma saveIPFSData_set_descriptionHash (options : IProposalCreateOptions) (h : option string) :
  (truthy (title options) || truthy (url options) || truthy (description options))%bool
  = false ->
  saveIPFSData (set_descriptionHash h options) = saveIPFSData options.
Proof.
  intros H. rewrite !saveIPFSData_without_texts by exact H. reflexivity.
Qed.

(** Every transaction [create] builds waits for [saveIPFSData]. *)
Lemma not_returns_when_save_fails
    (options : IProposalCreateOptions) (context : Arc) (e : Error) :
  saveIPFSData options = Threw e ->
  ~ returns (created_transaction options context).
Proof.
  intros Hs [tx H]. revert H.
  unfold ProposalCreate.created_transaction, ProposalCreate.create, with_saved.
  destruct (truthy (dao options)); cbn [negb]; [|discriminate].
  destruct (type options) as [[]|text].
  - destruct (getContract "ContributionReward" context) as [[c|e'] context1];
      [|discriminate].
    cbn [createTransaction fst]. rewrite Hs. discriminate.
  - destruct (truthy (callData options)); cbn [negb]; [|discriminate].
    destruct (value options); [|discriminate].
    cbn [createTransaction fst]. rewrite Hs. discriminate.
  - repeat (match goal with |- context [truthy ?x] => destruct (truthy x) end;
            cbn [negb]; [|discriminate]).
    cbn [createTransaction fst].
    destruct (getContract "SchemeRegistrar" context) as [[c|e'] later1];
      cbn [fst]; [rewrite Hs|]; discriminate.
  - repeat (match goal with |- context [truthy ?x] => destruct (truthy x) end;
            cbn [negb]; [|discriminate]).
    cbn [createTransaction fst].
    destruct (getContract "SchemeRegistrar" context) as [[c|e'] later1];
      cbn [fst]; [rewrite Hs|]; discriminate.
  - destruct (truthy (scheme options)); cbn [negb]; [|discriminate].
    cbn [createTransaction fst].
    destruct (getContract "SchemeRegistrar" context) as [[c|e'] later1];
      cbn [fst]; [rewrite Hs|]; discriminate.
  - discriminate.
Qed.

(** X16. A description hash supplied by the caller is never sent.  Without
    a title, a url or a description, [create] saves the empty object on IPFS
    and sends the path of that file, so the transaction is the same whatever
    [descriptionHash] was given; with one of the three texts a
    [descriptionHash] makes the operation fail.  Without an IPFS client no
    transaction is built at all. *)
Theorem supplied_descriptionHash_is_not_sent
    (options : IProposalCreateOptions) (context : Arc) :
  ((truthy (title options) || truthy (url options) || truthy (description options))%bool
   = false ->
   forall h, created_transaction (set_descriptionHash h options) context
             = created_transaction options context)
  /\ ((truthy (title options) || truthy (url options) || truthy (description options))%bool
      = true ->
      truthy (descriptionHash options) = true ->
      ~ returns (created_transaction options context))
  /\ (ipfs storage = None -> ~ returns (created_transaction options context)).
Proof.
  split; [|split].
  - intros Hno h.
    pose proof (saveIPFSData_set_descriptionHash options h Hno) as Hs.
    unfold ProposalCreate.created_transaction, ProposalCreate.create, with_saved.
    cbn [set_descriptionHash dao type callData value scheme parametersHash permissions].
    destruct (truthy (dao options)); cbn [negb]; [|reflexivity].
    destruct (type options) as [[]|text].
    + destruct (getContract "ContributionReward" context) as [[c|e] context1];
        [|reflexivity].
      cbn [createTransaction fst]. rewrite Hs. reflexivity.
    + destruct (truthy (callData options)); cbn [negb]; [|reflexivity].
      destruct (value options); [|reflexivity].
      cbn [createTransaction fst]. rewrite Hs. reflexivity.
    + repeat (match goal with |- context [truthy ?x] => destruct (truthy x) end;
              cbn [negb]; [|reflexivity]).
      cbn [createTransaction fst]. rewrite Hs. reflexivity.
    + repeat (match goal with |- context [truthy ?x] => destruct (truthy x) end;
              cbn [negb]; [|reflexivity]).
      cbn [createTransaction fst]. rewrite Hs. reflexivity.
    + destruct (truthy (scheme options)); cbn [negb]; [|reflexivity].
      cbn [createTransaction fst]. rewrite Hs. reflexivity.
    + reflexivity.
  - intros Htexts Hh.
    assert (Hs : exists e, saveIPFSData options = Threw e).
    { unfold ProposalCreate.saveIPFSData. rewrite Htexts, Hh.
      destruct (ipfsProvider storage); eexists; reflexivity. }
    destruct Hs as [e Hs]. revert Hs. apply not_returns_when_save_fails.
  - intros Hnone.
    assert (Hs : exists e, saveIPFSData options = Threw e).
    { unfold ProposalCreate.saveIPFSData. rewrite Hnone.
      destruct (_ || _)%bool; [|eexists; reflexivity].
      destruct (ipfsProvider storage); cbn [negb]; [|eexists; reflexivity].
      destruct (truthy (descriptionHash options)); eexists; reflexivity. }
    destruct Hs as [e Hs]. revert Hs. apply not_returns_when_save_fails.
Qed.

End WithContext.

Lemma create_checks_options_witness :
  returns (fst (create "0x0" sample_storage sample_options sample_deployment)).
Proof.
  apply (proj2 (proj1 (create_checks_options "0x0" sample_storage sample_options
                         sample_deployment))).
  split; reflexivity.
Defined.

Lemma supplied_descriptionHash_is_not_sent_witness :
  created_transaction "0x0" sample_storage sample_options sample_deployment
  = Returned {| tx_contract := {| abi := "SchemeRegistrar.json";
                                  options_address := "0xregistrar" |};
                tx_method := "proposeToRemoveScheme";
                tx_arguments := ["0xdao"; "0xscheme"; "QmEmpty"]%string |}.
Proof.
  change sample_options
    with (set_descriptionHash (Some "QmCaller"%string)
            (set_descriptionHash None sample_options)).
  rewrite (proj1 (supplied_descriptionHash_is_not_sent "0x0" sample_storage
                    (set_descriptionHash None sample_options) sample_deployment)
             eq_refl (Some "QmCaller"%string)).
  reflexivity.
Defined.

End ProposalCreateFacts.

Module ProposalExecuteFacts.
Import Js ProposalWrite ProposalExecute.

Section WithChain.
Variable NULL_ADDRESS : string.
Variable proposals : string -> Result ProposalData.
Variable this : Proposal.

Abbreviation execute_errorHandler := (execute_errorHandler NULL_ADDRESS proposals this).
Abbreviation vote_errorHandler := (vote_errorHandler NULL_ADDRESS proposals this).

(** X17. The error handler of [execute] asks the voting machine about the
    proposal whatever the error was, a revert or not.  A proposal without
    callbacks is reported as not existing, also when its state is executed;
    an existing proposal in state ["2"] is reported as already executed, by
    [execute] and, for a revert, by [vote]; otherwise the error is passed
    on.  When the read of the proposal fails, the handler fails with it and
    the error it was given is lost. *)
Theorem execute_classification (err : Error) :
  (forall vm data,
     votingMachine this = Returned vm ->
     proposals (id this) = Returned data ->
     (callbacks data = NULL_ADDRESS ->
        execute_errorHandler err
        = Returned (mkError ("Error in proposal.execute(): A proposal with id "
                             +:+ id this +:+ " does not exist")))
     /\ (callbacks data <> NULL_ADDRESS -> state data = "2"%string ->
           execute_errorHandler err
           = Returned (mkError ("Error in proposal.execute(): proposal " +:+ id this
                                +:+ " already executed")))
     /\ (callbacks data <> NULL_ADDRESS -> state data <> "2"%string ->
           execute_errorHandler err = Returned err)
     /\ (includes "revert" (message err) = true ->
           proposer data <> NULL_ADDRESS -> state data = "2"%string ->
           vote_errorHandler err
           = Returned (mkError ("Error in vote(): proposal " +:+ id this
                                +:+ " already executed"))))
  /\ (forall vm e,
        votingMachine this = Returned vm ->
        proposals (id this) = Threw e ->
        execute_errorHandler err = Threw e).
Proof.
  unfold ProposalExecute.execute_errorHandler, ProposalWrite.vote_errorHandler. split.
  - intros vm data -> ->. cbn [mbind result_bind bind]. split; [|split; [|split]].
    + intros H. apply String.eqb_eq in H. rewrite H. reflexivity.
    + intros H ->. apply String.eqb_neq in H. rewrite H. reflexivity.
    + intros H H2. apply String.eqb_neq in H, H2. rewrite H, H2. reflexivity.
    + intros -> H ->. apply String.eqb_neq in H. rewrite H. reflexivity.
  - intros vm e -> ->. reflexivity.
Qed.

End WithChain.

Lemma execute_classification_witness :
  execute_errorHandler sample_NULL_ADDRESS sample_unknown sample_proposal
    (mkError "Error: insufficient funds for gas")
  = Returned (mkError "Error in proposal.execute(): A proposal with id 0xproposal does not exist").
Proof.
  exact (proj1 (proj1 (execute_classification sample_NULL_ADDRESS sample_unknown
                         sample_proposal (mkError "Error: insufficient funds for gas"))
                  "0xmachine"%string _ eq_refl eq_refl) eq_refl).
Defined.

End ProposalExecuteFacts.

(** ** Searching stakes *)

Module StakeSearchFacts.
Import Js ArcContracts StakeSearch.
Local Open Scope Z_scope.

Lemma printed_idem (key value : string) :
  printed key (printed key value) = printed key value.
Proof.
  unfold printed. destruct (String.eqb key "staker"); [|reflexivity].
  apply ProposalStateMoreFacts.toLowerCase_idem.
Qed.

Lemma where_lines_after_search (options : Options) :
  where_lines (after_search options) = where_lines options.
Proof.
  induction options as [|[key [value|]] options IH]; cbn; [reflexivity | |exact IH].
  rewrite printed_idem. f_equal. exact IH.
Qed.

Lemma where_lines_defined (options : Options) :
  where_lines (List.filter (fun kv => bool_decide (is_Some (snd kv))) options)
  = where_lines options.
Proof.
  induction options as [|[key [value|]] options IH]; cbn; [reflexivity | |exact IH].
  f_equal. exact IH.
Qed.

Lemma append_nil_r (a : string) : a +:+ "" = a.
Proof.
  induction a as [|c a IH]; [reflexivity|].
  change (String c (a +:+ "") = String c a). rewrite IH. reflexivity.
Qed.

Lemma append_assoc (a b c : string) : (a +:+ b) +:+ c = a +:+ (b +:+ c).
Proof.
  induction a as [|x a IH]; [reflexivity|].
  change (String x ((a +:+ b) +:+ c) = String x (a +:+ (b +:+ c))). rewrite IH. reflexivity.
Qed.

Lemma where_lines_app (options options' : Options) :
  where_lines (options ++ options') = where_lines options ++ where_lines options'.
Proof.
  induction options as [|[key [value|]] options IH]; cbn; [reflexivity | |exact IH].
  rewrite IH. reflexivity.
Qed.

(** The text is written option by option. *)
Lemma where_clause_app (options options' : Options) :
  where_clause (options ++ options') = where_clause options +:+ where_clause options'.
Proof.
  unfold where_clause. rewrite where_lines_app.
  induction (where_lines options) as [|kv l IH]; cbn [fold_right app]; [reflexivity|].
  rewrite IH, append_assoc. reflexivity.
Qed.

(** [obj[name] = value] puts the value at the first property of that name,
    or at the end; an object has no second property of a name. *)
Lemma set_prop_split {A : Type} (name : string) (value : A) (obj : list (string * A)) :
  exists before after,
    set_prop name value obj = before ++ (name, value) :: after
    /\ (forall kv, In kv before -> fst kv <> name)
    /\ (NoDup (List.map fst obj) -> forall kv, In kv after -> fst kv <> name).
Proof.
  induction obj as [|[k v] obj IH]; cbn.
  - exists [], []. split; [reflexivity|]. split; [intros kv [] | intros _ kv []].
  - destruct (String.eqb_spec k name) as [->|Hne].
    + exists [], obj. split; [reflexivity|]. split; [intros kv []|].
      intros Hnd kv Hin E. apply NoDup_cons in Hnd. destruct Hnd as [Hnot _].
      apply Hnot. apply list_elem_of_In. rewrite <- E. apply in_map. exact Hin.
    + destruct IH as (before & after & E & Hb & Ha).
      exists ((k, v) :: before), after. split; [rewrite E; reflexivity|]. split.
      * intros kv [<-|Hin]; [exact Hne | apply Hb, Hin].
      * intros Hnd. apply Ha. apply NoDup_cons in Hnd. apply Hnd.
Qed.

(** X18. The filter text [Stake.search] builds.  It is written option by
    option, in the order of the options: nothing for an option that is
    [undefined], the line [key: "value"] for any other, the value of
    [staker] being written in lower case.  So the options that are
    [undefined] can be left out, two searches whose stakers differ in letter
    case only send the same text, and searching again with the options as
    the first search left them sends the same text too.  The text
    [Proposal.stakes] sends has the line [proposal: "id"] with the id of its
    own proposal, in the place of the first [proposal] option it was given
    or else at the end; and no other [proposal] line. *)
Theorem search_filter (options : Options) :
  where_clause [] = ""
  /\ (forall options',
        where_clause (options ++ options') = where_clause options +:+ where_clause options')
  /\ (forall key, where_clause [(key, None)] = "")
  /\ (forall key value,
        key <> "staker"%string ->
        where_clause [(key, Some value)]
        = key +:+ ": " +:+ dquote +:+ value +:+ dquote +:+ ProposalWrite.newline)
  /\ (forall value,
        where_clause [("staker"%string, Some value)]
        = "staker" +:+ ": " +:+ dquote +:+ toLowerCase value +:+ dquote
          +:+ ProposalWrite.newline)
  /\ where_clause (List.filter (fun kv => bool_decide (is_Some (snd kv))) options)
     = where_clause options
  /\ where_clause (after_search options) = where_clause options
  /\ (forall before after s s',
        options = before ++ ("staker"%string, Some s) :: after ->
        toLowerCase s = toLowerCase s' ->
        where_clause (before ++ ("staker"%string, Some s') :: after)
        = where_clause options)
  /\ (forall this,
        exists before after,
          stakes_options this options
          = before ++ ("proposal"%string, Some (ProposalWrite.id this)) :: after
          /\ (forall kv, In kv before -> fst kv <> "proposal"%string)
          /\ (NoDup (List.map fst options) ->
              forall kv, In kv after -> fst kv <> "proposal"%string)
          /\ where_clause (stakes_options this options)
             = where_clause before
               +:+ ("proposal" +:+ ": " +:+ dquote +:+ ProposalWrite.id this +:+ dquote
                    +:+ ProposalWrite.newline)
               +:+ where_clause after).
Proof.
  assert (Hone : forall key value,
            where_clause [(key, Some value)]
            = key +:+ ": " +:+ dquote +:+ printed key value +:+ dquote
              +:+ ProposalWrite.newline).
  { intros key value. unfold where_clause, line. cbn [where_lines fold_right fst snd].
    apply append_nil_r. }
  split; [reflexivity|]. split; [apply where_clause_app|]. split; [reflexivity|].
  split; [|split].
  - intros key value Hne. rewrite Hone. unfold printed.
    apply String.eqb_neq in Hne. rewrite Hne. reflexivity.
  - intros value. rewrite Hone. reflexivity.
  - split; [|split; [|split]].
    + unfold where_clause. rewrite where_lines_defined. reflexivity.
    + unfold where_clause. rewrite where_lines_after_search. reflexivity.
    + intros before after s s' -> Hs.
      rewrite !where_clause_app.
      change (("staker"%string, Some s') :: after)
        with ([("staker"%string, Some s')] ++ after).
      change (("staker"%string, Some s) :: after)
        with ([("staker"%string, Some s)] ++ after).
      rewrite !where_clause_app, !Hone. unfold printed. cbn [String.eqb Ascii.eqb Bool.eqb].
      rewrite Hs. reflexivity.
    + intros this. unfold stakes_options.
      destruct (set_prop_split "proposal" (Some (ProposalWrite.id this)) options)
        as (before & after & E & Hb & Ha).
      exists before, after. split; [exact E|]. split; [exact Hb|]. split; [exact Ha|].
      rewrite E.
      change (("proposal"%string, Some (ProposalWrite.id this)) :: after)
        with ([("proposal"%string, Some (ProposalWrite.id this))] ++ after).
      rewrite !where_clause_app, Hone. reflexivity.
Qed.

Lemma search_filter_witness :
  where_clause [("staker"%string, Some "0xABCdef"%string); ("dao"%string, None)]
  = where_clause [("staker"%string, Some "0xabcDEF"%string)]
  /\ where_clause [("dao"%string, Some "0xDAO"%string)]
     = "dao" +:+ ": " +:+ dquote +:+ "0xDAO" +:+ dquote +:+ ProposalWrite.newline
  /\ where_clause (stakes_options ProposalWrite.sample_proposal
                     [("proposal"%string, Some "0xother"%string)])
     = "proposal" +:+ ": " +:+ dquote +:+ "0xproposal" +:+ dquote +:+ ProposalWrite.newline.
Proof.
  split; [|split].
  - rewrite <- (proj1 (proj2 (proj2 (proj2 (proj2 (proj2
                 (search_filter
                    [("staker"%string, Some "0xABCdef"%string); ("dao"%string, None)]))))))).
    exact (proj1 (proj2 (proj2 (proj2 (proj2 (proj2 (proj2 (proj2
                   (search_filter [("staker"%string, Some "0xabcDEF"%string)]))))))))
             [] [] "0xabcDEF"%string "0xABCdef"%string eq_refl eq_refl).
  - apply (proj1 (proj2 (proj2 (proj2 (search_filter []))))). discriminate.
  - apply (proj1 (proj2 (proj2 (proj2 (search_filter []))))). discriminate.
Defined.

(** X19. The mapper of [Stake.search] accepts an entity exactly when its
    outcome is ["Pass"] or ["Fail"] and throws for any other outcome; the
    stake it returns copies the entity, with an amount of zero when the
    index gave none. *)
Theorem search_map_outcome (r : Item) :
  (returns (search_map r) <->
     r_outcome r = "Pass"%string \/ r_outcome r = "Fail"%string)
  /\ (forall stake, search_map r = Returned stake ->
        staker stake = r_staker r
        /\ proposalId stake = r_proposal_id r
        /\ amount stake = default 0 (r_amount r)
        /\ (outcome stake = ProposalWrite.Pass <-> r_outcome r = "Pass"%string)
        /\ (outcome stake = ProposalWrite.Fail <-> r_outcome r = "Fail"%string)
        /\ outcome stake <> ProposalWrite.OutcomeNone).
Proof.
  unfold search_map. split.
  - destruct (String.eqb_spec (r_outcome r) "Pass") as [E|N].
    { split; [left; exact E | intros _; eexists; reflexivity]. }
    destruct (String.eqb_spec (r_outcome r) "Fail") as [E|N'].
    { split; [right; exact E | intros _; eexists; reflexivity]. }
    split; [intros [x H]; discriminate H | intros [E|E]; contradiction].
  - intros stake.
    destruct (String.eqb_spec (r_outcome r) "Pass") as [E|N].
    { intros H. inversion H. cbn.
      split; [reflexivity|]. split; [reflexivity|]. split; [reflexivity|].
      split; [split; [intros _; exact E | reflexivity]|].
      split; [|discriminate].
      split; [discriminate | intros E'; rewrite E in E'; discriminate]. }
    destruct (String.eqb_spec (r_outcome r) "Fail") as [E|N'].
    { intros H. inversion H. cbn.
      split; [reflexivity|]. split; [reflexivity|]. split; [reflexivity|].
      split; [split; [discriminate | intros E'; contradiction]|].
      split; [|discriminate].
      split; [intros _; exact E | reflexivity]. }
    discriminate.
Qed.

Lemma search_map_outcome_witness :
  returns (search_map {| r_id := "0xstake"; r_staker := "0xstaker"; r_createdAt := 1;
                         r_outcome := "Fail"; r_amount := None;
                         r_proposal_id := "0xproposal" |}).
Proof.
  apply (proj2 (proj1 (search_map_outcome _))). right. reflexivity.
Defined.

End StakeSearchFacts.

(** ** The polled account *)

Module ArcAccountFacts.
Import Js ArcAccount.

Lemma distinct_neighbours_snoc (l : list string) (x : string) :
  distinct_neighbours l ->
  (forall p, last l = Some p -> p <> x) ->
  distinct_neighbours (l ++ [x]).
Proof.
  induction l as [|a l IH]; intros Hd Hl; [exact I|].
  destruct l as [|b l].
  - cbn. split; [|exact I]. apply Hl. reflexivity.
  - destruct Hd as [Hab Hd]. cbn. split; [exact Hab|].
    apply IH; [exact Hd|]. intros p Hp. apply Hl. exact Hp.
Qed.

Lemma steady_notify (acc : option string) (p : Polling) :
  steady p -> steady (notify acc p).
Proof.
  intros (Hd & Hlast & Hnone). unfold notify, changed.
  destruct (bool_decide (prevAccount p = acc)) eqn:Hb; cbn [negb andb].
  - split; [exact Hd|]. split; assumption.
  - destruct (truthy acc) eqn:Ht.
    + destruct acc as [a|]; [|discriminate]. cbn [default from_option id emitted prevAccount].
      unfold steady. cbn [emitted prevAccount]. split; [|split].
      * apply distinct_neighbours_snoc; [exact Hd|]. intros q Hq ->.
        apply Hlast in Hq. apply bool_decide_eq_false in Hb. contradiction.
      * intros x. rewrite last_snoc. intros E. inversion E. reflexivity.
      * discriminate.
    + split; [exact Hd|]. split; assumption.
Qed.

Lemma steady_poll (wallet : option (option string)) (answer : option (list string))
    (p : Polling) :
  steady p -> steady (poll wallet answer p).
Proof.
  intros H. unfold poll. destruct (failed p); [exact H|].
  destruct answer as [l|]; [apply steady_notify, H|].
  destruct wallet as [[address|]|]; [apply steady_notify, H | exact H | apply steady_notify, H].
Qed.

Lemma steady_subscribe (wallet : option (option string)) (configured : option string) :
  steady (subscribe wallet configured).
Proof.
  unfold subscribe. destruct wallet as [[address|]|].
  - split; [exact I|]. split; [|discriminate]. intros x E. inversion E. reflexivity.
  - destruct (truthy configured) eqn:Ht.
    + destruct configured as [d|]; [|discriminate]. split; [exact I|].
      split; [|discriminate]. intros x E. inversion E. reflexivity.
    + split; [exact I|]. split; [discriminate | reflexivity].
  - split; [exact I|]. split; [discriminate | reflexivity].
Qed.

(** X21. [getAccount] tells its observer about changes only.  Over any
    sequence of polls the observer is never handed the same account twice
    in a row, the account handed over last is the one [prevAccount] holds,
    and a poll that finds the account unchanged, or finds none, hands over
    nothing. *)
Theorem getAccount_reports_changes
    (wallet : option (option string)) (configured : option string)
    (answers : list (option (list string))) :
  let p := polls wallet answers (subscribe wallet configured) in
  distinct_neighbours (emitted p)
  /\ (forall x, last (emitted p) = Some x -> prevAccount p = Some x)
  /\ (forall l, l !! 0%nat = prevAccount p \/ truthy (l !! 0%nat) = false ->
        emitted (poll wallet (Some l) p) = emitted p).
Proof.
  intros p.
  assert (Hs : steady p).
  { unfold p, polls. generalize (subscribe wallet configured) (steady_subscribe wallet configured).
    induction answers as [|a answers IH]; intros q Hq; [exact Hq|].
    apply IH, steady_poll, Hq. }
  destruct Hs as (Hd & Hlast & _). split; [exact Hd|]. split; [exact Hlast|].
  intros l Hl. unfold poll. destruct (failed p); [reflexivity|].
  unfold notify, changed. destruct Hl as [Hl|Hl].
  - rewrite bool_decide_eq_true_2 by (symmetry; exact Hl). reflexivity.
  - rewrite Hl, andb_false_r. reflexivity.
Qed.

Lemma getAccount_reports_changes_witness :
  emitted (polls (Some None)
             [Some ["0xa11ce"]; Some ["0xa11ce"]; Some []; Some ["0xb0b"]; None;
              Some ["0xb0b"]; Some ["0xa11ce"]]%string
             (subscribe (Some None) None))
  = ["0xa11ce"; "0xb0b"; "0xa11ce"]%string
  /\ distinct_neighbours ["0xa11ce"; "0xb0b"; "0xa11ce"]%string.
Proof.
  split; [reflexivity|].
  exact (proj1 (getAccount_reports_changes (Some None) None
                  [Some ["0xa11ce"]; Some ["0xa11ce"]; Some []; Some ["0xb0b"]; None;
                   Some ["0xb0b"]; Some ["0xa11ce"]]%string)).
Defined.

End ArcAccountFacts.
